(** * YDB storage for aiogram FSM: a shallow embedding of
      [aiogram_ydb_storage/storage.py] and the properties of its facade.

    Layout: Python strings, floats and values, the [json] codec of the
    standard library (default options), the exception/state monad in
    which the [async] methods run, the class [YDBStorage] method by
    method, a reference model of the YDB table behind the session pool,
    and then the theorems. *)

From Stdlib Require Import ZArith NArith List String Ascii Lia Bool.
From Stdlib Require Import DecimalZ DecimalN DecimalPos DecimalFacts.
From stdpp Require Import base option list gmap.

Local Open Scope N_scope.

(** ** Python strings

    A Python [str] is a sequence of Unicode code points; a code point is
    a number below [0x110000].  Literals of the source are written with
    [lit]. *)

Abbreviation pystr := (list N).

Definition lit (s : string) : pystr :=
  map N_of_ascii (list_ascii_of_string s).

(** [not s] for a string: the empty string is falsy. *)
Definition str_truthy (s : pystr) : bool :=
  match s with [] => false | _ :: _ => true end.

(** Decimal digits, most significant first, as characters. *)
Fixpoint uint_chars (d : Decimal.uint) : pystr :=
  match d with
  | Decimal.Nil => []
  | Decimal.D0 d => 48 :: uint_chars d
  | Decimal.D1 d => 49 :: uint_chars d
  | Decimal.D2 d => 50 :: uint_chars d
  | Decimal.D3 d => 51 :: uint_chars d
  | Decimal.D4 d => 52 :: uint_chars d
  | Decimal.D5 d => 53 :: uint_chars d
  | Decimal.D6 d => 54 :: uint_chars d
  | Decimal.D7 d => 55 :: uint_chars d
  | Decimal.D8 d => 56 :: uint_chars d
  | Decimal.D9 d => 57 :: uint_chars d
  end.

(** [str(n)] for a Python [int]: decimal, a leading minus sign for
    negative numbers, no leading zero.  (The interpreter refuses to
    convert integers of more than 4300 digits; identifiers and payload
    numbers are taken below that.) *)
Definition str_int (z : Z) : pystr :=
  match Z.to_int z with
  | Decimal.Pos d => uint_chars d
  | Decimal.Neg d => 45 :: uint_chars d
  end.


(** ** Python floats

    A [float] is an IEEE 754 double: not-a-number, an infinity, or the
    finite number [m * 2^e] with its sign.  The doubles are the values
    accepted by [Float.ok]: [m] below [2^53], [e] from [-1074] to [971],
    and [m] at least [2^52] unless [e] is [-1074] (the subnormal numbers
    and the two zeros).

    [float(text)] is the double nearest to the decimal, ties to the even
    mantissa, and an infinity beyond the largest double
    ([Float.of_decimal]).  [repr] is the shortest decimal that reads back
    as the double, the nearest to it among the shortest, in fixed or
    exponent notation: [Float.repr_candidates] lists the texts by length,
    and [Json.float_repr], which reads them, takes the first that reads
    back.  All the arithmetic is exact, on integers. *)

Inductive pyfloat : Type :=
| FNaN
| FInf (negative : bool)
| FFinite (negative : bool) (m e : Z).

Module Float.

Local Open Scope Z_scope.

(** The values that are doubles. *)
Definition ok (x : pyfloat) : bool :=
  match x with
  | FFinite _ m e =>
      (0 <=? m) && (m <? 2 ^ 53) && (-1074 <=? e) && (e <=? 971)
      && ((2 ^ 52 <=? m) || (e =? -1074))
  | _ => true
  end.

(** [math.isfinite(x)]. *)
Definition finite (x : pyfloat) : bool :=
  match x with FFinite _ _ _ => true | _ => false end.

(** [x == 0]: [0.0] and [-0.0]. *)
Definition is_zero (x : pyfloat) : bool :=
  match x with FFinite _ m _ => m =? 0 | _ => false end.

(** The same double (with the sign of a zero). *)
Definition eqb (x y : pyfloat) : bool :=
  match x, y with
  | FNaN, FNaN => true
  | FInf a, FInf b => Bool.eqb a b
  | FFinite a m e, FFinite b m' e' => Bool.eqb a b && (m =? m') && (e =? e')
  | _, _ => false
  end.

(** [p / (q * 2^e)] as a fraction of integers. *)
Definition scaled (p q e : Z) : Z * Z :=
  if 0 <=? e then (p, q * 2 ^ e) else (p * 2 ^ (- e), q).

(** The double nearest to [p / q], ties to the even mantissa, for
    [0 <= p] and [0 < q]. *)
Definition round_ratio (negative : bool) (p q : Z) : pyfloat :=
  if p =? 0 then FFinite negative 0 (-1074)
  else
    let e0 := Z.log2 p - Z.log2 q - 53 in
    let ea := Z.max e0 (-1074) in
    let '(n, d) := scaled p q ea in
    let e := if n / d <? 2 ^ 53 then ea else ea + 1 in
    let '(n, d) := scaled p q e in
    let m := n / d in
    let r := n mod d in
    let m :=
      if 2 * r <? d then m
      else if d <? 2 * r then m + 1
      else if Z.even m then m else m + 1 in
    let '(m, e) := if m =? 2 ^ 53 then (2 ^ 52, e + 1) else (m, e) in
    if 971 <? e then FInf negative else FFinite negative m e.

(** The double nearest to [d * 10^e10]. *)
Definition of_decimal (negative : bool) (d e10 : Z) : pyfloat :=
  if 0 <=? e10 then round_ratio negative (d * 10 ^ e10) 1
  else round_ratio negative d (10 ^ (- e10)).

(** [m * 2^e] as a fraction. *)
Definition ratio (m e : Z) : Z * Z :=
  if 0 <=? e then (m * 2 ^ e, 1) else (m, 2 ^ (- e)).

(** The number of decimal digits of a positive integer. *)
Definition decimal_length (n : Z) : Z := Z.of_nat (length (str_int n)).

(** The exponent [t] with [10^t <= p / q < 10^(t+1)]. *)
Definition log10_ratio (p q : Z) : Z :=
  let t0 := decimal_length p - decimal_length q in
  let reached := if 0 <=? t0 then q * 10 ^ t0 <=? p else q <=? p * 10 ^ (- t0) in
  if reached then t0 else t0 - 1.

(** The decimals [c * 10^k] of [n] digits next to [p / q], the nearer
    one first, and the one with an even last digit first when [p / q] is
    half way. *)
Definition decimals_around (p q t n : Z) : list (Z * Z) :=
  let k := t - n + 1 in
  let '(num, den) := if 0 <=? k then (p, q * 10 ^ k) else (p * 10 ^ (- k), q) in
  let lo := num / den in
  let r := num mod den in
  if r =? 0 then [(lo, k)]
  else if (2 * r <? den) || ((2 * r =? den) && Z.even lo) then [(lo, k); (lo + 1, k)]
  else [(lo + 1, k); (lo, k)].

(** [c * 10^k] without the zeros at the end of [c]. *)
Fixpoint strip_zeros (fuel : nat) (c k : Z) : Z * Z :=
  match fuel with
  | O => (c, k)
  | S fuel =>
      if (c mod 10 =? 0) && negb (c =? 0) then strip_zeros fuel (c / 10) (k + 1)
      else (c, k)
  end.

(** The exponent of the exponent notation: a sign and two digits at
    least. *)
Definition exponent_chars (x : Z) : pystr :=
  (if x <? 0 then [45%N] else [43%N])
  ++ (if Z.abs x <? 10 then [48%N] else []) ++ str_int (Z.abs x).

(** The text of [c * 10^k] in the format of [repr]: fixed notation when
    the decimal point falls after at most 16 digits and before at most
    four zeros, exponent notation otherwise. *)
Definition format_repr (c k : Z) : pystr :=
  let ds := str_int c in
  let n := Z.of_nat (length ds) in
  let decpt := k + n in
  if (-4 <? decpt) && (decpt <=? 16) then
    if decpt <=? 0 then lit "0." ++ repeat 48%N (Z.to_nat (- decpt)) ++ ds
    else if n <=? decpt then ds ++ repeat 48%N (Z.to_nat (decpt - n)) ++ lit ".0"
    else take (Z.to_nat decpt) ds ++ [46%N] ++ drop (Z.to_nat decpt) ds
  else
    take 1 ds ++ (if 1 <? n then 46%N :: drop 1 ds else [])
    ++ [101%N] ++ exponent_chars (decpt - 1).

Definition sign_chars (negative : bool) : pystr := if negative then [45%N] else [].

(** The texts that [repr] considers for a finite double, the shorter
    first: [0.0] for a zero, and otherwise, for one to seventeen digits,
    the two decimals of that many digits around the double. *)
Definition repr_candidates (negative : bool) (m e : Z) : list pystr :=
  if m =? 0 then [sign_chars negative ++ lit "0.0"]
  else
    let '(p, q) := ratio m e in
    let t := log10_ratio p q in
    flat_map
      (fun n =>
         map (fun ck => let '(c, k) := strip_zeros 20 (fst ck) (snd ck) in
                        sign_chars negative ++ format_repr c k)
             (decimals_around p q t n))
      (map Z.of_nat (seq 1 17)).

(** The exact decimal expansion of [m * 2^e], as an integer and a power
    of ten. *)
Definition exact_text (negative : bool) (m e : Z) : pystr :=
  sign_chars negative
  ++ (if 0 <=? e then str_int (m * 2 ^ e) ++ [101%N] ++ str_int 0
      else str_int (m * 5 ^ (- e)) ++ [101%N] ++ str_int e).

End Float.


(** ** Exceptions and results

    An exception carries its class name, whether the class derives from
    [Exception] (as opposed to [BaseException] only: [KeyboardInterrupt],
    [SystemExit], [asyncio.CancelledError]), and its [str()]. *)

Record exn := mkExn {
  exc_class : string;
  is_Exception : bool;
  exc_str : pystr
}.

Definition TypeError (msg : string) : exn := mkExn "TypeError" true (lit msg).
Definition AttributeError (msg : string) : exn := mkExn "AttributeError" true (lit msg).
Definition IndexError (msg : string) : exn := mkExn "IndexError" true (lit msg).
Definition JSONDecodeError (msg : string) : exn := mkExn "JSONDecodeError" true (lit msg).
Definition RuntimeError (msg : string) : exn := mkExn "RuntimeError" true (lit msg).

Inductive outcome (A : Type) : Type :=
| Return (a : A)
| Raise (e : exn).
Arguments Return {A} a.
Arguments Raise {A} e.

(** ** Python values

    The payload of the store is [Dict[str, Any]]: the keys of a mapping
    are strings, its values any object.  [PyObject] stands for every
    object other than those listed (a set, a class instance, ...), which
    [json] cannot serialize. *)

Unset Elimination Schemes.
Inductive pyval : Type :=
| PyNone
| PyBool (b : bool)
| PyInt (z : Z)
| PyFloat (x : pyfloat)
| PyStr (s : pystr)
| PyList (l : list pyval)
| PyDict (d : list (pystr * pyval))
| PyObject (id : N).
Set Elimination Schemes.

Abbreviation pydict := (list (pystr * pyval)).

(** [d.get(k)]. *)
Fixpoint dict_get (d : pydict) (k : pystr) : option pyval :=
  match d with
  | [] => None
  | (k', v) :: d' => if decide (k' = k) then Some v else dict_get d' k
  end.

(** [d[k] = v]: the value is replaced in place when the key is present,
    the item is appended otherwise (dicts keep insertion order). *)
Fixpoint dict_setitem (d : pydict) (k : pystr) (v : pyval) : pydict :=
  match d with
  | [] => [(k, v)]
  | (k', v') :: d' =>
      if decide (k' = k) then (k', v) :: d' else (k', v') :: dict_setitem d' k v
  end.

(** [d.update(other)], and [dict(pairs)]. *)
Definition dict_update (d other : pydict) : pydict :=
  fold_left (fun acc kv => dict_setitem acc (fst kv) (snd kv)) other d.

Definition dict_of_pairs (pairs : list (pystr * pyval)) : pydict :=
  dict_update [] pairs.

(** Truth value of an object, as tested by [if obj] and [not obj]: a
    number is falsy when it is zero ([0], [0.0], [-0.0]). *)
Definition py_truthy (v : pyval) : bool :=
  match v with
  | PyNone => false
  | PyBool b => b
  | PyInt z => negb (Z.eqb z 0)
  | PyFloat x => negb (Float.is_zero x)
  | PyStr s => str_truthy s
  | PyList l => match l with [] => false | _ => true end
  | PyDict d => match d with [] => false | _ => true end
  | PyObject _ => true
  end.

(** ** The [json] codec

    A model of [json.dumps] and [json.loads] of the Python standard
    library with their default options ([ensure_ascii=True], separators
    [", "] and [": "], [strict=True]), over texts as lists of code
    points.  The messages of the decoding errors are reduced to two and
    carry no position.  Two limits of the interpreter are left out: the
    limit on the digits of an [int] in a conversion (a setting, 4300
    digits by default, none after [sys.set_int_max_str_digits(0)]) and
    the recursion limit (a setting too, 1000 frames by default); a value
    beyond them makes [dumps] raise, so the properties of values are
    those of values within the limits. *)

Module Json.

(** *** Number literals and floats

    [NUMBER_RE]: an optional minus sign, then 0 or a digit run that
    does not start with 0; then an optional fraction (a dot and digits)
    and an optional exponent (e or E, an optional sign, digits). *)

Definition is_digit (c : N) : bool := (48 <=? c) && (c <=? 57).

Fixpoint span_digits (s : pystr) : pystr * pystr :=
  match s with
  | c :: r =>
      if is_digit c then let '(ds, r') := span_digits r in (c :: ds, r')
      else ([], s)
  | [] => ([], [])
  end.

Definition match_integer (s : pystr) : option (pystr * pystr) :=
  let '(sign, r) :=
    match s with
    | c :: r => if c =? 45 then ([45], r) else ([], s)
    | [] => ([], s)
    end in
  match r with
  | c :: r' =>
      if c =? 48 then Some (sign ++ [48], r')
      else if is_digit c then
        let '(ds, r'') := span_digits r' in Some (sign ++ c :: ds, r'')
      else None
  | [] => None
  end.

Definition match_frac (s : pystr) : option (pystr * pystr) :=
  match s with
  | c :: r =>
      if c =? 46 then
        match span_digits r with
        | ([], _) => None
        | (ds, r') => Some (c :: ds, r')
        end
      else None
  | [] => None
  end.

Definition match_exp (s : pystr) : option (pystr * pystr) :=
  match s with
  | c :: r =>
      if (c =? 101) || (c =? 69) then
        let '(sign, r1) :=
          match r with
          | g :: r1 => if (g =? 45) || (g =? 43) then ([g], r1) else ([], r)
          | [] => ([], r)
          end in
        match span_digits r1 with
        | ([], _) => None
        | (ds, r2) => Some (c :: sign ++ ds, r2)
        end
      else None
  | [] => None
  end.

Definition digit_cons (c : N) (d : Decimal.uint) : Decimal.uint :=
  if c =? 48 then Decimal.D0 d
  else if c =? 49 then Decimal.D1 d
  else if c =? 50 then Decimal.D2 d
  else if c =? 51 then Decimal.D3 d
  else if c =? 52 then Decimal.D4 d
  else if c =? 53 then Decimal.D5 d
  else if c =? 54 then Decimal.D6 d
  else if c =? 55 then Decimal.D7 d
  else if c =? 56 then Decimal.D8 d
  else Decimal.D9 d.

Definition chars_uint (s : pystr) : Decimal.uint :=
  fold_right digit_cons Decimal.Nil s.

(** [int(text)] for the text matched by the integer part. *)
Definition int_of_text (s : pystr) : Z :=
  match s with
  | c :: r =>
      if c =? 45 then Z.of_int (Decimal.Neg (chars_uint r))
      else Z.of_int (Decimal.Pos (chars_uint s))
  | [] => 0%Z
  end.

(** The three groups of [NUMBER_RE] at the head of a text, and the text
    after them. *)
Definition match_literal (s : pystr) : option ((pystr * pystr * pystr) * pystr) :=
  match match_integer s with
  | None => None
  | Some (integer, r) =>
      let '(frac, r1) :=
        match match_frac r with Some (f, r1) => (f, r1) | None => ([], r) end in
      let '(exp, r2) :=
        match match_exp r1 with Some (e, r2) => (e, r2) | None => ([], r1) end in
      Some ((integer, frac, exp), r2)
  end.

(** The value of the exponent group. *)
Definition exp_value (exp : pystr) : Z :=
  match exp with
  | _ :: g :: r => if g =? 43 then int_of_text r else int_of_text (g :: r)
  | _ => 0%Z
  end.

(** [float(integer + frac + exp)]: the double nearest to the decimal
    whose digits are those of the integer and of the fraction. *)
Definition float_of_literal (integer frac exp : pystr) : pyfloat :=
  let negative := match integer with c :: _ => c =? 45 | [] => false end in
  let digits := (if negative then tail integer else integer) ++ tail frac in
  Float.of_decimal negative (int_of_text digits)
    (exp_value exp - Z.of_nat (length (tail frac))).

(** [float(text)] for a text in the grammar of [NUMBER_RE]. *)
Definition float_of_str (text : pystr) : option pyfloat :=
  match match_literal text with
  | Some ((integer, frac, exp), []) => Some (float_of_literal integer frac exp)
  | _ => None
  end.

(** [float.__repr__]: the shortest text that [float] reads back as the
    same double, and the nearest to it among the shortest.  Seventeen
    digits are enough for every double; the exact expansion stands
    behind the search, which makes the function total without that
    fact. *)
Definition float_repr (x : pyfloat) : pystr :=
  match x with
  | FNaN => lit "nan"
  | FInf false => lit "inf"
  | FInf true => lit "-inf"
  | FFinite negative m e =>
      let reads_back t :=
        match float_of_str t with
        | Some y => Float.eqb y x
        | None => false
        end in
      match find reads_back (Float.repr_candidates negative m e) with
      | Some t => t
      | None => Float.exact_text negative m e
      end
  end.

(** [floatstr] of the encoder: [repr], and the three names that
    [allow_nan] lets through. *)
Definition floatstr (o : pyfloat) : pystr :=
  match o with
  | FNaN => lit "NaN"
  | FInf false => lit "Infinity"
  | FInf true => lit "-Infinity"
  | FFinite _ _ _ => float_repr o
  end.

(** *** Encoding *)

Definition hexdigit (d : N) : N := if d <? 10 then 48 + d else 87 + d.

(** [{0:04x}]. *)
Definition hex4 (n : N) : pystr :=
  [hexdigit (n / 4096); hexdigit ((n / 256) mod 16);
   hexdigit ((n / 16) mod 16); hexdigit (n mod 16)].

(** The replacement of one character by [py_encode_basestring_ascii]:
    the short escapes, printable ASCII unchanged, [\uXXXX] for the rest
    of the basic plane and a surrogate pair above it. *)
Definition escape_char (c : N) : pystr :=
  if c =? 34 then [92; 34]
  else if c =? 92 then [92; 92]
  else if c =? 10 then [92; 110]
  else if c =? 13 then [92; 114]
  else if c =? 9 then [92; 116]
  else if c =? 8 then [92; 98]
  else if c =? 12 then [92; 102]
  else if (32 <=? c) && (c <=? 126) then [c]
  else if c <? 65536 then 92 :: 117 :: hex4 c
  else
    let n := c - 65536 in
    let s1 := N.lor 55296 (N.land (N.shiftr n 10) 1023) in
    let s2 := N.lor 56320 (N.land n 1023) in
    (92 :: 117 :: hex4 s1) ++ (92 :: 117 :: hex4 s2).

Definition encode_str (s : pystr) : pystr :=
  34 :: flat_map escape_char s ++ [34].

(** What the encoder accepts: everything but [PyObject]. *)
Fixpoint serializable (v : pyval) : bool :=
  match v with
  | PyList l => forallb serializable l
  | PyDict d => forallb (fun kv => serializable (snd kv)) d
  | PyObject _ => false
  | _ => true
  end.

(** [", ".join(chunks)]. *)
Fixpoint join_items (chunks : list pystr) : pystr :=
  match chunks with
  | [] => []
  | [x] => x
  | x :: chunks' => x ++ lit ", " ++ join_items chunks'
  end.

(** The text of a serializable value.  Items are joined by [", "], a key
    and its value by [": "]. *)
Fixpoint encode (v : pyval) : pystr :=
  match v with
  | PyNone => lit "null"
  | PyBool true => lit "true"
  | PyBool false => lit "false"
  | PyInt z => str_int z
  | PyFloat x => floatstr x
  | PyStr s => encode_str s
  | PyList l => lit "[" ++ join_items (map encode l) ++ lit "]"
  | PyDict d =>
      lit "{"
      ++ join_items (map (fun kv => encode_str (fst kv) ++ lit ": " ++ encode (snd kv)) d)
      ++ lit "}"
  | PyObject _ => []
  end.

(** [json.dumps(obj)]. *)
Definition dumps (obj : pyval) : outcome pystr :=
  if serializable obj then Return (encode obj)
  else Raise (TypeError "Object is not JSON serializable").

(** *** Decoding *)

Definition is_ws (c : N) : bool :=
  (c =? 32) || (c =? 9) || (c =? 10) || (c =? 13).

Fixpoint skip_ws (s : pystr) : pystr :=
  match s with
  | c :: r => if is_ws c then skip_ws r else s
  | [] => []
  end.

Definition unhex (c : N) : option N :=
  if (48 <=? c) && (c <=? 57) then Some (c - 48)
  else if (97 <=? c) && (c <=? 102) then Some (c - 87)
  else if (65 <=? c) && (c <=? 70) then Some (c - 55)
  else None.

(** [_decode_uXXXX]: four hexadecimal digits. *)
Definition unhex4 (a b c d : N) : option N :=
  a' ← unhex a; b' ← unhex b; c' ← unhex c; d' ← unhex d;
  Some (((a' * 16 + b') * 16 + c') * 16 + d').

(** The table [BACKSLASH]. *)
Definition backslash (c : N) : option N :=
  if c =? 34 then Some 34
  else if c =? 92 then Some 92
  else if c =? 47 then Some 47
  else if c =? 98 then Some 8
  else if c =? 102 then Some 12
  else if c =? 110 then Some 10
  else if c =? 114 then Some 13
  else if c =? 116 then Some 9
  else None.

Definition is_high_surrogate (u : N) : bool := (55296 <=? u) && (u <=? 56319).
Definition is_low_surrogate (u : N) : bool := (56320 <=? u) && (u <=? 57343).

(** [scanstring], entered after the opening quote: the decoded string
    and the text after the closing quote.  A high surrogate escape
    directly followed by a low surrogate escape is one character. *)
Fixpoint scanstring (s : pystr) : option (pystr * pystr) :=
  match s with
  | [] => None
  | c :: r =>
    if c =? 34 then Some ([], r)
    else if c =? 92 then
      match r with
      | [] => None
      | e :: r1 =>
        if e =? 117 then
          match r1 with
          | h1 :: h2 :: h3 :: h4 :: r2 =>
            match unhex4 h1 h2 h3 h4 with
            | None => None
            | Some uni =>
              let single := '(str, rest) ← scanstring r2; Some (uni :: str, rest) in
              if is_high_surrogate uni then
                match r2 with
                | b :: r3 =>
                  if b =? 92 then
                    match r3 with
                    | u :: r4 =>
                      if u =? 117 then
                        match r4 with
                        | g1 :: g2 :: g3 :: g4 :: r5 =>
                          match unhex4 g1 g2 g3 g4 with
                          | None => None
                          | Some uni2 =>
                            if is_low_surrogate uni2 then
                              '(str, rest) ← scanstring r5;
                              Some (65536 + N.lor (N.shiftl (uni - 55296) 10) (uni2 - 56320)
                                      :: str, rest)
                            else single
                          end
                        | _ => None
                        end
                      else single
                    | [] => single
                    end
                  else single
                | [] => single
                end
              else single
            end
          | _ => None
          end
        else
          match backslash e with
          | None => None
          | Some ch => '(str, rest) ← scanstring r1; Some (ch :: str, rest)
          end
      end
    else if c <? 32 then None
    else '(str, rest) ← scanstring r; Some (c :: str, rest)
  end.

(** *** Numbers and constants

    A literal is an [int] when it has neither fraction nor exponent, and
    a [float] otherwise. *)

Definition match_number (s : pystr) : option (pyval * pystr) :=
  match match_literal s with
  | None => None
  | Some ((integer, frac, exp), r2) =>
      match frac ++ exp with
      | [] => Some (PyInt (int_of_text integer), r2)
      | _ => Some (PyFloat (float_of_literal integer frac exp), r2)
      end
  end.

(** [s[idx:idx+len(p)] == p], and the text after it. *)
Fixpoint strip_prefix (p s : pystr) : option pystr :=
  match p, s with
  | [], _ => Some s
  | a :: p', b :: s' => if a =? b then strip_prefix p' s' else None
  | _ :: _, [] => None
  end.

Definition scan_constant (s : pystr) : option (pyval * pystr) :=
  match strip_prefix (lit "NaN") s with
  | Some r => Some (PyFloat FNaN, r)
  | None =>
    match strip_prefix (lit "Infinity") s with
    | Some r => Some (PyFloat (FInf false), r)
    | None =>
      match strip_prefix (lit "-Infinity") s with
      | Some r => Some (PyFloat (FInf true), r)
      | None => None
      end
    end
  end.

Definition scan_atom (s : pystr) : option (pyval * pystr) :=
  match strip_prefix (lit "null") s with
  | Some r => Some (PyNone, r)
  | None =>
    match strip_prefix (lit "true") s with
    | Some r => Some (PyBool true, r)
    | None =>
      match strip_prefix (lit "false") s with
      | Some r => Some (PyBool false, r)
      | None =>
        match match_number s with
        | Some res => Some res
        | None => scan_constant s
        end
      end
    end
  end.

(** *** Values

    [scan_once], [JSONArray] and [JSONObject].  The three call each
    other; the recursion is on a bound on the number of calls, which
    [loads] sets to the length of the text (every call consumes a
    character).  [scan_items] is entered at the first item of a
    non-empty array, [scan_pairs] after the opening quote of a key. *)

Fixpoint scan_once (fuel : nat) (s : pystr) {struct fuel} : option (pyval * pystr) :=
  match fuel with
  | O => None
  | S fuel =>
    match s with
    | [] => None
    | c :: r =>
      if c =? 34 then
        '(str, rest) ← scanstring r; Some (PyStr str, rest)
      else if c =? 123 then
        match skip_ws r with
        | c1 :: r1 =>
            if c1 =? 125 then Some (PyDict [], r1)
            else if c1 =? 34 then
              '(pairs, rest) ← scan_pairs fuel r1; Some (PyDict (dict_of_pairs pairs), rest)
            else None
        | [] => None
        end
      else if c =? 91 then
        match skip_ws r with
        | c1 :: r1 =>
            if c1 =? 93 then Some (PyList [], r1)
            else '(values, rest) ← scan_items fuel (c1 :: r1); Some (PyList values, rest)
        | [] => None
        end
      else scan_atom s
    end
  end
with scan_items (fuel : nat) (s : pystr) {struct fuel} : option (list pyval * pystr) :=
  match fuel with
  | O => None
  | S fuel =>
    '(value, r) ← scan_once fuel s;
    match skip_ws r with
    | c :: r1 =>
        if c =? 93 then Some ([value], r1)
        else if c =? 44 then
          '(values, rest) ← scan_items fuel (skip_ws r1); Some (value :: values, rest)
        else None
    | [] => None
    end
  end
with scan_pairs (fuel : nat) (s : pystr) {struct fuel}
    : option (list (pystr * pyval) * pystr) :=
  match fuel with
  | O => None
  | S fuel =>
    '(key, r) ← scanstring s;
    match skip_ws r with
    | c :: r1 =>
      if c =? 58 then
        '(value, r2) ← scan_once fuel (skip_ws r1);
        match skip_ws r2 with
        | c2 :: r3 =>
            if c2 =? 125 then Some ([(key, value)], r3)
            else if c2 =? 44 then
              match skip_ws r3 with
              | c3 :: r4 =>
                  if c3 =? 34 then
                    '(pairs, rest) ← scan_pairs fuel r4; Some ((key, value) :: pairs, rest)
                  else None
              | [] => None
              end
            else None
        | [] => None
        end
      else None
    | [] => None
    end
  end.

(** [json.loads(s)]: leading whitespace, one value, trailing whitespace,
    and nothing else. *)
Definition loads (s : pystr) : outcome pyval :=
  match scan_once (length s) (skip_ws s) with
  | Some (obj, rest) =>
      match skip_ws rest with
      | [] => Return obj
      | _ :: _ => Raise (JSONDecodeError "Extra data")
      end
  | None => Raise (JSONDecodeError "Expecting value")
  end.

End Json.

(** Values that are JSON data: numbers that are integers or finite
    doubles (JSON has no NaN and no infinity), no foreign object, strings
    of Unicode scalar values (code points that are not surrogates), and
    mappings whose keys are pairwise distinct, as the keys of a [dict]
    are. *)

Definition scalar_value (c : N) : bool :=
  (c <? 1114112) && negb ((55296 <=? c) && (c <=? 57343)).

Fixpoint distinct_keys (d : list (pystr * pyval)) : bool :=
  match d with
  | [] => true
  | (k, _) :: d' => negb (existsb (fun kv => bool_decide (fst kv = k)) d') && distinct_keys d'
  end.

Fixpoint json_representable (v : pyval) : bool :=
  match v with
  | PyNone | PyBool _ | PyInt _ => true
  | PyFloat x => Float.ok x && Float.finite x
  | PyStr s => forallb scalar_value s
  | PyList l => forallb json_representable l
  | PyDict d =>
      distinct_keys d
      && forallb (fun kv => forallb scalar_value (fst kv) && json_representable (snd kv)) d
  | PyObject _ => false
  end.

(** ** The collaborators

    The [ydb] driver, the session pool and [ydb.aio.retry_operation] are
    outside the repository, and so is [pickle].  The storage sends five
    statements; [statement] names them with their table and their
    parameters. *)

Record DriverConfig := mkDriverConfig {
  endpoint : pystr;
  database : pystr
}.

Inductive Driver := ydb_Driver (driver_config : DriverConfig).
Inductive SessionPool := ydb_SessionPool (driver : option Driver).

(** What [_ser] returns: [str | bytes | None]. *)
Inductive serialized :=
| SerStr (s : pystr)
| SerBytes (b : list N)
| SerNone.

(** The queries of the source, with the table name that the f-string
    inserts and the values bound to the declared parameters:
    - [CreateTable t]: CREATE table t (key Utf8, data Utf8, state Utf8,
      PRIMARY KEY (key)), run by [execute_scheme];
    - [UpsertState t k s]: DECLARE $k AS Utf8; DECLARE $s AS Utf8;
      UPSERT INTO t (key, state) VALUES ($k, $s);
    - [UpsertData t k d]: DECLARE $k AS Utf8; DECLARE $d AS Utf8;
      UPSERT INTO t (key, data) VALUES ($k, $d);
    - [SelectState t k]: DECLARE $k AS Utf8; SELECT state FROM t WHERE key = $k;
    - [SelectData t k]: DECLARE $k AS Utf8; SELECT data FROM t WHERE key = $k. *)
Inductive statement :=
| CreateTable (table : pystr)
| UpsertState (table : pystr) (k : pystr) (s : pystr)
| UpsertData (table : pystr) (k : pystr) (d : serialized)
| SelectState (table : pystr) (k : pystr)
| SelectData (table : pystr) (k : pystr).

(** A result set has rows; a row maps a column to a text or to NULL.
    [row_get] is [row.get(column)]. *)
Definition result_row := list (pystr * option pystr).
Record result_set := mkResultSet { rows : list result_row }.

Fixpoint row_get (r : result_row) (column : pystr) : option pystr :=
  match r with
  | [] => None
  | (c, v) :: r' => if decide (c = column) then v else row_get r' column
  end.

(** [ydb.aio.retry_operation(callee, None, session_pool)] for the callee
    of one statement: it returns result sets or raises, and acts on the
    state [S] of the database. *)
Class Ydb (S : Type) := {
  retry_operation : statement -> SessionPool -> S -> outcome (list result_set) * S
}.

(** [pickle.dumps] and [pickle.loads].  Their failures ([PicklingError],
    [UnpicklingError], [TypeError], ...) derive from [Exception]. *)
Class Pickle := {
  pickle_dumps : pyval -> outcome (list N);
  pickle_loads : pystr -> outcome pyval;
  pickle_dumps_Exception : forall obj e, pickle_dumps obj = Raise e -> is_Exception e = true
}.

(** [asyncio.run] refuses to start when an event loop is already running
    in the thread.  [running_loop] tells whether one is running where the
    store is constructed: none is at module level, where [example.py]
    builds its store; one is inside a coroutine or a callback. *)
Class Asyncio := {
  running_loop : bool
}.

(** ** The monad of the methods

    A method acts on the database and on the records of the module
    logger, and returns or raises. *)

Record world (S : Type) := mkWorld {
  backend : S;
  log : list pystr
}.
Arguments mkWorld {S} backend log.
Arguments backend {S} w.
Arguments log {S} w.

Definition M (S A : Type) : Type := world S -> outcome A * world S.

Definition ret {S A} (a : A) : M S A := fun w => (Return a, w).
Definition raise {S A} (e : exn) : M S A := fun w => (Raise e, w).

Definition bind {S A B} (m : M S A) (k : A -> M S B) : M S B :=
  fun w =>
    match m w with
    | (Return a, w') => k a w'
    | (Raise e, w') => (Raise e, w')
    end.

Notation "'let*' x ':=' m 'in' k" := (bind m (fun x => k))
  (at level 10, x name, m at level 99, k at level 200, only parsing).
Notation "m ;;; k" := (bind m (fun _ => k))
  (at level 100, k at level 200, right associativity, only parsing).

(** [try: body except cls as e: handler(e)]; [cls] tells which
    exceptions the clause catches. *)
Definition try_except {S A} (body : M S A) (cls : exn -> bool) (handler : exn -> M S A)
    : M S A :=
  fun w =>
    match body w with
    | (Return a, w') => (Return a, w')
    | (Raise e, w') => if cls e then handler e w' else (Raise e, w')
    end.

Definition BaseException (e : exn) : bool := true.
Definition Exception (e : exn) : bool := is_Exception e.

(** [logger.error(msg)]. *)
Definition logger_error {S} (msg : pystr) : M S unit :=
  fun w => (Return tt, mkWorld (backend w) (log w ++ [msg])).

(** [l[0]]. *)
Definition getitem0 {S A} (l : list A) : M S A :=
  match l with
  | x :: _ => ret x
  | [] => raise (IndexError "list index out of range")
  end.

(** ** The class [YDBStorage] *)

(** aiogram's [StorageKey], with the three fields that [_key] reads;
    the identifiers are Python integers. *)
Record StorageKey := mkStorageKey {
  bot_id : Z;
  chat_id : Z;
  user_id : Z
}.

(** The [state] argument of [set_state]: an aiogram [State] (with its
    [state] property, a string or [None]), a plain string, or [None]. *)
Inductive state_arg :=
| StateObject (state : option pystr)
| StateStr (s : pystr)
| StateNone.

Record YDBStorage := mkYDBStorage {
  driver : option Driver;
  session_pool : SessionPool;
  table_name : pystr;
  serializing_method : pystr
}.

(** [_key]. *)
Definition _key (key : StorageKey) : pystr :=
  let result_string :=
    str_int (bot_id key) ++ lit ":" ++ str_int (chat_id key) ++ lit ":"
      ++ str_int (user_id key) in
  result_string.

Definition error_message (prefix : string) (e : exn) : pystr :=
  lit prefix ++ exc_str e.

Section Methods.

Context {S : Type} `{!Ydb S} `{!Pickle} {asyncio : Asyncio}.

(** [asyncio.run(coro)]: inside a running event loop it raises
    [RuntimeError] and the coroutine is never started; otherwise it
    drives the coroutine to its end. *)
Definition asyncio_run {A} (coro : M S A) : M S A :=
  if running_loop then
    raise (RuntimeError "asyncio.run() cannot be called from a running event loop")
  else coro.

(** The call of [retry_operation] as a method step. *)
Definition ydb_aio_retry_operation (stmt : statement) (pool : SessionPool)
    : M S (list result_set) :=
  fun w =>
    let '(r, b) := retry_operation stmt pool (backend w) in
    (r, mkWorld b (log w)).

(** [_ser]. *)
Definition _ser (self : YDBStorage) (obj : pyval) : M S serialized :=
  try_except
    (if decide (serializing_method self = lit "pickle") then
       match pickle_dumps obj with
       | Return b => ret (SerBytes b)
       | Raise e => raise e
       end
     else
       match Json.dumps obj with
       | Return s => ret (SerStr s)
       | Raise e => raise e
       end)
    Exception
    (fun e => logger_error (error_message "Serializing error! " e) ;;; ret SerNone).

(** [_dsr]; [obj] is a column value, a text or NULL, and [if obj] holds
    for a non-empty text.  The result [None] is [PyNone]. *)
Definition _dsr (self : YDBStorage) (obj : option pystr) : M S pyval :=
  try_except
    (let loads_if_obj (loads : pystr -> outcome pyval) : M S pyval :=
       match obj with
       | Some s =>
           if str_truthy s then
             match loads s with
             | Return v => ret v
             | Raise e => raise e
             end
           else ret PyNone
       | None => ret PyNone
       end in
     if decide (serializing_method self = lit "pickle") then loads_if_obj pickle_loads
     else loads_if_obj Json.loads)
    Exception
    (fun e =>
       logger_error
         (error_message
            "Deserializing error! Probably, unsupported serializing method was used. " e) ;;;
       ret PyNone).

(** [_execute_query]: the statement runs under the retry policy of the
    driver, on a session of the pool. *)
Definition _execute_query (self : YDBStorage) (query : statement) : M S (list result_set) :=
  ydb_aio_retry_operation query (session_pool self).

(** [_create_table]. *)
Definition _create_table (self : YDBStorage) : M S (option (list result_set)) :=
  let query := CreateTable (table_name self) in
  try_except
    (let* r := ydb_aio_retry_operation query (session_pool self) in ret (Some r))
    BaseException
    (fun e => logger_error (error_message "FSM Storage error: " e) ;;; ret None).

(** [__init__]. *)
Definition __init__ (driver_config : option DriverConfig) (session_pool : option SessionPool)
    (serializing_method : pystr) (table_name : pystr) : M S YDBStorage :=
  let driver :=
    match driver_config with
    | Some c => Some (ydb_Driver c)
    | None => None
    end in
  let session_pool :=
    match session_pool with
    | None => ydb_SessionPool driver
    | Some p => p
    end in
  let serializing_method :=
    if bool_decide (serializing_method ≠ lit "pickle")
       && bool_decide (serializing_method ≠ lit "json")
    then lit "json" else serializing_method in
  let self := mkYDBStorage driver session_pool table_name serializing_method in
  try_except
    (asyncio_run (_create_table self) ;;; ret tt)
    BaseException
    (fun e => logger_error (error_message "FSM Storage error: " e)) ;;;
  ret self.

(** [set_state]. *)
Definition set_state (self : YDBStorage) (key : StorageKey) (state : state_arg) : M S unit :=
  let s_key := _key key in
  let s_state :=
    match state with
    | StateObject st => st
    | StateStr s => Some s
    | StateNone => None
    end in
  let s_state :=
    match s_state with
    | Some s => if str_truthy s then s else lit EmptyString
    | None => lit EmptyString
    end in
  try_except
    (let query := UpsertState (table_name self) s_key s_state in
     _execute_query self query ;;; ret tt)
    BaseException
    (fun e => logger_error (error_message "FSM Storage error: " e)).

(** [get_state]. *)
Definition get_state (self : YDBStorage) (key : StorageKey) : M S (option pystr) :=
  let s_key := _key key in
  try_except
    (let query := SelectState (table_name self) s_key in
     let* result := _execute_query self query in
     let* r0 := getitem0 result in
     match rows r0 with
     | _ :: _ => let* row := getitem0 (rows r0) in ret (row_get row (lit "state"))
     | [] => ret None
     end)
    BaseException
    (fun e => logger_error (error_message "FSM Storage error: " e) ;;; ret None).

(** [set_data]. *)
Definition set_data (self : YDBStorage) (key : StorageKey) (data : pyval) : M S unit :=
  let s_key := _key key in
  let* s_data := _ser self data in
  try_except
    (let query := UpsertData (table_name self) s_key s_data in
     _execute_query self query ;;; ret tt)
    BaseException
    (fun e => logger_error (error_message "FSM Storage error: " e)).

(** [get_data]. *)
Definition get_data (self : YDBStorage) (key : StorageKey) : M S pyval :=
  let s_key := _key key in
  try_except
    (let query := SelectData (table_name self) s_key in
     let* result := _execute_query self query in
     let* r0 := getitem0 result in
     match rows r0 with
     | _ :: _ => let* row := getitem0 (rows r0) in _dsr self (row_get row (lit "data"))
     | [] => ret PyNone
     end)
    BaseException
    (fun e => logger_error (error_message "FSM Storage error: " e) ;;; ret PyNone).

(** [current_data.update(data)]: only a [dict] has the method. *)
Definition py_update (current_data : pyval) (data : pydict) : M S pyval :=
  match current_data with
  | PyDict d => ret (PyDict (dict_update d data))
  | _ => raise (AttributeError "object has no attribute 'update'")
  end.

(** [current_data.copy()]: a new [dict] with the same items. *)
Definition py_copy (current_data : pyval) : M S pyval :=
  match current_data with
  | PyDict d => ret (PyDict d)
  | _ => raise (AttributeError "object has no attribute 'copy'")
  end.

(** [update_data]. *)
Definition update_data (self : YDBStorage) (key : StorageKey) (data : pydict) : M S pyval :=
  let* current_data := get_data self key in
  let current_data := if negb (py_truthy current_data) then PyDict [] else current_data in
  let* current_data := py_update current_data data in
  set_data self key current_data ;;;
  py_copy current_data.

(** [close]. *)
Definition close (self : YDBStorage) : M S unit := ret tt.

End Methods.

(** ** A reference database

    One YDB database behind the session pool: its tables (a table maps
    the primary key to the two nullable [Utf8] columns), the faults that
    the coming calls will meet (session pool empty, timeout, backend
    unavailable: the head of [faults] decides the next call), and the
    journal of the statements received.

    [UPSERT INTO t (key, c) VALUES ...] inserts the row when the key is
    absent and otherwise overwrites the listed columns only; a column
    that is not listed keeps its value, or is NULL in a new row.  A
    parameter declared [Utf8] takes a text: [None] and [bytes] are
    rejected.  A statement that fails leaves the tables as they were. *)

Module RefDb.

Record row := mkRow {
  row_state : option pystr;
  row_data : option pystr
}.

Record db := mkDb {
  tables : gmap pystr (gmap pystr row);
  faults : list (option exn);
  journal : list statement
}.

Definition SchemeError (msg : string) : exn := mkExn "SchemeError" true (lit msg).
Definition Unavailable (msg : string) : exn := mkExn "Unavailable" true (lit msg).
Definition SessionPoolEmpty : exn := mkExn "SessionPoolEmpty" true (lit EmptyString).

Definition upsert_state (k s : pystr) (tb : gmap pystr row) : gmap pystr row :=
  <[k := mkRow (Some s) (tb !! k ≫= row_data)]> tb.

Definition upsert_data (k d : pystr) (tb : gmap pystr row) : gmap pystr row :=
  <[k := mkRow (tb !! k ≫= row_state) (Some d)]> tb.

Definition select (column : pystr) (proj : row -> option pystr) (k : pystr)
    (tb : gmap pystr row) : list result_set :=
  [mkResultSet match tb !! k with
               | Some r => [[(column, proj r)]]
               | None => []
               end].

(** The statement on the tables, when no fault occurs. *)
Definition run (stmt : statement) (ts : gmap pystr (gmap pystr row))
    : outcome (list result_set) * gmap pystr (gmap pystr row) :=
  let on_table (t : pystr)
      (f : gmap pystr row -> outcome (list result_set) * gmap pystr (gmap pystr row)) :=
    match ts !! t with
    | Some tb => f tb
    | None => (Raise (SchemeError "Cannot find table"), ts)
    end in
  match stmt with
  | CreateTable t =>
      match ts !! t with
      | Some _ => (Raise (SchemeError "Table name conflict: path exist"), ts)
      | None => (Return [], <[t := ∅]> ts)
      end
  | UpsertState t k s =>
      on_table t (fun tb => (Return [], <[t := upsert_state k s tb]> ts))
  | UpsertData t k d =>
      on_table t (fun tb =>
        match d with
        | SerStr s => (Return [], <[t := upsert_data k s tb]> ts)
        | _ => (Raise (TypeError "parameter $d is not a text"), ts)
        end)
  | SelectState t k =>
      on_table t (fun tb => (Return (select (lit "state") row_state k tb), ts))
  | SelectData t k =>
      on_table t (fun tb => (Return (select (lit "data") row_data k tb), ts))
  end.

(** One call of [retry_operation]: it consumes the head of [faults] and
    is written to the journal. *)
Definition execute (stmt : statement) (pool : SessionPool) (d : db)
    : outcome (list result_set) * db :=
  match faults d with
  | Some e :: fs => (Raise e, mkDb (tables d) fs (journal d ++ [stmt]))
  | fs =>
      let '(r, ts) := run stmt (tables d) in
      (r, mkDb ts (tail fs) (journal d ++ [stmt]))
  end.

#[global] Instance ref_ydb : Ydb db := {| retry_operation := execute |}.

(** The column values of a key, NULL when there is no row (or no table). *)
Definition state_column (d : db) (t k : pystr) : option pystr :=
  tables d !! t ≫= (fun tb => tb !! k ≫= row_state).

Definition data_column (d : db) (t k : pystr) : option pystr :=
  tables d !! t ≫= (fun tb => tb !! k ≫= row_data).

Definition has_row (d : db) (t k : pystr) : bool :=
  match tables d !! t ≫= (fun tb => tb !! k) with
  | Some _ => true
  | None => false
  end.

End RefDb.

(** An instance of [pickle] for the examples: [pickle.loads] of a [str]
    raises [TypeError] (it takes a bytes-like object), and [pickle.dumps]
    is the protocol header followed by the JSON text, or a
    [PicklingError]. *)
Definition example_pickle_dumps (obj : pyval) : outcome (list N) :=
  if Json.serializable obj then Return (128 :: 4 :: Json.encode obj)
  else Raise (mkExn "PicklingError" true (lit "Can't pickle object")).

Lemma example_pickle_dumps_Exception obj e :
  example_pickle_dumps obj = Raise e -> is_Exception e = true.
Proof.
  unfold example_pickle_dumps. destruct (Json.serializable obj); [discriminate|].
  intros [= <-]. reflexivity.
Qed.

#[global] Instance example_pickle : Pickle := {|
  pickle_dumps := example_pickle_dumps;
  pickle_loads := fun _ => Raise (TypeError "a bytes-like object is required, not 'str'");
  pickle_dumps_Exception := example_pickle_dumps_Exception
|}.

(** The examples construct their store as [example.py] does, at module
    level: no event loop is running. *)
#[global] Instance example_asyncio : Asyncio := {| running_loop := false |}.

(** A store over the reference database, its table created. *)
Definition example_store : YDBStorage :=
  mkYDBStorage None (ydb_SessionPool None) (lit "fsm_storage") (lit "json").



(** ** Statements of the properties *)

(** A method step that returns (it does not raise). *)
Definition returns {S A} (m : M S A) (w : world S) : Prop :=
  exists a w', m w = (Return a, w').

(** The record written by [logger.error] in the [except] clauses of the
    public methods. *)
Definition storage_error (e : exn) : pystr := error_message "FSM Storage error: " e.

(** [w] after a failed call of the executor that was caught and logged:
    the database is as the call left it, the log has one more record. *)
Definition logged_failure {S} (w : world S) (b : S) (e : exn) : world S :=
  mkWorld b (log w ++ [storage_error e]).

(** The failure of [asyncio.run] inside a running event loop. *)
Definition running_loop_error : exn :=
  RuntimeError "asyncio.run() cannot be called from a running event loop".

(** The text that [set_state] sends as [$s]. *)
Definition stored_state (state : state_arg) : pystr :=
  match state with
  | StateObject (Some s) | StateStr s => s
  | StateObject None | StateNone => []
  end.

(** The mapping that [update_data] merges into, for a value read by
    [get_data]: the empty mapping for a falsy value, the value itself
    for a mapping, and none for any other value. *)
Definition merge_target (current_data : pyval) : option pydict :=
  if negb (py_truthy current_data) then Some []
  else match current_data with
       | PyDict d => Some d
       | _ => None
       end.

(** The store that [__init__] builds from its arguments: an unknown
    serializing method is replaced by ["json"]. *)
Definition constructed (driver_config : option DriverConfig) (pool : option SessionPool)
    (method table : pystr) : YDBStorage :=
  let driver := ydb_Driver <$> driver_config in
  mkYDBStorage driver
    (match pool with Some p => p | None => ydb_SessionPool driver end)
    table
    (if decide (method = lit "pickle") then lit "pickle" else lit "json").


(** The value and the failure of the codec on a stored text. *)
Definition codec_loads `{!Pickle} (self : YDBStorage) (blob : pystr) : outcome pyval :=
  if decide (serializing_method self = lit "pickle") then pickle_loads blob
  else Json.loads blob.

(** What [get_data] makes of a column value: [None] for NULL, for the
    empty text and for a text that the codec rejects, and the decoded
    value otherwise. *)
Definition decoded `{!Pickle} (self : YDBStorage) (column : option pystr) : pyval :=
  match column with
  | Some s =>
      if str_truthy s then
        match codec_loads self s with
        | Return v => v
        | Raise _ => PyNone
        end
      else PyNone
  | None => PyNone
  end.

(** Worlds for the examples: the database after the bootstrap, and the
    same with one row. *)
Definition example_table : pystr := lit "fsm_storage".
Definition example_key : StorageKey := mkStorageKey 42 (-1001) 7.

Definition provisioned (faults : list (option exn)) : world RefDb.db :=
  mkWorld (RefDb.mkDb {[ example_table := ∅ ]} faults []) [].

Definition with_row (state data : option pystr) (faults : list (option exn))
    : world RefDb.db :=
  mkWorld
    (RefDb.mkDb {[ example_table := {[ _key example_key := RefDb.mkRow state data ]} ]}
       faults [])
    [].

(** A payload of text, numbers, flags and nested containers; the floats
    are [9.99], [-0.0], [1e+22] and [5e-324]. *)
Definition example_payload : pyval :=
  PyDict
    [(lit "name", PyStr (lit "Zoe \ /" ++ [10; 233; 8364; 128512]));
     (lit "cart", PyList [PyInt (-3); PyInt 0; PyBool true; PyNone; PyDict []; PyList []]);
     (lit "step", PyDict [(lit "n", PyInt 12345678901234567890)]);
     (lit "total", PyFloat (FFinite false 5623870034678907 (-49)));
     (lit "rates", PyList [PyFloat (FFinite true 0 (-1074));
                           PyFloat (FFinite false 4768371582031250 21);
                           PyFloat (FFinite false 1 (-1074))])].

(** A payload that [json] cannot serialize: a mapping with a foreign
    object (say a [datetime]) as a value. *)
Definition unserializable_data : pyval := PyDict [(lit "seen", PyObject 0)].

(** The reading of "[get_data] returns null in exactly these four
    situations": no row, an empty [data] column, a failure of the
    executor, a failure of the deserialization. *)
Definition get_data_null_in_exactly_four_situations `{!Pickle}
    (self : YDBStorage) (key : StorageKey) (w : world RefDb.db) : Prop :=
  fst (get_data self key w) = Return PyNone <->
  (RefDb.has_row (backend w) (table_name self) (_key key) = false \/
   (RefDb.data_column (backend w) (table_name self) (_key key) = None \/
    RefDb.data_column (backend w) (table_name self) (_key key) = Some []) \/
   (exists e, fst (RefDb.execute (SelectData (table_name self) (_key key))
                    (session_pool self) (backend w)) = Raise e) \/
   (exists blob e,
      RefDb.data_column (backend w) (table_name self) (_key key) = Some blob /\
      codec_loads self blob = Raise e)).

(** The database is working for a store when no fault is pending and
    the table of the store exists. *)
Definition working (self : YDBStorage) (w : world RefDb.db) : Prop :=
  RefDb.faults (backend w) = [] /\ is_Some (RefDb.tables (backend w) !! table_name self).

(** The table that a statement on rows addresses. *)
Definition row_statement_table (stmt : statement) : option pystr :=
  match stmt with
  | CreateTable _ => None
  | UpsertState t _ _ | UpsertData t _ _ | SelectState t _ | SelectData t _ => Some t
  end.

(** The key holds the mapping [cur] in a working database: its [data]
    column is the json text of [cur], or is absent and [cur] is empty. *)
Definition stores (self : YDBStorage) (key : StorageKey) (w : world RefDb.db)
    (cur : pydict) : Prop :=
  exists tb,
    RefDb.faults (backend w) = [] /\
    RefDb.tables (backend w) !! table_name self = Some tb /\
    json_representable (PyDict cur) = true /\
    (tb !! _key key ≫= RefDb.row_data = Some (Json.encode (PyDict cur)) \/
     cur = [] /\ tb !! _key key ≫= RefDb.row_data = None).

(** The world after a statement that went through. *)
Definition after_statement (w : world RefDb.db) (stmt : statement)
    (ts : gmap pystr (gmap pystr RefDb.row)) : world RefDb.db :=
  mkWorld (RefDb.mkDb ts [] (RefDb.journal (backend w) ++ [stmt])) (log w).

(** Devices of the proofs about the codec. *)

(** The text after a number: the end, or a character that continues
    neither the digits nor a fraction nor an exponent. *)
Definition terminator (rest : pystr) : bool :=
  match rest with
  | [] => true
  | c :: _ => negb (Json.is_digit c) && negb (c =? 46) && negb (c =? 101) && negb (c =? 69)
  end.

(** The text after a run of digits. *)
Definition digit_free (rest : pystr) : bool :=
  match rest with
  | [] => true
  | c :: _ => negb (Json.is_digit c)
  end.

(** A bound on the calls that the scanner makes on the text of a value. *)
Fixpoint cost (v : pyval) : nat :=
  match v with
  | PyList l => S (list_sum (map (fun x => S (cost x)) l))
  | PyDict d => S (list_sum (map (fun kv => S (cost (snd kv))) d))
  | _ => 1
  end.

(** The text of one item of a mapping. *)
Definition encode_pair (kv : pystr * pyval) : pystr :=
  Json.encode_str (fst kv) ++ lit ": " ++ Json.encode (snd kv).

(** The first character of a value: no whitespace, not a closing
    bracket. *)
Definition value_head (s : pystr) : bool :=
  match s with
  | c :: _ => negb (Json.is_ws c) && negb (c =? 93)
  | [] => false
  end.


(** * The key deriver *)

Lemma uint_chars_digits d : Forall (fun c => Json.is_digit c = true) (uint_chars d).
Proof. induction d; simpl; constructor; auto. Qed.

Lemma uint_chars_inj d d' : uint_chars d = uint_chars d' -> d = d'.
Proof.
  revert d'. induction d; destruct d'; simpl; intros E; try discriminate;
    try reflexivity; injection E as E; f_equal; auto.
Qed.

Lemma uint_chars_no_minus d r : uint_chars d <> 45 :: r.
Proof.
  intros E. pose proof (uint_chars_digits d) as Hd. rewrite E in Hd.
  inversion Hd as [|? ? H45]. discriminate.
Qed.

Lemma str_int_inj z z' : str_int z = str_int z' -> z = z'.
Proof.
  unfold str_int. intros E.
  rewrite <- (DecimalZ.of_to z), <- (DecimalZ.of_to z').
  destruct (Z.to_int z) as [d|d], (Z.to_int z') as [d'|d'].
  - apply uint_chars_inj in E. congruence.
  - exfalso. exact (uint_chars_no_minus _ _ E).
  - exfalso. symmetry in E. exact (uint_chars_no_minus _ _ E).
  - injection E as E. apply uint_chars_inj in E. congruence.
Qed.

(** No colon in the decimal text of an integer. *)
Lemma str_int_no_colon z : ~ In 58 (str_int z).
Proof.
  assert (Hd : forall d, ~ In 58 (uint_chars d)).
  { intros d Hin. pose proof (uint_chars_digits d) as H.
    rewrite Forall_forall in H. apply list_elem_of_In, H in Hin. discriminate. }
  unfold str_int. destruct (Z.to_int z) as [d|d]; simpl.
  - apply Hd.
  - intros [E|Hin]; [discriminate|]. exact (Hd d Hin).
Qed.

(** A text is cut at its first colon in one way only. *)
Lemma split_at_first_colon (a a' b b' : pystr) :
  ~ In 58 a -> ~ In 58 a' -> a ++ 58 :: b = a' ++ 58 :: b' -> a = a' /\ b = b'.
Proof.
  revert a'. induction a as [|x a IH]; intros [|x' a'] Ha Ha' E; simpl in *.
  - injection E as E. auto.
  - injection E as E1 E2. exfalso. apply Ha'. left. congruence.
  - injection E as E1 E2. exfalso. apply Ha. left. congruence.
  - injection E as E1 E2. subst x'.
    destruct (IH a') as [-> ->]; auto.
Qed.

Lemma _key_inj (k1 k2 : StorageKey) : _key k1 = _key k2 -> k1 = k2.
Proof.
  destruct k1 as [b1 c1 u1], k2 as [b2 c2 u2]. unfold _key. simpl.
  change (lit ":") with [58]. simpl. intros E.
  apply split_at_first_colon in E as [Eb E]; try apply str_int_no_colon.
  apply split_at_first_colon in E as [Ec Eu]; try apply str_int_no_colon.
  apply str_int_inj in Eb, Ec, Eu. congruence.
Qed.

(** C3: the key of a (bot, chat, user) triple is the three identifiers
    in decimal, joined by colons, and two different triples have
    different keys. *)
Theorem key_format_and_injectivity (k1 k2 : StorageKey) :
  _key k1 =
    str_int (bot_id k1) ++ lit ":" ++ str_int (chat_id k1) ++ lit ":" ++ str_int (user_id k1) /\
  (k1 <> k2 -> _key k1 <> _key k2).
Proof.
  split; [reflexivity|].
  intros Hne E. apply Hne, _key_inj, E.
Qed.

Lemma key_format_and_injectivity_witness :
  _key (mkStorageKey 1 23 (-4)) = lit "1:23:-4" /\
  _key (mkStorageKey 1 23 (-4)) <> _key (mkStorageKey 12 3 (-4)).
Proof.
  destruct (key_format_and_injectivity (mkStorageKey 1 23 (-4)) (mkStorageKey 12 3 (-4)))
    as [Hf Hi].
  split.
  - rewrite Hf. reflexivity.
  - apply Hi. discriminate.
Defined.

(** * The json codec: decoding inverts encoding *)

Module JsonFacts.

Import Json.

Ltac div_lia := zify; Z.to_euclidean_division_equations; lia.

(** ** Strings *)

Lemma unhex_hexdigit d : d < 16 -> unhex (hexdigit d) = Some d.
Proof.
  intros H. unfold hexdigit, unhex.
  destruct (d <? 10) eqn:E.
  - apply N.ltb_lt in E.
    replace ((48 <=? 48 + d) && (48 + d <=? 57)) with true.
    + f_equal. lia.
    + symmetry. apply andb_true_iff. split; apply N.leb_le; lia.
  - apply N.ltb_ge in E.
    replace ((48 <=? 87 + d) && (87 + d <=? 57)) with false.
    + replace ((97 <=? 87 + d) && (87 + d <=? 102)) with true.
      * f_equal. lia.
      * symmetry. apply andb_true_iff. split; apply N.leb_le; lia.
    + symmetry. apply andb_false_iff. right. apply N.leb_gt. lia.
Qed.


Lemma unhex4_hex4 n :
  n < 65536 ->
  unhex4 (hexdigit (n / 4096)) (hexdigit ((n / 256) mod 16))
         (hexdigit ((n / 16) mod 16)) (hexdigit (n mod 16)) = Some n.
Proof.
  intros H. unfold unhex4.
  rewrite !unhex_hexdigit by div_lia. simpl.
  f_equal. div_lia.
Qed.

Lemma lor_shiftl_low h l k : l < 2 ^ k -> N.lor (N.shiftl h k) l = h * 2 ^ k + l.
Proof.
  intros Hl.
  assert (Hland : N.land (N.shiftl h k) l = 0).
  { apply N.bits_inj. intros i. rewrite N.land_spec, N.bits_0.
    destruct (N.lt_ge_cases i k) as [Hi|Hi].
    - rewrite N.shiftl_spec_low by exact Hi. reflexivity.
    - replace (N.testbit l i) with false; [apply andb_false_r|].
      symmetry. destruct (N.eq_dec l 0) as [->|Hz]; [apply N.bits_0|].
      apply N.bits_above_log2.
      apply N.lt_le_trans with k; [|exact Hi].
      apply N.log2_lt_pow2; lia. }
  rewrite <- N.lxor_lor by exact Hland.
  rewrite <- N.add_nocarry_lxor by exact Hland.
  rewrite N.shiftl_mul_pow2. reflexivity.
Qed.

Lemma scanstring_u_single h1 h2 h3 h4 r2 uni :
  unhex4 h1 h2 h3 h4 = Some uni -> is_high_surrogate uni = false ->
  scanstring (92 :: 117 :: h1 :: h2 :: h3 :: h4 :: r2) =
    '(str, rest) ← scanstring r2; Some (uni :: str, rest).
Proof.
  intros H1 H2. cbn [scanstring N.eqb Pos.eqb]. rewrite H1, H2. reflexivity.
Qed.

Lemma scanstring_u_pair h1 h2 h3 h4 g1 g2 g3 g4 r5 s1 s2 :
  unhex4 h1 h2 h3 h4 = Some s1 -> is_high_surrogate s1 = true ->
  unhex4 g1 g2 g3 g4 = Some s2 -> is_low_surrogate s2 = true ->
  scanstring (92 :: 117 :: h1 :: h2 :: h3 :: h4 :: 92 :: 117 :: g1 :: g2 :: g3 :: g4 :: r5) =
    '(str, rest) ← scanstring r5;
    Some (65536 + N.lor (N.shiftl (s1 - 55296) 10) (s2 - 56320) :: str, rest).
Proof.
  intros H1 H2 H3 H4. cbn [scanstring N.eqb Pos.eqb]. rewrite H1, H2, H3, H4. reflexivity.
Qed.

Lemma scanstring_plain c r :
  (c =? 34) = false -> (c =? 92) = false -> (c <? 32) = false ->
  scanstring (c :: r) = '(str, rest) ← scanstring r; Some (c :: str, rest).
Proof. intros H1 H2 H3. cbn [scanstring]. rewrite H1, H2, H3. reflexivity. Qed.

Lemma surrogates_of n :
  n < 1048576 ->
  N.lor 55296 (N.land (N.shiftr n 10) 1023) = 55296 + n / 1024 /\
  N.lor 56320 (N.land n 1023) = 56320 + n mod 1024.
Proof.
  intros H.
  change 1023 with (N.ones 10). rewrite !N.land_ones, N.shiftr_div_pow2.
  change (2 ^ 10) with 1024.
  assert (Hq : (n / 1024) mod 1024 < 2 ^ 10) by (change (2 ^ 10) with 1024; div_lia).
  assert (Hr : n mod 1024 < 2 ^ 10) by (change (2 ^ 10) with 1024; div_lia).
  pose proof (lor_shiftl_low 54 _ 10 Hq) as E1.
  pose proof (lor_shiftl_low 55 _ 10 Hr) as E2.
  change (N.shiftl 54 10) with 55296 in E1. change (54 * 2 ^ 10) with 55296 in E1.
  change (N.shiftl 55 10) with 56320 in E2. change (55 * 2 ^ 10) with 56320 in E2.
  rewrite E1, E2. split; [|reflexivity]. f_equal. div_lia.
Qed.

Lemma scanstring_escape c rest :
  scalar_value c = true ->
  scanstring (escape_char c ++ rest) = '(str, r) ← scanstring rest; Some (c :: str, r).
Proof.
  unfold scalar_value, escape_char. intros Hc.
  apply andb_true_iff in Hc as [Hmax Hsur]. apply N.ltb_lt in Hmax.
  apply negb_true_iff, andb_false_iff in Hsur.
  destruct (c =? 34) eqn:E34; [apply N.eqb_eq in E34; subst; reflexivity|].
  destruct (c =? 92) eqn:E92; [apply N.eqb_eq in E92; subst; reflexivity|].
  destruct (c =? 10) eqn:E10; [apply N.eqb_eq in E10; subst; reflexivity|].
  destruct (c =? 13) eqn:E13; [apply N.eqb_eq in E13; subst; reflexivity|].
  destruct (c =? 9) eqn:E9; [apply N.eqb_eq in E9; subst; reflexivity|].
  destruct (c =? 8) eqn:E8; [apply N.eqb_eq in E8; subst; reflexivity|].
  destruct (c =? 12) eqn:E12; [apply N.eqb_eq in E12; subst; reflexivity|].
  destruct ((32 <=? c) && (c <=? 126)) eqn:Ep.
  { apply andb_true_iff in Ep as [Hlo _]. apply N.leb_le in Hlo.
    apply scanstring_plain; auto. apply N.ltb_ge. exact Hlo. }
  destruct (c <? 65536) eqn:Eb.
  { apply N.ltb_lt in Eb. unfold hex4. cbn [app].
    apply scanstring_u_single.
    - apply unhex4_hex4. exact Eb.
    - unfold is_high_surrogate. apply andb_false_iff.
      destruct Hsur as [H|H]; [left; exact H|].
      right. apply N.leb_gt. apply N.leb_gt in H. lia. }
  apply N.ltb_ge in Eb.
  destruct (surrogates_of (c - 65536)) as [E1 E2]; [lia|].
  cbv zeta. rewrite E1, E2. unfold hex4. cbn [app].
  assert (Hq : (c - 65536) / 1024 < 1024) by div_lia.
  assert (Hr : (c - 65536) mod 1024 < 1024) by div_lia.
  rewrite (scanstring_u_pair _ _ _ _ _ _ _ _ _ (55296 + (c - 65536) / 1024)
             (56320 + (c - 65536) mod 1024)).
  - replace (65536 + N.lor (N.shiftl (55296 + (c - 65536) / 1024 - 55296) 10)
                       (56320 + (c - 65536) mod 1024 - 56320)) with c; [reflexivity|].
    replace (55296 + (c - 65536) / 1024 - 55296) with ((c - 65536) / 1024) by div_lia.
    replace (56320 + (c - 65536) mod 1024 - 56320) with ((c - 65536) mod 1024) by div_lia.
    rewrite lor_shiftl_low by exact Hr. change (2 ^ 10) with 1024. div_lia.
  - apply unhex4_hex4. div_lia.
  - unfold is_high_surrogate. apply andb_true_iff. split; apply N.leb_le; div_lia.
  - apply unhex4_hex4. div_lia.
  - unfold is_low_surrogate. apply andb_true_iff. split; apply N.leb_le; div_lia.
Qed.

Lemma scanstring_encode s rest :
  forallb scalar_value s = true ->
  scanstring (flat_map escape_char s ++ 34 :: rest) = Some (s, rest).
Proof.
  induction s as [|c s IH]; intros Hs.
  - reflexivity.
  - simpl in Hs. apply andb_true_iff in Hs as [Hc Hs].
    cbn [flat_map]. rewrite <- app_assoc, scanstring_escape by exact Hc.
    rewrite IH by exact Hs. reflexivity.
Qed.

(** ** Numbers *)


Lemma chars_uint_uint_chars d : chars_uint (uint_chars d) = d.
Proof.
  unfold chars_uint. induction d; simpl; try reflexivity; rewrite IHd; reflexivity.
Qed.

Lemma span_digits_uint_chars d rest :
  terminator rest = true -> span_digits (uint_chars d ++ rest) = (uint_chars d, rest).
Proof.
  intros Hr. induction d; simpl; try (rewrite IHd; reflexivity).
  destruct rest as [|c rest]; [reflexivity|].
  simpl in *. destruct (is_digit c); [discriminate|reflexivity].
Qed.

Lemma to_uint_no_leading_zero p d : Pos.to_uint p <> Decimal.D0 d.
Proof.
  intros E.
  pose proof (DecimalPos.Unsigned.to_of (Pos.to_uint p)) as H.
  rewrite DecimalPos.Unsigned.of_to in H. simpl in H. rewrite E in H.
  unfold Decimal.unorm in H. simpl in H.
  destruct (Decimal.nzhead d) eqn:En; try discriminate.
  - injection H as ->. exact (DecimalPos.Unsigned.to_uint_nonzero p E).
  - exact (DecimalFacts.nzhead_nonzero _ _ En).
Qed.

(** The decimal text of a positive number: a digit other than 0, then
    digits. *)
Lemma to_uint_chars p :
  exists c d, uint_chars (Pos.to_uint p) = c :: uint_chars d /\
              is_digit c = true /\ (c =? 48) = false.
Proof.
  pose proof (to_uint_no_leading_zero p) as Hz.
  pose proof (DecimalPos.Unsigned.to_uint_nonnil p) as Hn.
  destruct (Pos.to_uint p) as [|d|d|d|d|d|d|d|d|d|d]; simpl;
    try (eexists _, d; repeat split; reflexivity).
  - congruence.
  - exfalso. exact (Hz d eq_refl).
Qed.

Lemma match_nonzero_digits sign c d rest :
  is_digit c = true -> (c =? 48) = false -> terminator rest = true ->
  (let '(ds, r'') := span_digits (uint_chars d ++ rest) in Some (sign ++ c :: ds, r''))
  = Some (sign ++ c :: uint_chars d, rest).
Proof. intros _ _ Hr. rewrite span_digits_uint_chars by exact Hr. reflexivity. Qed.

Lemma match_integer_str_int z rest :
  terminator rest = true -> match_integer (str_int z ++ rest) = Some (str_int z, rest).
Proof.
  intros Hr. unfold str_int. destruct z as [|p|p]; simpl Z.to_int; cbv iota.
  - reflexivity.
  - destruct (to_uint_chars p) as (c & d & -> & Hd & H0).
    unfold match_integer. cbn [app].
    assert (H45 : (c =? 45) = false).
    { unfold is_digit in Hd. apply andb_true_iff in Hd as [Hd _].
      apply N.leb_le in Hd. apply N.eqb_neq. lia. }
    rewrite H45, H0, Hd. apply (match_nonzero_digits []); assumption.
  - destruct (to_uint_chars p) as (c & d & -> & Hd & H0).
    unfold match_integer. cbn [app N.eqb Pos.eqb].
    rewrite H0, Hd. apply (match_nonzero_digits [45]); assumption.
Qed.

Lemma int_of_text_str_int z : int_of_text (str_int z) = z.
Proof.
  rewrite <- (DecimalZ.of_to z) at 2. unfold str_int, int_of_text.
  destruct z as [|p|p]; simpl Z.to_int; cbv iota.
  - reflexivity.
  - destruct (to_uint_chars p) as (c & d & E & Hd & H0).
    assert (H45 : (c =? 45) = false).
    { unfold is_digit in Hd. apply andb_true_iff in Hd as [Hd _].
      apply N.leb_le in Hd. apply N.eqb_neq. lia. }
    rewrite E, H45, <- E, chars_uint_uint_chars. reflexivity.
  - cbn [N.eqb Pos.eqb]. rewrite chars_uint_uint_chars. reflexivity.
Qed.

Lemma terminator_no_frac_exp rest :
  terminator rest = true -> match_frac rest = None /\ match_exp rest = None.
Proof.
  destruct rest as [|c rest]; [split; reflexivity|]. simpl.
  intros H. apply andb_true_iff in H as [H H69]. apply andb_true_iff in H as [H H101].
  apply andb_true_iff in H as [_ H46].
  apply negb_true_iff in H46, H101, H69. rewrite H46, H101, H69. split; reflexivity.
Qed.

Lemma match_number_str_int z rest :
  terminator rest = true -> match_number (str_int z ++ rest) = Some (PyInt z, rest).
Proof.
  intros Hr. unfold match_number, match_literal.
  rewrite match_integer_str_int by exact Hr.
  destruct (terminator_no_frac_exp rest Hr) as [-> ->]. simpl.
  rewrite int_of_text_str_int. reflexivity.
Qed.

(** The first character of the decimal text: a digit or the minus
    sign. *)
Lemma str_int_head z :
  exists c s, str_int z = c :: s /\ (is_digit c = true \/ c = 45).
Proof.
  unfold str_int. destruct z as [|p|p]; simpl Z.to_int; cbv iota.
  - exists 48, []. split; [reflexivity|left; reflexivity].
  - destruct (to_uint_chars p) as (c & d & -> & Hd & H0). eauto.
  - eexists 45, _. split; [reflexivity|right; reflexivity].
Qed.

Lemma scan_atom_str_int z rest :
  terminator rest = true -> scan_atom (str_int z ++ rest) = Some (PyInt z, rest).
Proof.
  intros Hr. unfold scan_atom.
  destruct (str_int_head z) as (c & s & E & Hc).
  assert (Hp : forall p q, (p =? c) = false -> strip_prefix (p :: q) (str_int z ++ rest) = None).
  { intros p q Hpc. rewrite E. simpl. rewrite Hpc. reflexivity. }
  assert (Hne : forall p, (p <? 48) = false -> (57 <? p) = true -> (p =? c) = false).
  { intros p H1 H2. apply N.eqb_neq. apply N.ltb_ge in H1. apply N.ltb_lt in H2.
    destruct Hc as [Hd| ->]; [|lia].
    unfold is_digit in Hd. apply andb_true_iff in Hd as [Hlo Hhi].
    apply N.leb_le in Hlo, Hhi. lia. }
  change (lit "null") with (110 :: lit "ull").
  change (lit "true") with (116 :: lit "rue").
  change (lit "false") with (102 :: lit "alse").
  rewrite !Hp by (apply Hne; reflexivity).
  rewrite match_number_str_int by exact Hr. reflexivity.
Qed.

(** ** Floats *)

(** *** Rounding a number that is a double *)

Section Rounding.

Local Open Scope Z_scope.

Lemma float_eqb_eq x y : Float.eqb x y = true -> x = y.
Proof.
  destruct x as [|a|a m e], y as [|b|b m' e']; simpl; try discriminate; try reflexivity.
  - intros H. apply Bool.eqb_prop in H. congruence.
  - rewrite !andb_true_iff. intros [[Ha Hm] He].
    apply Bool.eqb_prop in Ha. apply Z.eqb_eq in Hm, He. congruence.
Qed.

Lemma float_ok_finite negative m e :
  Float.ok (FFinite negative m e) = true ->
  0 <= m < 2 ^ 53 /\ -1074 <= e <= 971 /\ (2 ^ 52 <= m \/ e = -1074).
Proof.
  unfold Float.ok. rewrite !andb_true_iff, orb_true_iff.
  rewrite !Z.leb_le, Z.ltb_lt, Z.eqb_eq. tauto.
Qed.

(** One binary place less in the divisor doubles the quotient. *)
Lemma scaled_pred p q e m :
  (let '(n, d) := Float.scaled p q e in n = m * d) ->
  let '(n, d) := Float.scaled p q (e - 1) in n = 2 * m * d.
Proof.
  unfold Float.scaled.
  destruct (0 <=? e) eqn:E; [apply Z.leb_le in E|apply Z.leb_gt in E].
  - destruct (0 <=? e - 1) eqn:E1; [apply Z.leb_le in E1|apply Z.leb_gt in E1].
    + replace e with (Z.succ (e - 1)) at 1 by lia.
      rewrite Z.pow_succ_r by lia. intros ->. ring.
    + assert (e = 0) as -> by lia. simpl. intros ->. lia.
  - replace (0 <=? e - 1) with false by (symmetry; apply Z.leb_gt; lia).
    replace (- (e - 1)) with (Z.succ (- e)) by lia.
    rewrite Z.pow_succ_r by lia. intros H.
    replace (p * (2 * 2 ^ (- e))) with (2 * (p * 2 ^ (- e))) by ring. rewrite H. ring.
Qed.

Lemma scaled_divisor p q e : 0 < q -> 0 < snd (Float.scaled p q e).
Proof.
  intros Hq. unfold Float.scaled. destruct (0 <=? e) eqn:E; simpl; [|exact Hq].
  apply Z.leb_le in E. apply Z.mul_pos_pos; [exact Hq|]. apply Z.pow_pos_nonneg; lia.
Qed.

(** The binary logarithms of [p] and [q] place [p / q = m * 2^e]. *)
Lemma log2_ratio p q m e :
  0 < m -> 0 < q ->
  (let '(n, d) := Float.scaled p q e in n = m * d) ->
  0 < p /\
  Z.log2 m + e <= Z.log2 p - Z.log2 q <= Z.log2 m + e + 1.
Proof.
  intros Hm Hq. unfold Float.scaled.
  pose proof (Z.log2_mul_below m q Hm Hq) as Hlo.
  pose proof (Z.log2_mul_above m q ltac:(lia) ltac:(lia)) as Hhi.
  destruct (0 <=? e) eqn:E; [apply Z.leb_le in E|apply Z.leb_gt in E].
  - intros ->.
    assert (Hpow : 0 < 2 ^ e) by (apply Z.pow_pos_nonneg; lia).
    split; [nia|].
    replace (m * (q * 2 ^ e)) with (m * q * 2 ^ e) by ring.
    rewrite Z.log2_mul_pow2 by nia. lia.
  - intros H.
    assert (Hpow : 0 < 2 ^ (- e)) by (apply Z.pow_pos_nonneg; lia).
    assert (Hp : 0 < p) by nia.
    split; [exact Hp|].
    pose proof (Z.log2_mul_pow2 p (- e) Hp ltac:(lia)) as Hl. rewrite H in Hl. lia.
Qed.

Lemma round_ratio_exact negative m e p q :
  0 < m -> 0 < q -> Float.ok (FFinite negative m e) = true ->
  (let '(n, d) := Float.scaled p q e in n = m * d) ->
  Float.round_ratio negative p q = FFinite negative m e.
Proof.
  intros Hm Hq Hok Hx.
  apply float_ok_finite in Hok as (Hm53 & He & Hnorm).
  destruct (log2_ratio p q m e Hm Hq Hx) as [Hp Hlog].
  assert (HL : (2 ^ 52 <= m /\ Z.log2 m = 52) \/ (e = -1074 /\ Z.log2 m <= 51)).
  { destruct (Z.le_gt_cases (2 ^ 52) m) as [Hn|Hs].
    - left. split; [exact Hn|]. apply Z.log2_unique; [lia|].
      split; [exact Hn|]. change (Z.succ 52) with 53. lia.
    - right. split; [lia|]. apply Z.log2_lt_pow2 in Hs; lia. }
  (* the result at the right exponent *)
  assert (Hfinal :
    (let '(n, d) := Float.scaled p q e in
     let m0 := n / d in
     let r := n mod d in
     let m1 :=
       if 2 * r <? d then m0
       else if d <? 2 * r then m0 + 1
       else if Z.even m0 then m0 else m0 + 1 in
     let '(m2, e2) := if m1 =? 2 ^ 53 then (2 ^ 52, e + 1) else (m1, e) in
     if 971 <? e2 then FInf negative else FFinite negative m2 e2)
    = FFinite negative m e).
  { pose proof (scaled_divisor p q e Hq) as Hd.
    destruct (Float.scaled p q e) as [n d]. simpl in Hd. subst n.
    cbv zeta. rewrite Z.div_mul, Z.mod_mul by lia.
    replace (2 * 0 <? d) with true by (symmetry; apply Z.ltb_lt; lia).
    replace (m =? 2 ^ 53) with false by (symmetry; apply Z.eqb_neq; lia).
    replace (971 <? e) with false by (symmetry; apply Z.ltb_ge; lia).
    reflexivity. }
  unfold Float.round_ratio.
  replace (p =? 0) with false by (symmetry; apply Z.eqb_neq; lia).
  cbv zeta.
  set (ea := Z.max (Z.log2 p - Z.log2 q - 53) (-1074)).
  assert (Hea : ea = e \/ (ea = e - 1 /\ 2 ^ 52 <= m)) by (unfold ea; lia).
  destruct Hea as [->|[-> Hn]].
  - pose proof (scaled_divisor p q e Hq) as Hd.
    destruct (Float.scaled p q e) as [n d] eqn:Es. simpl in Hd.
    assert (Hquot : n / d = m) by (subst n; apply Z.div_mul; lia).
    rewrite Hquot.
    replace (m <? 2 ^ 53) with true by (symmetry; apply Z.ltb_lt; lia).
    rewrite Es. exact Hfinal.
  - pose proof (scaled_pred p q e m Hx) as Hx1.
    pose proof (scaled_divisor p q (e - 1) Hq) as Hd.
    destruct (Float.scaled p q (e - 1)) as [n d] eqn:Es. simpl in Hd.
    assert (Hquot : n / d = 2 * m) by (subst n; apply Z.div_mul; lia).
    rewrite Hquot.
    replace (2 * m <? 2 ^ 53) with false
      by (symmetry; apply Z.ltb_ge; change (2 ^ 53) with (2 * 2 ^ 52); lia).
    replace (e - 1 + 1) with e by lia.
    exact Hfinal.
Qed.

(** The exact decimal expansion of a double rounds to it. *)
Lemma of_decimal_exact negative m e :
  Float.ok (FFinite negative m e) = true ->
  Float.of_decimal negative
    (if 0 <=? e then m * 2 ^ e else m * 5 ^ (- e)) (if 0 <=? e then 0 else e)
  = FFinite negative m e.
Proof.
  intros Hok. pose proof (float_ok_finite _ _ _ Hok) as (Hm & He & Hnorm).
  destruct (Z.eq_dec m 0) as [->|Hm0].
  { assert (e = -1074) as -> by (change (2 ^ 52) with 4503599627370496 in Hnorm; lia).
    reflexivity. }
  unfold Float.of_decimal.
  destruct (0 <=? e) eqn:E; [apply Z.leb_le in E|apply Z.leb_gt in E].
  - change (0 <=? 0) with true. cbv iota.
    apply round_ratio_exact; [lia|lia|exact Hok|].
    unfold Float.scaled. replace (0 <=? e) with true by (symmetry; apply Z.leb_le; lia).
    rewrite Z.pow_0_r. ring.
  - replace (0 <=? e) with false by (symmetry; apply Z.leb_gt; lia).
    apply round_ratio_exact; [lia| |exact Hok|].
    + apply Z.pow_pos_nonneg; lia.
    + unfold Float.scaled. replace (0 <=? e) with false by (symmetry; apply Z.leb_gt; lia).
      change 10 with (5 * 2). rewrite Z.pow_mul_l. ring.
Qed.

End Rounding.


(** *** Number literals *)

Lemma terminator_digit_free rest : terminator rest = true -> digit_free rest = true.
Proof.
  destruct rest as [|c rest]; [reflexivity|]. simpl.
  rewrite !andb_true_iff. tauto.
Qed.

Lemma span_digits_app s rest ds r :
  span_digits s = (ds, r) -> digit_free rest = true ->
  span_digits (s ++ rest) = (ds, r ++ rest).
Proof.
  intros H Hr. revert ds r H. induction s as [|c s IH]; intros ds r H.
  - injection H as <- <-. destruct rest as [|c rest]; [reflexivity|].
    simpl in *. apply negb_true_iff in Hr. rewrite Hr. reflexivity.
  - cbn [app span_digits] in *. destruct (is_digit c).
    + destruct (span_digits s) as [ds' r'] eqn:Es. injection H as <- <-.
      rewrite (IH _ _ eq_refl). reflexivity.
    + injection H as <- <-. reflexivity.
Qed.

Lemma span_digits_spec s ds r :
  span_digits s = (ds, r) -> s = ds ++ r /\ Forall (fun c => is_digit c = true) ds.
Proof.
  revert ds r. induction s as [|c s IH]; intros ds r H.
  - injection H as <- <-. split; [reflexivity|constructor].
  - cbn [span_digits] in H. destruct (is_digit c) eqn:Ec.
    + destruct (span_digits s) as [ds' r'] eqn:Es. injection H as <- <-.
      destruct (IH _ _ eq_refl) as [-> Hd]. split; [reflexivity|]. constructor; assumption.
    + injection H as <- <-. split; [reflexivity|constructor].
Qed.

Lemma span_digits_all d : span_digits (uint_chars d) = (uint_chars d, []).
Proof. induction d; simpl; try rewrite IHd; reflexivity. Qed.

Lemma match_integer_app s rest i r :
  match_integer s = Some (i, r) -> digit_free rest = true ->
  match_integer (s ++ rest) = Some (i, r ++ rest).
Proof.
  unfold match_integer. intros H Hr.
  destruct s as [|c s]; [discriminate|]. cbn [app].
  destruct (c =? 45).
  - destruct s as [|c' s']; [discriminate|]. cbn [app].
    destruct (c' =? 48); [injection H as <- <-; reflexivity|].
    destruct (is_digit c'); [|discriminate].
    destruct (span_digits s') as [ds r''] eqn:Es. injection H as <- <-.
    rewrite (span_digits_app _ rest _ _ Es Hr). reflexivity.
  - destruct (c =? 48); [injection H as <- <-; reflexivity|].
    destruct (is_digit c); [|discriminate].
    destruct (span_digits s) as [ds r''] eqn:Es. injection H as <- <-.
    rewrite (span_digits_app _ rest _ _ Es Hr). reflexivity.
Qed.

Lemma match_integer_spec s i r :
  match_integer s = Some (i, r) ->
  s = i ++ r /\ Forall (fun c => c = 45 \/ is_digit c = true) i /\ i <> [].
Proof.
  unfold match_integer. intros H.
  assert (Hspan : forall sign c r0,
            Forall (fun c => c = 45 \/ is_digit c = true) sign ->
            (if c =? 48 then Some (sign ++ [48], r0)
             else if is_digit c then
               let '(ds, r'') := span_digits r0 in Some (sign ++ c :: ds, r'')
             else None) = Some (i, r) ->
            sign ++ c :: r0 = i ++ r /\ Forall (fun c => c = 45 \/ is_digit c = true) i
            /\ i <> []).
  { intros sign c r0 Hs Hc. destruct (c =? 48) eqn:E48.
    - apply N.eqb_eq in E48. subst c. injection Hc as <- <-.
      rewrite <- app_assoc. split; [reflexivity|]. split.
      + apply Forall_app. split; [exact Hs|]. constructor; [right; reflexivity|constructor].
      + destruct sign; discriminate.
    - destruct (is_digit c) eqn:Ed; [|discriminate].
      destruct (span_digits r0) as [ds r''] eqn:Es. injection Hc as <- <-.
      destruct (span_digits_spec _ _ _ Es) as [-> Hd]. rewrite <- app_assoc.
      split; [reflexivity|]. split.
      + apply Forall_app. split; [exact Hs|]. constructor; [right; exact Ed|].
        eapply Forall_impl; [exact Hd|]. intros x Hx. right. exact Hx.
      + destruct sign; discriminate. }
  destruct s as [|c s]; [discriminate|].
  destruct (c =? 45) eqn:E45.
  - apply N.eqb_eq in E45. subst c. destruct s as [|c' s']; [discriminate|].
    apply (Hspan [45] c' s'); [|exact H]. constructor; [left; reflexivity|constructor].
  - apply (Hspan [] c s); [constructor|exact H].
Qed.

Lemma match_frac_app s rest f r :
  match_frac s = Some (f, r) -> digit_free rest = true ->
  match_frac (s ++ rest) = Some (f, r ++ rest).
Proof.
  unfold match_frac. intros H Hr. destruct s as [|c s]; [discriminate|]. cbn [app].
  destruct (c =? 46); [|discriminate].
  destruct (span_digits s) as [ds r'] eqn:Es.
  rewrite (span_digits_app _ rest _ _ Es Hr).
  destruct ds; [discriminate|]. injection H as <- <-. reflexivity.
Qed.

Lemma match_frac_none_app s rest :
  match_frac s = None -> terminator rest = true -> match_frac (s ++ rest) = None.
Proof.
  unfold match_frac. intros H Hr. destruct s as [|c s].
  - destruct rest as [|c rest]; [reflexivity|]. simpl in *.
    rewrite !andb_true_iff in Hr. destruct Hr as [[[_ H46] _] _].
    apply negb_true_iff in H46. rewrite H46. reflexivity.
  - cbn [app]. destruct (c =? 46); [|reflexivity].
    destruct (span_digits s) as [ds r'] eqn:Es.
    rewrite (span_digits_app _ rest _ _ Es (terminator_digit_free _ Hr)).
    destruct ds; [reflexivity|discriminate].
Qed.

Lemma match_frac_cons s f r : match_frac s = Some (f, r) -> f <> [].
Proof.
  unfold match_frac. destruct s as [|c s]; [discriminate|].
  destruct (c =? 46); [|discriminate].
  destruct (span_digits s) as [[|d ds] r']; [discriminate|]. intros [= <- <-]. discriminate.
Qed.

Lemma match_exp_app s rest x r :
  match_exp s = Some (x, r) -> digit_free rest = true ->
  match_exp (s ++ rest) = Some (x, r ++ rest).
Proof.
  unfold match_exp. intros H Hr. destruct s as [|c s]; [discriminate|]. cbn [app].
  destruct ((c =? 101) || (c =? 69)); [|discriminate].
  destruct s as [|g s']; [discriminate|]. cbn [app].
  destruct ((g =? 45) || (g =? 43)).
  - destruct (span_digits s') as [ds r'] eqn:Es.
    rewrite (span_digits_app _ rest _ _ Es Hr).
    destruct ds; [discriminate|]. injection H as <- <-. reflexivity.
  - destruct (span_digits (g :: s')) as [ds r'] eqn:Es.
    change (g :: s' ++ rest) with ((g :: s') ++ rest).
    rewrite (span_digits_app _ rest _ _ Es Hr).
    destruct ds; [discriminate|]. injection H as <- <-. reflexivity.
Qed.

Lemma match_exp_cons s x r : match_exp s = Some (x, r) -> x <> [].
Proof.
  unfold match_exp. destruct s as [|c s]; [discriminate|].
  destruct ((c =? 101) || (c =? 69)); [|discriminate].
  destruct (match s with
            | g :: r1 => if (g =? 45) || (g =? 43) then ([g], r1) else ([], s)
            | [] => ([], s)
            end) as [sign r1].
  destruct (span_digits r1) as [[|d ds] r']; [discriminate|]. intros [= <- <-]. discriminate.
Qed.

Lemma match_exp_terminator rest : terminator rest = true -> match_exp rest = None.
Proof.
  destruct rest as [|c rest]; [reflexivity|]. simpl.
  rewrite !andb_true_iff. intros [[_ H101] H69].
  apply negb_true_iff in H101, H69. rewrite H101, H69. reflexivity.
Qed.

(** A literal that ends its text is read the same before a terminator. *)
Lemma match_literal_app t rest g :
  match_literal t = Some (g, []) -> terminator rest = true ->
  match_literal (t ++ rest) = Some (g, rest).
Proof.
  unfold match_literal. intros H Ht.
  pose proof (terminator_digit_free _ Ht) as Hd.
  destruct (match_integer t) as [[i r]|] eqn:Ei; [|discriminate].
  rewrite (match_integer_app _ rest _ _ Ei Hd).
  destruct (match_frac r) as [[f r1]|] eqn:Ef.
  - rewrite (match_frac_app _ rest _ _ Ef Hd).
    destruct (match_exp r1) as [[x r2]|] eqn:Ex.
    + rewrite (match_exp_app _ rest _ _ Ex Hd). injection H as <- ->. reflexivity.
    + injection H as <- ->. cbn [app]. rewrite (match_exp_terminator _ Ht). reflexivity.
  - rewrite (match_frac_none_app _ rest Ef Ht).
    destruct (match_exp r) as [[x r2]|] eqn:Ex.
    + rewrite (match_exp_app _ rest _ _ Ex Hd). injection H as <- ->. reflexivity.
    + injection H as <- ->. cbn [app]. rewrite (match_exp_terminator _ Ht). reflexivity.
Qed.

(** A literal without fraction and exponent is a sign and digits. *)
Lemma match_literal_integer t i :
  match_literal t = Some ((i, [], []), []) ->
  Forall (fun c => c = 45 \/ is_digit c = true) t.
Proof.
  unfold match_literal. intros H.
  destruct (match_integer t) as [[i' r]|] eqn:Ei; [|discriminate].
  destruct (match_integer_spec _ _ _ Ei) as (-> & Hi & _).
  destruct (match_frac r) as [[f r1]|] eqn:Ef.
  { apply match_frac_cons in Ef. destruct (match_exp r1) as [[x r2]|]; congruence. }
  destruct (match_exp r) as [[x r2]|] eqn:Ex.
  { apply match_exp_cons in Ex. congruence. }
  injection H as -> ->. rewrite app_nil_r. exact Hi.
Qed.

Lemma match_literal_head t g r :
  match_literal t = Some (g, r) ->
  exists c s, t = c :: s /\ (is_digit c = true \/ c = 45).
Proof.
  unfold match_literal. intros H.
  destruct (match_integer t) as [[i r0]|] eqn:Ei; [|discriminate].
  destruct (match_integer_spec _ _ _ Ei) as (-> & Hi & Hn).
  destruct i as [|c i]; [congruence|]. exists c, (i ++ r0). split; [reflexivity|].
  inversion Hi as [|? ? Hc]. tauto.
Qed.

(** *** [repr] is read back *)

Lemma format_repr_mark c k : In 46 (Float.format_repr c k) \/ In 101 (Float.format_repr c k).
Proof.
  unfold Float.format_repr. cbv zeta.
  destruct ((-4 <? _)%Z && _).
  - left. destruct (_ <=? 0)%Z; [|destruct (_ <=? _)%Z].
    + change (lit "0.") with [48; 46]. simpl. auto.
    + rewrite !in_app_iff. right. right. change (lit ".0") with [46; 48]. simpl. auto.
    + rewrite !in_app_iff. right. left. simpl. auto.
  - right. rewrite !in_app_iff. right. right. left. simpl. auto.
Qed.

Lemma repr_candidates_mark negative m e t :
  In t (Float.repr_candidates negative m e) -> In 46 t \/ In 101 t.
Proof.
  unfold Float.repr_candidates. destruct (m =? 0)%Z.
  - intros [<-|[]]. left. rewrite in_app_iff. right.
    change (lit "0.0") with [48; 46; 48]. simpl. auto.
  - destruct (Float.ratio m e) as [p q]. cbv zeta. intros H.
    apply in_flat_map in H as (n & _ & H). apply in_map_iff in H as ([c k] & <- & _).
    destruct (Float.strip_zeros 20 _ _) as [c' k'].
    rewrite !in_app_iff. destruct (format_repr_mark c' k'); auto.
Qed.

Lemma str_int_neg p : str_int (Z.neg p) = 45 :: str_int (Z.pos p).
Proof. reflexivity. Qed.

(** The integer group of a signed decimal. *)
Lemma match_integer_signed negative d rest :
  (0 <= d)%Z -> digit_free rest = true ->
  match_integer (Float.sign_chars negative ++ str_int d ++ rest)
  = Some (Float.sign_chars negative ++ str_int d, rest).
Proof.
  intros Hd Hr.
  assert (H : match_integer (Float.sign_chars negative ++ str_int d)
              = Some (Float.sign_chars negative ++ str_int d, [])).
  { destruct negative; cbn [Float.sign_chars].
    - destruct d as [|p|p]; [reflexivity| |lia].
      change ([45] ++ str_int (Z.pos p)) with (45 :: str_int (Z.pos p)).
      rewrite <- str_int_neg.
      rewrite <- (app_nil_r (str_int (Z.neg p))) at 1.
      apply match_integer_str_int. reflexivity.
    - cbn [app]. rewrite <- (app_nil_r (str_int d)) at 1.
      apply match_integer_str_int. reflexivity. }
  rewrite app_assoc. apply (match_integer_app _ rest _ _ H Hr).
Qed.

Lemma match_exp_str_int z : match_exp (101 :: str_int z) = Some (101 :: str_int z, []).
Proof.
  unfold match_exp. change ((101 =? 101) || (101 =? 69)) with true. cbv iota.
  unfold str_int. destruct z as [|p|p]; simpl Z.to_int; cbv iota.
  - reflexivity.
  - destruct (to_uint_chars p) as (c & d & -> & Hd & H0).
    assert (H45 : (c =? 45) || (c =? 43) = false).
    { unfold is_digit in Hd. apply andb_true_iff in Hd as [Hd _].
      apply N.leb_le in Hd. apply orb_false_iff. split; apply N.eqb_neq; lia. }
    rewrite H45. cbn [span_digits]. rewrite Hd, span_digits_all. reflexivity.
  - change ((45 =? 45) || (45 =? 43)) with true. cbv iota.
    rewrite span_digits_all.
    destruct (to_uint_chars p) as (c & d & -> & _). reflexivity.
Qed.

Lemma exp_value_str_int z : exp_value (101 :: str_int z) = z.
Proof.
  unfold exp_value. destruct (str_int_head z) as (g & r & E & Hg). rewrite E.
  replace (g =? 43) with false.
  - rewrite <- E. apply int_of_text_str_int.
  - symmetry. apply N.eqb_neq. destruct Hg as [Hd| ->]; [|lia].
    unfold is_digit in Hd. apply andb_true_iff in Hd as [Hd _]. apply N.leb_le in Hd. lia.
Qed.

(** A decimal with an exponent and no fraction, and what [float] makes
    of it. *)
Lemma match_literal_exponent_text negative d e10 :
  (0 <= d)%Z ->
  match_literal (Float.sign_chars negative ++ str_int d ++ [101] ++ str_int e10)
  = Some ((Float.sign_chars negative ++ str_int d, [], 101 :: str_int e10), []).
Proof.
  intros Hd. unfold match_literal.
  rewrite match_integer_signed by (exact Hd || reflexivity).
  change ([101] ++ str_int e10) with (101 :: str_int e10).
  change (match_frac (101 :: str_int e10)) with (@None (pystr * pystr)). cbv iota.
  rewrite match_exp_str_int. reflexivity.
Qed.

Lemma float_of_literal_exponent_text negative d e10 :
  (0 <= d)%Z ->
  float_of_literal (Float.sign_chars negative ++ str_int d) [] (101 :: str_int e10)
  = Float.of_decimal negative d e10.
Proof.
  intros Hd. unfold float_of_literal. rewrite exp_value_str_int.
  cbn [tail length]. rewrite app_nil_r, Z.sub_0_r.
  destruct negative; cbn [Float.sign_chars app].
  - change (45 =? 45) with true. cbn [tail]. rewrite int_of_text_str_int. reflexivity.
  - destruct (str_int_head d) as (c & s & E & Hc). rewrite E.
    replace (c =? 45) with false.
    + rewrite <- E, int_of_text_str_int. reflexivity.
    + symmetry. apply N.eqb_neq. destruct Hc as [Hc| ->].
      * unfold is_digit in Hc. apply andb_true_iff in Hc as [Hc _]. apply N.leb_le in Hc. lia.
      * exfalso. destruct d as [|p|p]; [discriminate| |lia].
        unfold str_int in E. simpl in E.
        destruct (to_uint_chars p) as (c' & d' & E' & Hd' & _). rewrite E' in E.
        injection E as Ec _. subst c'. discriminate.
Qed.

Lemma float_of_str_exact_text negative m e :
  Float.ok (FFinite negative m e) = true ->
  exists i x,
    match_literal (Float.exact_text negative m e) = Some ((i, [], x), []) /\
    x <> [] /\
    float_of_literal i [] x = FFinite negative m e.
Proof.
  intros Hok. pose proof (float_ok_finite _ _ _ Hok) as (Hm & He & _).
  pose proof (of_decimal_exact _ _ _ Hok) as Hexact.
  unfold Float.exact_text.
  destruct (0 <=? e)%Z eqn:E; [apply Z.leb_le in E|apply Z.leb_gt in E].
  - assert (Hd : (0 <= m * 2 ^ e)%Z) by (apply Z.mul_nonneg_nonneg; [lia|apply Z.pow_nonneg; lia]).
    eexists _, _. split; [apply match_literal_exponent_text, Hd|].
    split; [discriminate|].
    rewrite float_of_literal_exponent_text by exact Hd. exact Hexact.
  - assert (Hd : (0 <= m * 5 ^ (- e))%Z)
      by (apply Z.mul_nonneg_nonneg; [lia|apply Z.pow_nonneg; lia]).
    eexists _, _. split; [apply match_literal_exponent_text, Hd|].
    split; [discriminate|].
    rewrite float_of_literal_exponent_text by exact Hd. exact Hexact.
Qed.

(** The text of a double is a float literal, which [float] reads back
    as the double. *)
Lemma float_repr_literal negative m e :
  Float.ok (FFinite negative m e) = true ->
  exists i f x,
    match_literal (float_repr (FFinite negative m e)) = Some ((i, f, x), []) /\
    f ++ x <> [] /\
    float_of_literal i f x = FFinite negative m e.
Proof.
  intros Hok. unfold float_repr.
  destruct (find _ (Float.repr_candidates negative m e)) as [t|] eqn:Ef.
  - apply find_some in Ef as [Hin Hback].
    unfold float_of_str in Hback.
    destruct (match_literal t) as [[[[i f] x] [|]]|] eqn:El; try discriminate.
    apply float_eqb_eq in Hback.
    exists i, f, x. split; [reflexivity|]. split; [|exact Hback].
    intros Hnil. apply app_eq_nil in Hnil as [-> ->].
    apply match_literal_integer in El. rewrite Forall_forall in El.
    destruct (repr_candidates_mark _ _ _ _ Hin) as [H|H];
      apply list_elem_of_In, El in H; destruct H; discriminate.
  - destruct (float_of_str_exact_text _ _ _ Hok) as (i & x & Hl & Hx & Hv).
    exists i, [], x. auto.
Qed.

(** The scanner on the text of a double. *)
Lemma match_number_floatstr x rest :
  Float.ok x && Float.finite x = true -> terminator rest = true ->
  match_number (floatstr x ++ rest) = Some (PyFloat x, rest).
Proof.
  intros Hx Hr. apply andb_true_iff in Hx as [Hok Hfin].
  destruct x as [| |negative m e]; try discriminate.
  destruct (float_repr_literal _ _ _ Hok) as (i & f & x & Hl & Hne & Hv).
  unfold match_number. cbn [floatstr].
  rewrite (match_literal_app _ rest _ Hl Hr).
  destruct (f ++ x); [congruence|]. rewrite Hv. reflexivity.
Qed.

Lemma floatstr_head x :
  Float.ok x && Float.finite x = true ->
  exists c s, floatstr x = c :: s /\ (is_digit c = true \/ c = 45).
Proof.
  intros Hx. apply andb_true_iff in Hx as [Hok Hfin].
  destruct x as [| |negative m e]; try discriminate.
  destruct (float_repr_literal _ _ _ Hok) as (i & f & x & Hl & _).
  exact (match_literal_head _ _ _ Hl).
Qed.

(** The first character of a number is none of those that open another
    value. *)
Lemma number_head_atom c k :
  is_digit c = true \/ c = 45 ->
  (k =? 45) = false -> (k <? 48) || (57 <? k) = true -> (c =? k) = false.
Proof.
  intros Hc H1 H2. apply N.eqb_neq. apply N.eqb_neq in H1.
  apply orb_true_iff in H2. rewrite !N.ltb_lt in H2.
  destruct Hc as [Hd| ->]; [|congruence].
  unfold is_digit in Hd. apply andb_true_iff in Hd as [Hlo Hhi].
  apply N.leb_le in Hlo, Hhi. lia.
Qed.

Lemma scan_atom_floatstr x rest :
  Float.ok x && Float.finite x = true -> terminator rest = true ->
  scan_atom (floatstr x ++ rest) = Some (PyFloat x, rest).
Proof.
  intros Hx Hr. unfold scan_atom.
  destruct (floatstr_head x Hx) as (c & s & E & Hc).
  assert (Hp : forall p q, (c =? p) = false -> strip_prefix (p :: q) (floatstr x ++ rest) = None).
  { intros p q Hpc. rewrite E. simpl. rewrite N.eqb_sym, Hpc. reflexivity. }
  change (lit "null") with (110 :: lit "ull").
  change (lit "true") with (116 :: lit "rue").
  change (lit "false") with (102 :: lit "alse").
  rewrite !Hp by (apply (number_head_atom c _ Hc); reflexivity).
  rewrite match_number_floatstr by assumption. reflexivity.
Qed.

(** ** Values *)

(** Induction on values, with the items of lists and mappings. *)
Section pyval_induction.

Variable P : pyval -> Prop.
Hypothesis HNone : P PyNone.
Hypothesis HBool : forall b, P (PyBool b).
Hypothesis HInt : forall z, P (PyInt z).
Hypothesis HFloat : forall f, P (PyFloat f).
Hypothesis HStr : forall s, P (PyStr s).
Hypothesis HList : forall l, Forall P l -> P (PyList l).
Hypothesis HDict : forall d, Forall (fun kv => P (snd kv)) d -> P (PyDict d).
Hypothesis HObject : forall id, P (PyObject id).

Lemma pyval_ind (v : pyval) : P v.
Proof.
  revert v. fix IH 1. intros [|b|z|f|s|l|d|id].
  - exact HNone.
  - apply HBool.
  - apply HInt.
  - apply HFloat.
  - apply HStr.
  - apply HList. induction l as [|x l IHl]; constructor; [apply IH|exact IHl].
  - apply HDict. induction d as [|kv d IHd]; constructor; [apply IH|exact IHd].
  - apply HObject.
Qed.

End pyval_induction.




Lemma value_head_number c s rest :
  is_digit c = true \/ c = 45 -> value_head ((c :: s) ++ rest) = true.
Proof.
  intros Hc. simpl. destruct Hc as [Hd| ->]; [|reflexivity].
  unfold is_digit in Hd. apply andb_true_iff in Hd as [Hlo Hhi].
  apply N.leb_le in Hlo, Hhi. unfold is_ws.
  repeat match goal with
         | |- context [c =? ?k] => replace (c =? k) with false by (symmetry; apply N.eqb_neq; lia)
         end.
  reflexivity.
Qed.

Lemma value_head_encode v rest :
  json_representable v = true -> value_head (encode v ++ rest) = true.
Proof.
  destruct v as [|[]|z|f|s|l|d|id]; simpl; try reflexivity; try discriminate.
  - intros _. destruct (str_int_head z) as (c & s & -> & Hc). apply value_head_number, Hc.
  - intros Hf. destruct (floatstr_head f Hf) as (c & s & -> & Hc). apply value_head_number, Hc.
Qed.

Lemma skip_ws_head s : value_head s = true -> skip_ws s = s.
Proof.
  destruct s as [|c s]; [reflexivity|]. simpl.
  intros H. apply andb_true_iff in H as [H _]. apply negb_true_iff in H.
  rewrite H. reflexivity.
Qed.

Lemma skip_ws_space s : value_head s = true -> skip_ws (32 :: s) = s.
Proof. intros H. simpl. apply skip_ws_head, H. Qed.

Lemma scan_once_atom f c r :
  (c =? 34) = false -> (c =? 123) = false -> (c =? 91) = false ->
  scan_once (S f) (c :: r) = scan_atom (c :: r).
Proof. intros H1 H2 H3. simpl. rewrite H1, H2, H3. reflexivity. Qed.

Lemma scan_once_str f s rest :
  forallb scalar_value s = true ->
  scan_once (S f) (encode_str s ++ rest) = Some (PyStr s, rest).
Proof.
  intros Hs. unfold encode_str. cbn [app scan_once N.eqb Pos.eqb].
  rewrite <- app_assoc. cbn [app]. rewrite scanstring_encode by exact Hs. reflexivity.
Qed.

Lemma join_items_cons2 a b l :
  join_items (a :: b :: l) = a ++ 44 :: 32 :: join_items (b :: l).
Proof. reflexivity. Qed.

(** The items of a non-empty array, up to the closing bracket. *)
Lemma scan_items_encode l :
  Forall (fun v => json_representable v = true ->
            forall fuel rest, (cost v <= fuel)%nat -> terminator rest = true ->
            scan_once fuel (encode v ++ rest) = Some (v, rest)) l ->
  forallb json_representable l = true -> l <> [] ->
  forall fuel rest,
    (list_sum (map (fun x => S (cost x)) l) <= fuel)%nat ->
    scan_items fuel (join_items (map encode l) ++ 93 :: rest) = Some (l, rest).
Proof.
  induction 1 as [|x l Hx Hl IH]; [congruence|].
  intros Hr _ fuel rest Hf. simpl in Hr. apply andb_true_iff in Hr as [Hrx Hrl].
  simpl in Hf. destruct fuel as [|fuel]; [lia|].
  destruct l as [|y l].
  - cbn [map join_items scan_items].
    rewrite Hx by (try reflexivity; try assumption; lia). reflexivity.
  - cbn [map]. rewrite join_items_cons2, <- app_assoc. cbn [app scan_items].
    rewrite Hx by (try reflexivity; try assumption; lia).
    cbn [mbind option_bind skip_ws is_ws N.eqb Pos.eqb orb]. cbv iota.
    assert (Hh : value_head (join_items (map encode (y :: l)) ++ 93 :: rest) = true).
    { simpl in Hrl. apply andb_true_iff in Hrl as [Hry _].
      cbn [map]. destruct l; cbn [map join_items]; rewrite <- ?app_assoc;
        apply value_head_encode, Hry. }
    change (encode y :: map encode l) with (map encode (y :: l)).
    rewrite (skip_ws_head _ Hh).
    rewrite (IH Hrl) by (try discriminate; simpl in *; lia). reflexivity.
Qed.

Lemma encode_str_app k r : encode_str k ++ r = 34 :: flat_map escape_char k ++ 34 :: r.
Proof. unfold encode_str. cbn [app]. rewrite <- app_assoc. reflexivity. Qed.

Lemma encode_pair_app kv r :
  encode_pair kv ++ r =
    34 :: flat_map escape_char (fst kv) ++ 34 :: 58 :: 32 :: encode (snd kv) ++ r.
Proof.
  unfold encode_pair. rewrite <- !app_assoc, encode_str_app. reflexivity.
Qed.

Lemma scan_pairs_step fuel k x tail :
  forallb scalar_value k = true ->
  value_head (encode x ++ tail) = true ->
  scan_once fuel (encode x ++ tail) = Some (x, tail) ->
  scan_pairs (S fuel) (flat_map escape_char k ++ 34 :: 58 :: 32 :: encode x ++ tail) =
    match skip_ws tail with
    | c2 :: r3 =>
        if c2 =? 125 then Some ([(k, x)], r3)
        else if c2 =? 44 then
          match skip_ws r3 with
          | c3 :: r4 =>
              if c3 =? 34 then
                '(pairs, rest) ← scan_pairs fuel r4; Some ((k, x) :: pairs, rest)
              else None
          | [] => None
          end
        else None
    | [] => None
    end.
Proof.
  intros Hk Hh Hx. cbn [scan_pairs]. rewrite scanstring_encode by exact Hk.
  cbn [mbind option_bind]. cbv iota beta.
  change (skip_ws (58 :: 32 :: encode x ++ tail)) with (58 :: 32 :: encode x ++ tail).
  cbv iota. change (58 =? 58) with true. cbv iota.
  rewrite (skip_ws_space _ Hh), Hx. reflexivity.
Qed.

(** The items of a non-empty object, entered after the opening quote of
    the first key, up to the closing brace. *)
Lemma scan_pairs_encode d :
  Forall (fun kv => json_representable (snd kv) = true ->
            forall fuel rest, (cost (snd kv) <= fuel)%nat -> terminator rest = true ->
            scan_once fuel (encode (snd kv) ++ rest) = Some (snd kv, rest)) d ->
  forallb (fun kv => forallb scalar_value (fst kv) && json_representable (snd kv)) d = true ->
  d <> [] ->
  forall fuel rest r4,
    (list_sum (map (fun kv => S (cost (snd kv))) d) <= fuel)%nat ->
    34 :: r4 = join_items (map encode_pair d) ++ 125 :: rest ->
    scan_pairs fuel r4 = Some (d, rest).
Proof.
  induction 1 as [|[k x] d Hx Hd IH]; [congruence|].
  intros Hr _ fuel rest r4 Hf E. simpl in Hr. apply andb_true_iff in Hr as [Hrx Hrd].
  apply andb_true_iff in Hrx as [Hk Hrx].
  simpl in Hf, Hx. destruct fuel as [|fuel]; [lia|].
  destruct d as [|kv d].
  - cbn [map join_items] in E. rewrite encode_pair_app in E. injection E as ->.
    cbn [fst snd].
    rewrite scan_pairs_step; try assumption.
    + reflexivity.
    + apply value_head_encode, Hrx.
    + apply Hx; [assumption|lia|reflexivity].
  - assert (Hq : exists r, join_items (map encode_pair (kv :: d)) ++ 125 :: rest = 34 :: r).
    { destruct d; cbn [map join_items]; rewrite <- ?app_assoc, encode_pair_app; eauto. }
    destruct Hq as [r Hq].
    change (map encode_pair ((k, x) :: kv :: d))
      with (encode_pair (k, x) :: encode_pair kv :: map encode_pair d) in E.
    rewrite join_items_cons2 in E.
    change (encode_pair kv :: map encode_pair d) with (map encode_pair (kv :: d)) in E.
    rewrite <- app_assoc in E.
    change ((44 :: 32 :: join_items (map encode_pair (kv :: d))) ++ 125 :: rest)
      with (44 :: 32 :: (join_items (map encode_pair (kv :: d)) ++ 125 :: rest)) in E.
    rewrite Hq, encode_pair_app in E. injection E as ->.
    cbn [fst snd].
    rewrite scan_pairs_step; try assumption.
    + change (skip_ws (44 :: 32 :: 34 :: r)) with (44 :: 32 :: 34 :: r). cbv iota.
      change (44 =? 125) with false. change (44 =? 44) with true. cbv iota.
      change (skip_ws (32 :: 34 :: r)) with (34 :: r). cbv iota.
      change (34 =? 34) with true. cbv iota.
      rewrite (IH Hrd ltac:(discriminate) fuel rest r); [reflexivity|simpl in *; lia|].
      symmetry. exact Hq.
    + apply value_head_encode, Hrx.
    + apply Hx; [assumption|lia|reflexivity].
Qed.

(** *** Mappings with distinct keys *)

Lemma distinct_keys_NoDup d : distinct_keys d = true <-> NoDup (map fst d).
Proof.
  induction d as [|[k v] d IH]; simpl.
  - split; [constructor|reflexivity].
  - rewrite andb_true_iff, negb_true_iff, IH, NoDup_cons. apply and_iff_compat_r.
    rewrite <- not_true_iff_false, existsb_exists. split.
    + intros Hn Hin. apply Hn. apply list_elem_of_In, in_map_iff in Hin as ([k' v'] & E & Hin).
      exists (k', v'). split; [exact Hin|]. apply bool_decide_eq_true. exact E.
    + intros Hn ([k' v'] & Hin & E). apply Hn.
      apply bool_decide_eq_true in E. simpl in E. subst k'.
      apply list_elem_of_In, in_map_iff. exists (k, v'). auto.
Qed.

Lemma dict_setitem_fresh d k v :
  k ∉ map fst d -> dict_setitem d k v = d ++ [(k, v)].
Proof.
  induction d as [|[k' v'] d IH]; simpl; intros Hk; [reflexivity|].
  apply not_elem_of_cons in Hk as [Hne Hk].
  destruct (decide (k' = k)) as [->|_]; [congruence|].
  rewrite IH by exact Hk. reflexivity.
Qed.

Lemma dict_update_distinct d acc :
  NoDup (map fst (acc ++ d)) -> dict_update acc d = acc ++ d.
Proof.
  revert acc. induction d as [|[k v] d IH]; intros acc Hn.
  - symmetry. apply app_nil_r.
  - unfold dict_update in *. cbn [fold_left fst snd].
    assert (Hk : k ∉ map fst acc).
    { rewrite map_app in Hn. apply NoDup_app in Hn as (_ & Hn & _).
      intros Hin. apply (Hn k Hin). simpl. left. }
    rewrite dict_setitem_fresh by exact Hk.
    rewrite IH; rewrite <- app_assoc; [reflexivity|exact Hn].
Qed.

Lemma dict_of_pairs_distinct d : distinct_keys d = true -> dict_of_pairs d = d.
Proof.
  intros H. apply distinct_keys_NoDup in H. unfold dict_of_pairs.
  apply (dict_update_distinct d []). exact H.
Qed.

(** *** The scanner on the text of a value *)

Lemma scan_once_object fuel body r pairs rest :
  body = 34 :: r -> scan_pairs fuel r = Some (pairs, rest) ->
  scan_once (S fuel) (123 :: body) = Some (PyDict (dict_of_pairs pairs), rest).
Proof. intros -> Hp. simpl. rewrite Hp. reflexivity. Qed.

Lemma scan_once_encode v :
  json_representable v = true ->
  forall fuel rest, (cost v <= fuel)%nat -> terminator rest = true ->
  scan_once fuel (encode v ++ rest) = Some (v, rest).
Proof.
  induction v as [|b|z|f|s|l IH|d IH|id] using pyval_ind;
    intros Hr fuel rest Hf Ht; (destruct fuel as [|fuel]; [simpl in Hf; lia|]);
    try discriminate.
  - reflexivity.
  - destruct b; reflexivity.
  - cbn [encode]. destruct (str_int_head z) as (c & s & E & Hc).
    assert (Hne : forall k, (k =? 45) = false -> (k <? 48) || (57 <? k) = true ->
                            (c =? k) = false).
    { intros k H1 H2. apply N.eqb_neq. apply N.eqb_neq in H1.
      apply orb_true_iff in H2. rewrite !N.ltb_lt in H2.
      destruct Hc as [Hd| ->]; [|congruence].
      unfold is_digit in Hd. apply andb_true_iff in Hd as [Hlo Hhi].
      apply N.leb_le in Hlo, Hhi. lia. }
    rewrite E. cbn [app]. rewrite scan_once_atom by (apply Hne; reflexivity).
    change (c :: s ++ rest) with ((c :: s) ++ rest). rewrite <- E.
    apply scan_atom_str_int, Ht.
  - cbn [encode json_representable] in *.
    destruct (floatstr_head f Hr) as (c & s & E & Hc).
    rewrite E. cbn [app].
    rewrite scan_once_atom by (apply (number_head_atom c _ Hc); reflexivity).
    change (c :: s ++ rest) with ((c :: s) ++ rest). rewrite <- E.
    apply scan_atom_floatstr; assumption.
  - apply scan_once_str, Hr.
  - cbn [json_representable] in Hr. cbn [cost] in Hf.
    cbn [encode]. change (lit "[") with [91]. change (lit "]") with [93].
    rewrite <- !app_assoc. cbn [app].
    destruct l as [|x l].
    + reflexivity.
    + assert (Hh : value_head (join_items (map encode (x :: l)) ++ 93 :: rest) = true).
      { simpl in Hr. apply andb_true_iff in Hr as [Hrx _].
        cbn [map]. destruct l; cbn [map join_items]; rewrite <- ?app_assoc;
          apply value_head_encode, Hrx. }
      pose proof (scan_items_encode (x :: l) IH Hr ltac:(discriminate) fuel rest
                    ltac:(lia)) as Hi.
      destruct (join_items (map encode (x :: l)) ++ 93 :: rest) as [|c1 r1] eqn:Ej;
        [discriminate|].
      cbn [scan_once N.eqb Pos.eqb]. rewrite (skip_ws_head _ Hh).
      simpl in Hh. apply andb_true_iff in Hh as [_ H93]. apply negb_true_iff in H93.
      rewrite H93, Hi. reflexivity.
  - cbn [json_representable] in Hr. apply andb_true_iff in Hr as [Hk Hr].
    cbn [cost] in Hf.
    cbn [encode]. change (lit "{") with [123]. change (lit "}") with [125].
    change (fun kv : pystr * pyval => encode_str (fst kv) ++ lit ": " ++ encode (snd kv))
      with encode_pair.
    rewrite <- !app_assoc. cbn [app].
    destruct d as [|kv d].
    + reflexivity.
    + assert (Hq : exists r, join_items (map encode_pair (kv :: d)) ++ 125 :: rest = 34 :: r).
      { destruct d; cbn [map join_items]; rewrite <- ?app_assoc, encode_pair_app; eauto. }
      destruct Hq as [r Hq].
      assert (Hc : (list_sum (map (fun kv => S (cost (snd kv))) (kv :: d)) <= fuel)%nat).
      { lia. }
      pose proof (scan_pairs_encode (kv :: d) IH Hr ltac:(discriminate) fuel rest r
                    Hc (eq_sym Hq)) as Hp.
      etransitivity; [exact (scan_once_object fuel _ r (kv :: d) rest Hq Hp)|].
      rewrite dict_of_pairs_distinct by exact Hk. reflexivity.
Qed.

Lemma cost_positive v : (1 <= cost v)%nat.
Proof. destruct v; simpl; lia. Qed.

Lemma length_join_items (A : Type) (enc : A -> pystr) (c : A -> nat) (l : list A) :
  Forall (fun x => (c x <= length (enc x))%nat) l ->
  (list_sum (map (fun x => S (c x)) l) <= S (length (join_items (map enc l))))%nat.
Proof.
  induction 1 as [|x l Hx Hl IH]; [simpl; lia|].
  destruct l as [|y l].
  - simpl. lia.
  - cbn [map] in *. rewrite join_items_cons2. cbn [list_sum] in *.
    rewrite length_app. cbn [length]. unfold list_sum in *. cbn [fold_right] in *. lia.
Qed.

Lemma cost_length v : json_representable v = true -> (cost v <= length (encode v))%nat.
Proof.
  induction v as [|b|z|f|s|l IH|d IH|id] using pyval_ind; intros Hr; try discriminate.
  - simpl. lia.
  - destruct b; simpl; lia.
  - simpl. destruct (str_int_head z) as (c & s & -> & _). simpl. lia.
  - cbn [json_representable cost encode] in *.
    destruct (floatstr_head f Hr) as (c & s & -> & _). simpl. lia.
  - simpl. lia.
  - cbn [json_representable] in Hr. cbn [cost encode].
    rewrite !length_app. change (length (lit "[")) with 1%nat.
    change (length (lit "]")) with 1%nat.
    pose proof (length_join_items pyval encode cost l) as Hj.
    assert (Hl : Forall (fun x => (cost x <= length (encode x))%nat) l).
    { rewrite Forall_forall in *. intros x Hx. apply IH; [exact Hx|].
      rewrite forallb_forall in Hr. apply Hr. apply list_elem_of_In, Hx. }
    specialize (Hj Hl). lia.
  - cbn [json_representable] in Hr. apply andb_true_iff in Hr as [_ Hr].
    cbn [cost encode].
    change (fun kv : pystr * pyval => encode_str (fst kv) ++ lit ": " ++ encode (snd kv))
      with encode_pair.
    rewrite !length_app. change (length (lit "{")) with 1%nat.
    change (length (lit "}")) with 1%nat.
    pose proof (length_join_items _ encode_pair (fun kv => cost (snd kv)) d) as Hj.
    assert (Hl : Forall (fun kv => (cost (snd kv) <= length (encode_pair kv))%nat) d).
    { rewrite Forall_forall in *. intros kv Hx.
      unfold encode_pair. rewrite !length_app.
      assert (cost (snd kv) <= length (encode (snd kv)))%nat; [|lia].
      apply IH; [exact Hx|].
      rewrite forallb_forall in Hr. apply list_elem_of_In, Hr in Hx.
      apply andb_true_iff in Hx as [_ Hx]. exact Hx. }
    specialize (Hj Hl). cbv beta in Hj. lia.
Qed.

(** The round trip of the codec. *)
Lemma loads_encode v : json_representable v = true -> loads (encode v) = Return v.
Proof.
  intros Hr. unfold loads.
  pose proof (value_head_encode v [] Hr) as Hh. rewrite app_nil_r in Hh.
  rewrite (skip_ws_head _ Hh).
  pose proof (scan_once_encode v Hr (length (encode v)) [] (cost_length v Hr) eq_refl) as E.
  rewrite app_nil_r in E. rewrite E. reflexivity.
Qed.

Lemma representable_serializable v : json_representable v = true -> serializable v = true.
Proof.
  induction v as [|b|z|f|s|l IH|d IH|id] using pyval_ind; intros Hr;
    try reflexivity; try discriminate.
  - cbn [json_representable serializable] in *.
    apply forallb_forall. intros x Hx. rewrite Forall_forall in IH.
    apply IH; [apply list_elem_of_In, Hx|].
    rewrite forallb_forall in Hr. apply Hr, Hx.
  - cbn [json_representable serializable] in *. apply andb_true_iff in Hr as [_ Hr].
    apply forallb_forall. intros x Hx. rewrite Forall_forall in IH.
    apply IH; [apply list_elem_of_In, Hx|].
    rewrite forallb_forall in Hr. apply Hr in Hx.
    apply andb_true_iff in Hx as [_ Hx]. exact Hx.
Qed.

Lemma loads_dumps v :
  json_representable v = true ->
  exists s, dumps v = Return s /\ str_truthy s = true /\ loads s = Return v.
Proof.
  intros Hr. exists (encode v). unfold dumps.
  rewrite (representable_serializable v Hr). split; [reflexivity|]. split.
  - pose proof (value_head_encode v [] Hr) as Hh. rewrite app_nil_r in Hh.
    destruct (encode v); [discriminate|reflexivity].
  - apply loads_encode, Hr.
Qed.

(** ** [dict.update] *)

Lemma dict_get_setitem d k v k' :
  dict_get (dict_setitem d k v) k' = if decide (k = k') then Some v else dict_get d k'.
Proof.
  induction d as [|[k0 v0] d IH]; simpl.
  - destruct (decide (k = k')); reflexivity.
  - destruct (decide (k0 = k)) as [->|Hne]; simpl.
    + destruct (decide (k = k')); reflexivity.
    + rewrite IH. destruct (decide (k0 = k')) as [->|Hne'].
      * destruct (decide (k = k')); [congruence|reflexivity].
      * reflexivity.
Qed.

Lemma dict_get_None d k : k ∉ map fst d -> dict_get d k = None.
Proof.
  induction d as [|[k0 v0] d IH]; simpl; intros Hk; [reflexivity|].
  apply not_elem_of_cons in Hk as [Hne Hk].
  destruct (decide (k0 = k)); [congruence|]. apply IH, Hk.
Qed.

(** The keys of [other] override those of [d]; the values are taken as
    they are (the merge is not recursive). *)
Lemma dict_get_update other d k :
  NoDup (map fst other) ->
  dict_get (dict_update d other) k =
    match dict_get other k with
    | Some v => Some v
    | None => dict_get d k
    end.
Proof.
  unfold dict_update. revert d.
  induction other as [|[k1 v1] other IH]; intros d Hn; [reflexivity|].
  cbn [map fst] in Hn. apply NoDup_cons in Hn as [Hk1 Hn].
  cbn [fold_left fst snd dict_get]. rewrite IH by exact Hn.
  rewrite dict_get_setitem.
  destruct (decide (k1 = k)) as [->|Hne]; [|reflexivity].
  rewrite dict_get_None by exact Hk1. reflexivity.
Qed.

Lemma dict_setitem_keys d k v :
  map fst (dict_setitem d k v) = if bool_decide (k ∈ map fst d) then map fst d
                                 else map fst d ++ [k].
Proof.
  induction d as [|[k0 v0] d IH]; simpl; [reflexivity|].
  destruct (decide (k0 = k)) as [->|Hne]; simpl.
  - rewrite bool_decide_eq_true_2 by left. reflexivity.
  - rewrite IH. destruct (bool_decide (k ∈ map fst d)) eqn:E.
    + apply bool_decide_eq_true in E.
      rewrite bool_decide_eq_true_2 by (right; exact E). reflexivity.
    + apply bool_decide_eq_false in E.
      rewrite bool_decide_eq_false_2; [reflexivity|].
      intros Hin. apply elem_of_cons in Hin as [Hin|Hin]; congruence.
Qed.

Lemma dict_setitem_NoDup d k v :
  NoDup (map fst d) -> NoDup (map fst (dict_setitem d k v)).
Proof.
  intros Hn. rewrite dict_setitem_keys.
  destruct (bool_decide (k ∈ map fst d)) eqn:E; [exact Hn|].
  apply bool_decide_eq_false in E.
  apply NoDup_app. split; [exact Hn|]. split.
  - intros x Hx Hin. apply list_elem_of_singleton in Hin. subst x. exact (E Hx).
  - apply NoDup_singleton.
Qed.

Lemma dict_setitem_forallb (P : pystr * pyval -> bool) d k v :
  forallb P d = true -> P (k, v) = true -> forallb P (dict_setitem d k v) = true.
Proof.
  intros Hd Hkv. induction d as [|[k0 v0] d IH]; simpl in *.
  - rewrite Hkv. reflexivity.
  - apply andb_true_iff in Hd as [H0 Hd].
    destruct (decide (k0 = k)) as [->|Hne]; simpl.
    + rewrite Hkv, Hd. reflexivity.
    + rewrite H0, IH by exact Hd. reflexivity.
Qed.

Lemma dict_update_representable d other :
  json_representable (PyDict d) = true ->
  json_representable (PyDict other) = true ->
  json_representable (PyDict (dict_update d other)) = true.
Proof.
  cbn [json_representable]. rewrite !andb_true_iff, !distinct_keys_NoDup.
  intros [Hn Hd] [_ Ho]. unfold dict_update. revert d Hn Hd.
  induction other as [|[k v] other IH]; intros d Hn Hd; [auto|].
  simpl in Ho. apply andb_true_iff in Ho as [Hkv Ho].
  cbn [fold_left fst snd]. apply IH.
  - exact Ho.
  - apply dict_setitem_NoDup, Hn.
  - apply dict_setitem_forallb; assumption.
Qed.

End JsonFacts.

(** * Properties of the facade over any database *)

Section Facade.

Context {S : Type} `{!Ydb S} `{!Pickle} `{!Asyncio}.

Implicit Types (self : YDBStorage) (key : StorageKey) (w : world S).

Ltac unfold_monad :=
  unfold bind, try_except, ret, raise, logger_error, getitem0, asyncio_run,
    _execute_query, ydb_aio_retry_operation, BaseException in *; simpl in *.

Lemma _create_table_returns self w : returns (_create_table self) w.
Proof.
  unfold returns, _create_table. unfold_monad.
  destruct (retry_operation _ _ _) as [[r|e] b]; simpl; eauto.
Qed.

Lemma _ser_returns self obj w : returns (_ser self obj) w.
Proof.
  unfold returns, _ser. unfold_monad. unfold Exception.
  destruct (decide _) as [Hp|Hp].
  - destruct (pickle_dumps obj) as [b|e] eqn:E; simpl; eauto.
    rewrite (pickle_dumps_Exception _ _ E). eauto.
  - unfold Json.dumps. destruct (Json.serializable obj); simpl; eauto.
Qed.

Lemma _ser_backend self obj w : backend (snd (_ser self obj w)) = backend w.
Proof.
  unfold _ser. unfold_monad. unfold Exception.
  destruct (decide _) as [Hp|Hp].
  - destruct (pickle_dumps obj) as [b|e] eqn:E; simpl; auto.
    rewrite (pickle_dumps_Exception _ _ E). reflexivity.
  - unfold Json.dumps. destruct (Json.serializable obj); reflexivity.
Qed.

Lemma set_state_returns self key state w : returns (set_state self key state) w.
Proof.
  unfold returns, set_state. unfold_monad.
  destruct (retry_operation _ _ _) as [[r|e] b]; simpl; eauto.
Qed.


Lemma set_data_returns self key data w : returns (set_data self key data) w.
Proof.
  unfold returns, set_data.
  destruct (_ser_returns self data w) as (s & w1 & E).
  unfold bind at 1. rewrite E. unfold_monad.
  destruct (retry_operation _ _ _) as [[r|e] b]; simpl; eauto.
Qed.

Lemma get_data_returns self key w : returns (get_data self key) w.
Proof.
  unfold returns, get_data. unfold_monad.
  destruct (retry_operation _ _ _) as [[r|e] b]; simpl; eauto.
  destruct r as [|r0 r]; simpl; eauto.
  destruct (rows r0); simpl; eauto.
  destruct (_dsr self _ _) as [[v|e] w']; simpl; eauto.
Qed.


Lemma set_state_statement self key state w :
  set_state self key state w =
    match retry_operation (UpsertState (table_name self) (_key key) (stored_state state))
            (session_pool self) (backend w) with
    | (Return _, b) => (Return tt, mkWorld b (log w))
    | (Raise e, b) => (Return tt, logged_failure w b e)
    end.
Proof.
  unfold set_state. unfold_monad.
  assert (Hs : match match state with
                     | StateObject st => st | StateStr s => Some s | StateNone => None
                     end with
               | Some s => if str_truthy s then s else lit EmptyString
               | None => lit EmptyString
               end = stored_state state).
  { destruct state as [[[|c s]|]|[|c s]|]; reflexivity. }
  rewrite Hs.
  destruct (retry_operation _ _ _) as [[r|e] b]; reflexivity.
Qed.

Lemma set_data_statement self key data w :
  set_data self key data w =
    match _ser self data w with
    | (Return s_data, w1) =>
        match retry_operation (UpsertData (table_name self) (_key key) s_data)
                (session_pool self) (backend w) with
        | (Return _, b) => (Return tt, mkWorld b (log w1))
        | (Raise e, b) => (Return tt, logged_failure w1 b e)
        end
    | (Raise e, w1) => (Raise e, w1)
    end.
Proof.
  unfold set_data. unfold bind at 1.
  pose proof (_ser_backend self data w) as Hb.
  destruct (_ser self data w) as [[s|e] w1]; [|reflexivity].
  simpl in Hb. unfold_monad. rewrite Hb.
  destruct (retry_operation _ _ _) as [[r|e] b]; reflexivity.
Qed.

(** What [get_state] and [get_data] make of the result sets. *)
Lemma get_state_statement self key w :
  get_state self key w =
    match retry_operation (SelectState (table_name self) (_key key))
            (session_pool self) (backend w) with
    | (Return (r0 :: _), b) =>
        (Return match rows r0 with
                | row :: _ => row_get row (lit "state")
                | [] => None
                end, mkWorld b (log w))
    | (Return [], b) => (Return None, logged_failure w b (IndexError "list index out of range"))
    | (Raise e, b) => (Return None, logged_failure w b e)
    end.
Proof.
  unfold get_state. unfold_monad.
  destruct (retry_operation _ _ _) as [[[|r0 r]|e] b]; simpl; try reflexivity.
  destruct (rows r0); reflexivity.
Qed.

Lemma get_data_statement self key w :
  get_data self key w =
    match retry_operation (SelectData (table_name self) (_key key))
            (session_pool self) (backend w) with
    | (Return (r0 :: _), b) =>
        match rows r0 with
        | row :: _ =>
            match _dsr self (row_get row (lit "data")) (mkWorld b (log w)) with
            | (Return v, w1) => (Return v, w1)
            | (Raise e, w1) => (Return PyNone, logged_failure w1 (backend w1) e)
            end
        | [] => (Return PyNone, mkWorld b (log w))
        end
    | (Return [], b) => (Return PyNone, logged_failure w b (IndexError "list index out of range"))
    | (Raise e, b) => (Return PyNone, logged_failure w b e)
    end.
Proof.
  unfold get_data. unfold_monad.
  destruct (retry_operation _ _ _) as [[[|r0 r]|e] b]; simpl; try reflexivity.
  destruct (rows r0) as [|row rs]; [reflexivity|]. unfold_monad.
  destruct (_dsr self _ _) as [[v|e] [b1 l1]]; reflexivity.
Qed.

Lemma update_data_statement self key data w cur w1 :
  get_data self key w = (Return cur, w1) ->
  update_data self key data w =
    match merge_target cur with
    | Some d =>
        (Return (PyDict (dict_update d data)),
         snd (set_data self key (PyDict (dict_update d data)) w1))
    | None => (Raise (AttributeError "object has no attribute 'update'"), w1)
    end.
Proof.
  intros E. unfold update_data. unfold bind at 1. rewrite E.
  unfold merge_target.
  destruct (negb (py_truthy cur)) eqn:Ht.
  - unfold py_update. unfold bind at 1. unfold ret at 1.
    destruct (set_data_returns self key (PyDict (dict_update [] data)) w1) as ([] & w2 & E2).
    unfold bind. rewrite E2. reflexivity.
  - destruct cur; try reflexivity.
    unfold py_update. unfold bind at 1. unfold ret at 1.
    destruct (set_data_returns self key (PyDict (dict_update d data)) w1) as ([] & w2 & E2).
    unfold bind. rewrite E2. reflexivity.
Qed.

(** C8: whatever the schema bootstrap does (it succeeds, it fails
    because the table exists, the backend cannot be reached, it raises
    anything else, or [asyncio.run] refuses to start it inside a running
    event loop), the constructor returns the store; a failure of the
    bootstrap is caught and written to the log, and is never raised out
    of [__init__]. *)
Theorem init_completes_whatever_bootstrap_does
    (driver_config : option DriverConfig) (pool : option SessionPool)
    (method table : pystr) w :
  let self := constructed driver_config pool method table in
  returns (__init__ driver_config pool method table) w /\
  __init__ driver_config pool method table w =
    if running_loop then (Return self, logged_failure w (backend w) running_loop_error)
    else
      match retry_operation (CreateTable table) (session_pool self) (backend w) with
      | (Return _, b) => (Return self, mkWorld b (log w))
      | (Raise e, b) => (Return self, logged_failure w b e)
      end.
Proof.
  intros self.
  assert (Hself :
    mkYDBStorage
      match driver_config with Some c => Some (ydb_Driver c) | None => None end
      match pool with
      | None => ydb_SessionPool
                  match driver_config with Some c => Some (ydb_Driver c) | None => None end
      | Some p => p
      end
      table
      (if bool_decide (method ≠ lit "pickle") && bool_decide (method ≠ lit "json")
       then lit "json" else method) = self).
  { assert (Hm : (if bool_decide (method ≠ lit "pickle")
                       && bool_decide (method ≠ lit "json")
                    then lit "json" else method)
                 = if decide (method = lit "pickle") then lit "pickle" else lit "json").
    { destruct (decide (method = lit "pickle")) as [->|Hp]; [reflexivity|].
      rewrite (bool_decide_eq_true_2 _ Hp). simpl.
      destruct (decide (method = lit "json")) as [->|Hj]; [reflexivity|].
      rewrite (bool_decide_eq_true_2 _ Hj). reflexivity. }
    rewrite Hm. unfold self, constructed.
    destruct driver_config, pool; reflexivity. }
  assert (E : __init__ driver_config pool method table w =
    if running_loop then (Return self, logged_failure w (backend w) running_loop_error)
    else
      match retry_operation (CreateTable table) (session_pool self) (backend w) with
      | (Return _, b) => (Return self, mkWorld b (log w))
      | (Raise e, b) => (Return self, logged_failure w b e)
      end).
  { unfold __init__. rewrite Hself. unfold _create_table. unfold_monad.
    destruct running_loop; [reflexivity|].
    replace (table_name self) with table by reflexivity.
    destruct (retry_operation _ _ _) as [[r|e] b]; reflexivity. }
  split; [|exact E].
  unfold returns. rewrite E.
  destruct running_loop; [eauto|].
  destruct (retry_operation _ _ _) as [[r|e] b]; eauto.
Qed.



(** Whatever the executor does with the write, [update_data] returns the
    merged mapping. *)
Lemma update_data_result_ignores_write self key (partial : pydict) w cur w1 d :
  get_data self key w = (Return cur, w1) ->
  merge_target cur = Some d ->
  fst (update_data self key partial w) = Return (PyDict (dict_update d partial)).
Proof.
  intros Eg Em. rewrite (update_data_statement self key partial w cur w1 Eg), Em.
  reflexivity.
Qed.

Lemma _ser_json self (v : pyval) w :
  serializing_method self = lit "json" ->
  Json.serializable v = true ->
  _ser self v w = (Return (SerStr (Json.encode v)), w).
Proof.
  intros Hj Hs. unfold _ser. rewrite Hj.
  destruct (decide (lit "json" = lit "pickle")) as [Hp|_]; [discriminate|].
  unfold Json.dumps. rewrite Hs. reflexivity.
Qed.

Lemma codec_loads_json self blob :
  serializing_method self = lit "json" -> codec_loads self blob = Json.loads blob.
Proof.
  intros Hj. unfold codec_loads. rewrite Hj.
  destruct (decide (lit "json" = lit "pickle")) as [Hp|_]; [discriminate|reflexivity].
Qed.


End Facade.

(** * Properties over the reference database *)

Section Reference.

Context `{!Pickle}.

Implicit Types (self : YDBStorage) (key : StorageKey) (w : world RefDb.db) (d : RefDb.db).

Lemma execute_journal stmt pool d :
  RefDb.journal (snd (RefDb.execute stmt pool d)) = RefDb.journal d ++ [stmt].
Proof.
  unfold RefDb.execute.
  destruct (RefDb.faults d) as [|[e|] fs]; simpl;
    try destruct (RefDb.run _ _); reflexivity.
Qed.

Lemma execute_fault stmt pool d e fs :
  RefDb.faults d = Some e :: fs ->
  RefDb.execute stmt pool d =
    (Raise e, RefDb.mkDb (RefDb.tables d) fs (RefDb.journal d ++ [stmt])).
Proof. unfold RefDb.execute. intros ->. reflexivity. Qed.

Lemma execute_no_fault stmt pool d :
  RefDb.faults d = [] ->
  RefDb.execute stmt pool d =
    (fst (RefDb.run stmt (RefDb.tables d)),
     RefDb.mkDb (snd (RefDb.run stmt (RefDb.tables d))) [] (RefDb.journal d ++ [stmt])).
Proof.
  unfold RefDb.execute. intros ->. destruct (RefDb.run _ _). reflexivity.
Qed.

(** The tables after a call are those before it, or those that the
    statement yields. *)
Lemma execute_tables stmt pool d :
  RefDb.tables (snd (RefDb.execute stmt pool d)) = RefDb.tables d \/
  RefDb.tables (snd (RefDb.execute stmt pool d)) = snd (RefDb.run stmt (RefDb.tables d)).
Proof.
  unfold RefDb.execute.
  destruct (RefDb.faults d) as [|[e|] fs]; simpl; auto;
    destruct (RefDb.run _ _); auto.
Qed.

Lemma run_upsert_state_frame t k s ts t' k' :
  snd (RefDb.run (UpsertState t k s) ts) !! t' ≫= (λ tb, tb !! k' ≫= RefDb.row_data)
  = ts !! t' ≫= (λ tb, tb !! k' ≫= RefDb.row_data).
Proof.
  simpl. destruct (ts !! t) as [tb|] eqn:Et; simpl; [|reflexivity].
  destruct (decide (t = t')) as [<-|Ht].
  - rewrite lookup_insert_eq, Et. simpl. unfold RefDb.upsert_state.
    destruct (decide (k = k')) as [<-|Hk].
    + rewrite lookup_insert_eq. reflexivity.
    + rewrite lookup_insert_ne by done. reflexivity.
  - rewrite lookup_insert_ne by done. reflexivity.
Qed.

Lemma run_upsert_data_frame t k s ts t' k' :
  snd (RefDb.run (UpsertData t k s) ts) !! t' ≫= (λ tb, tb !! k' ≫= RefDb.row_state)
  = ts !! t' ≫= (λ tb, tb !! k' ≫= RefDb.row_state).
Proof.
  simpl. destruct (ts !! t) as [tb|] eqn:Et; simpl; [|reflexivity].
  destruct s as [s|b|]; simpl; try reflexivity.
  destruct (decide (t = t')) as [<-|Ht].
  - rewrite lookup_insert_eq, Et. simpl. unfold RefDb.upsert_data.
    destruct (decide (k = k')) as [<-|Hk].
    + rewrite lookup_insert_eq. reflexivity.
    + rewrite lookup_insert_ne by done. reflexivity.
  - rewrite lookup_insert_ne by done. reflexivity.
Qed.

Lemma backend_set_state self key state w :
  backend (snd (set_state self key state w)) =
    snd (RefDb.execute (UpsertState (table_name self) (_key key) (stored_state state))
           (session_pool self) (backend w)).
Proof.
  rewrite set_state_statement. simpl.
  destruct (RefDb.execute _ _ _) as [[r|e] b]; reflexivity.
Qed.

Lemma backend_set_data self key data w :
  exists s_data w1,
    _ser self data w = (Return s_data, w1) /\
    backend (snd (set_data self key data w)) =
      snd (RefDb.execute (UpsertData (table_name self) (_key key) s_data)
             (session_pool self) (backend w)).
Proof.
  destruct (_ser_returns self data w) as (s & w1 & Es).
  exists s, w1. split; [exact Es|].
  rewrite set_data_statement, Es. simpl.
  destruct (RefDb.execute _ _ _) as [[r|e] b]; reflexivity.
Qed.

(** C7: [set_state] leaves the [data] column of every row as it was,
    and [set_data] leaves the [state] column of every row as it was
    (whether or not the statement succeeds); when the UPSERT of
    [set_state] succeeds, the [state] column of the key holds the new
    state. *)
Theorem set_state_and_set_data_touch_their_own_column self key state (data : pyval) w
    (t k : pystr) :
  RefDb.data_column (backend (snd (set_state self key state w))) t k
    = RefDb.data_column (backend w) t k /\
  RefDb.state_column (backend (snd (set_data self key data w))) t k
    = RefDb.state_column (backend w) t k /\
  match RefDb.execute (UpsertState (table_name self) (_key key) (stored_state state))
          (session_pool self) (backend w) with
  | (Return _, _) =>
      RefDb.state_column (backend (snd (set_state self key state w)))
        (table_name self) (_key key) = Some (stored_state state)
  | (Raise _, _) => True
  end.
Proof.
  split; [|split].
  - rewrite backend_set_state. unfold RefDb.data_column.
    destruct (execute_tables (UpsertState (table_name self) (_key key) (stored_state state))
                (session_pool self) (backend w)) as [-> | ->]; [reflexivity|].
    apply run_upsert_state_frame.
  - destruct (backend_set_data self key data w) as (s & w1 & _ & ->).
    unfold RefDb.state_column.
    destruct (execute_tables (UpsertData (table_name self) (_key key) s)
                (session_pool self) (backend w)) as [-> | ->]; [reflexivity|].
    apply run_upsert_data_frame.
  - rewrite backend_set_state. unfold RefDb.execute.
    destruct (RefDb.faults (backend w)) as [|[e|] fs]; simpl; try exact I;
      (destruct (RefDb.tables (backend w) !! table_name self) as [tb|] eqn:Et;
       simpl; [|exact I]);
      unfold RefDb.state_column; simpl;
      rewrite lookup_insert_eq; simpl; unfold RefDb.upsert_state;
      rewrite lookup_insert_eq; reflexivity.
Qed.

Lemma _dsr_value self (obj : option pystr) (w : world RefDb.db) :
  match fst (_dsr self obj w) with
  | Return v => v = decoded self obj
  | Raise e => decoded self obj = PyNone
  end.
Proof.
  unfold _dsr, decoded, codec_loads, try_except, ret, raise, bind, logger_error, Exception.
  destruct obj as [s|]; simpl.
  - destruct (decide _) as [Hp|Hp]; simpl.
    + destruct (str_truthy s); simpl; [|reflexivity].
      destruct (pickle_loads s) as [v|e]; simpl; [reflexivity|].
      destruct (is_Exception e); reflexivity.
    + destruct (str_truthy s); simpl; [|reflexivity].
      destruct (Json.loads s) as [v|e]; simpl; [reflexivity|].
      destruct (is_Exception e); reflexivity.
  - destruct (decide _); reflexivity.
Qed.

Lemma _dsr_backend self (obj : option pystr) (w : world RefDb.db) :
  backend (snd (_dsr self obj w)) = backend w.
Proof.
  unfold _dsr, try_except, ret, raise, bind, logger_error, Exception.
  destruct obj as [s|]; simpl.
  - destruct (decide _) as [Hp|Hp]; simpl.
    + destruct (str_truthy s); simpl; [|reflexivity].
      destruct (pickle_loads s) as [v|e]; simpl; [reflexivity|].
      destruct (is_Exception e); reflexivity.
    + destruct (str_truthy s); simpl; [|reflexivity].
      destruct (Json.loads s) as [v|e]; simpl; [reflexivity|].
      destruct (is_Exception e); reflexivity.
  - destruct (decide _); reflexivity.
Qed.

(** The executor succeeds on a SELECT exactly when no fault comes and
    the table exists. *)
Lemma execute_select_data t k pool d :
  RefDb.execute (SelectData t k) pool d =
    match RefDb.faults d with
    | Some e :: fs => (Raise e, RefDb.mkDb (RefDb.tables d) fs (RefDb.journal d ++ [SelectData t k]))
    | fs =>
        (match RefDb.tables d !! t with
         | Some tb => Return (RefDb.select (lit "data") RefDb.row_data k tb)
         | None => Raise (RefDb.SchemeError "Cannot find table")
         end,
         RefDb.mkDb (RefDb.tables d) (tail fs) (RefDb.journal d ++ [SelectData t k]))
    end.
Proof.
  unfold RefDb.execute.
  destruct (RefDb.faults d) as [|[e|] fs]; simpl; try reflexivity;
    destruct (RefDb.tables d !! t); reflexivity.
Qed.

Lemma execute_select_state t k pool d :
  RefDb.execute (SelectState t k) pool d =
    match RefDb.faults d with
    | Some e :: fs => (Raise e, RefDb.mkDb (RefDb.tables d) fs (RefDb.journal d ++ [SelectState t k]))
    | fs =>
        (match RefDb.tables d !! t with
         | Some tb => Return (RefDb.select (lit "state") RefDb.row_state k tb)
         | None => Raise (RefDb.SchemeError "Cannot find table")
         end,
         RefDb.mkDb (RefDb.tables d) (tail fs) (RefDb.journal d ++ [SelectState t k]))
    end.
Proof.
  unfold RefDb.execute.
  destruct (RefDb.faults d) as [|[e|] fs]; simpl; try reflexivity;
    destruct (RefDb.tables d !! t); reflexivity.
Qed.

(** [get_data] over the reference database: the value, and the database
    afterwards (one more call in the journal, one fault consumed, the
    tables as they were). *)
Lemma get_data_reference self key w :
  fst (get_data self key w) =
    Return match fst (RefDb.execute (SelectData (table_name self) (_key key))
                        (session_pool self) (backend w)) with
           | Return _ =>
               decoded self (RefDb.data_column (backend w) (table_name self) (_key key))
           | Raise _ => PyNone
           end /\
  backend (snd (get_data self key w)) =
    RefDb.mkDb (RefDb.tables (backend w)) (tail (RefDb.faults (backend w)))
      (RefDb.journal (backend w) ++ [SelectData (table_name self) (_key key)]).
Proof.
  rewrite get_data_statement. simpl. rewrite execute_select_data.
  unfold RefDb.data_column.
  destruct (RefDb.faults (backend w)) as [|[e|] fs]; simpl; auto;
    (destruct (RefDb.tables (backend w) !! table_name self) as [tb|]; simpl; [|auto]);
    (destruct (tb !! _key key) as [r|]; simpl; [|auto]);
    (destruct (decide (lit "data" = lit "data")) as [_|Hn]; [|congruence]);
    match goal with |- context [_dsr self ?o ?w0] =>
      pose proof (_dsr_value self o w0) as Hv;
      pose proof (_dsr_backend self o w0) as Hb;
      destruct (_dsr self o w0) as [[v|e'] w1]; simpl in *;
      rewrite ?Hb, ?Hv; auto
    end.
Qed.

Lemma has_row_false_data_column d t k :
  RefDb.has_row d t k = false -> RefDb.data_column d t k = None.
Proof.
  unfold RefDb.has_row, RefDb.data_column.
  destruct (RefDb.tables d !! t) as [tb|]; simpl; [|reflexivity].
  destruct (tb !! k); simpl; [discriminate|reflexivity].
Qed.

(** C6, amended: over the reference database [get_data] returns [None]
    exactly when there is no row for the key, or the [data] column is
    NULL or empty, or the executor fails, or the codec fails on the
    stored text, or the stored text decodes to [None] itself (the text
    [null] under json); the caller cannot tell these cases apart. *)
Theorem get_data_null_cases self key w :
  fst (get_data self key w) = Return PyNone <->
  (RefDb.has_row (backend w) (table_name self) (_key key) = false \/
   (RefDb.data_column (backend w) (table_name self) (_key key) = None \/
    RefDb.data_column (backend w) (table_name self) (_key key) = Some []) \/
   (exists e, fst (RefDb.execute (SelectData (table_name self) (_key key))
                    (session_pool self) (backend w)) = Raise e) \/
   (exists blob e,
      RefDb.data_column (backend w) (table_name self) (_key key) = Some blob /\
      codec_loads self blob = Raise e) \/
   (exists blob,
      RefDb.data_column (backend w) (table_name self) (_key key) = Some blob /\
      codec_loads self blob = Return PyNone)).
Proof.
  rewrite (proj1 (get_data_reference self key w)).
  destruct (fst (RefDb.execute _ _ _)) as [r|e] eqn:Ex.
  - split.
    + intros [= Hd]. unfold decoded in Hd.
      destruct (RefDb.data_column _ _ _) as [[|c blob]|] eqn:Ec; auto.
      simpl in Hd.
      destruct (codec_loads self (c :: blob)) as [v|e] eqn:El.
      * subst v. do 4 right. eauto.
      * do 3 right. left. eauto.
    + intros [Hr|[[Hc|Hc]|[[e He]|[(blob & e & Hc & He)|(blob & Hc & He)]]]].
      * rewrite (has_row_false_data_column _ _ _ Hr). reflexivity.
      * rewrite Hc. reflexivity.
      * rewrite Hc. reflexivity.
      * discriminate.
      * rewrite Hc. unfold decoded. rewrite He. destruct (str_truthy blob); reflexivity.
      * rewrite Hc. unfold decoded. rewrite He. destruct (str_truthy blob); reflexivity.
  - split; [|reflexivity]. intros _. do 2 right. left. eauto.
Qed.

(** C2, amended: when the executor succeeds, [get_state] returns the
    [state] column of the row: [None] when there is no row or the column
    is NULL, the stored text otherwise.  [set_state(k, None)] stores the
    empty text, so [get_state(k)] then returns the empty string, which
    is not [None]. *)
Theorem get_state_null_and_empty self key w (tb : gmap pystr RefDb.row) :
  RefDb.faults (backend w) = [] ->
  RefDb.tables (backend w) !! table_name self = Some tb ->
  fst (get_state self key w) = Return (tb !! _key key ≫= RefDb.row_state) /\
  fst ((set_state self key StateNone ;;; get_state self key) w) = Return (Some (lit EmptyString)).
Proof.
  intros Hf Ht. split.
  - rewrite get_state_statement. simpl. rewrite execute_select_state, Hf, Ht. simpl.
    destruct (tb !! _key key) as [r|]; simpl; [|reflexivity].
    destruct (decide (lit "state" = lit "state")); [reflexivity|congruence].
  - unfold bind. rewrite set_state_statement. simpl.
    rewrite execute_no_fault by exact Hf. simpl. rewrite Ht. simpl.
    rewrite get_state_statement. simpl. rewrite execute_select_state. simpl.
    rewrite lookup_insert_eq. simpl. unfold RefDb.upsert_state.
    rewrite lookup_insert_eq. simpl.
    destruct (decide (lit "state" = lit "state")); [reflexivity|congruence].
Qed.

Lemma get_data_tables self key w :
  RefDb.tables (backend (snd (get_data self key w))) = RefDb.tables (backend w).
Proof. rewrite (proj2 (get_data_reference self key w)). reflexivity. Qed.

(** C10: when the read of [update_data] yields a mapping (or nothing)
    and the write then fails, [update_data] still returns the merged
    mapping; the failure is only logged and the tables are as before the
    call, so the value returned was not persisted. *)
Theorem update_data_returns_merged_when_write_fails self key (partial : pydict) w
    (cur : pyval) (w1 : world RefDb.db) (d : pydict) (e : exn) (fs : list (option exn)) :
  get_data self key w = (Return cur, w1) ->
  merge_target cur = Some d ->
  RefDb.faults (backend w1) = Some e :: fs ->
  fst (update_data self key partial w) = Return (PyDict (dict_update d partial)) /\
  RefDb.tables (backend (snd (update_data self key partial w))) = RefDb.tables (backend w) /\
  In (storage_error e) (log (snd (update_data self key partial w))).
Proof.
  intros Eg Em Hf.
  rewrite (update_data_statement self key partial w cur w1 Eg), Em. simpl.
  split; [reflexivity|].
  rewrite set_data_statement.
  destruct (_ser_returns self (PyDict (dict_update d partial)) w1) as (sd & w2 & Es).
  rewrite Es. simpl.
  rewrite (execute_fault _ _ _ e fs Hf). simpl. split.
  - pose proof (get_data_tables self key w) as Ht. rewrite Eg in Ht. exact Ht.
  - apply in_or_app. right. left. reflexivity.
Qed.



Local Arguments Json.encode : simpl never.

Lemma decoded_encode self (v : pyval) :
  serializing_method self = lit "json" ->
  json_representable v = true ->
  decoded self (Some (Json.encode v)) = v.
Proof.
  intros Hj Hr. unfold decoded. rewrite (codec_loads_json self _ Hj).
  destruct (JsonFacts.loads_dumps v Hr) as (s & Hd & Ht & Hl).
  assert (Es : s = Json.encode v).
  { unfold Json.dumps in Hd.
    rewrite (JsonFacts.representable_serializable v Hr) in Hd. congruence. }
  subst s. rewrite Ht, Hl. reflexivity.
Qed.

(** C5: with the table in place and no fault of the executor, when the
    [data] column of the key is absent ([cur] is then the empty mapping)
    or holds the json text of the mapping [cur], [update_data] reads it,
    merges [partial] into it at the top level ([partial] wins on a
    common key, values are taken whole), writes the merged mapping with
    the UPSERT of [set_data] and returns it; a following [get_data]
    returns the merged mapping. *)
Theorem update_data_merges_and_persists self key (partial cur : pydict) w
    (tb : gmap pystr RefDb.row) :
  serializing_method self = lit "json" ->
  RefDb.faults (backend w) = [] ->
  RefDb.tables (backend w) !! table_name self = Some tb ->
  (cur = [] /\ tb !! _key key ≫= RefDb.row_data = None \/
   tb !! _key key ≫= RefDb.row_data = Some (Json.encode (PyDict cur)) /\
   json_representable (PyDict cur) = true) ->
  json_representable (PyDict partial) = true ->
  let merged := dict_update cur partial in
  let w' := snd (update_data self key partial w) in
  fst (update_data self key partial w) = Return (PyDict merged) /\
  (forall k, dict_get merged k =
             match dict_get partial k with
             | Some v => Some v
             | None => dict_get cur k
             end) /\
  RefDb.journal (backend w') =
    RefDb.journal (backend w)
    ++ [SelectData (table_name self) (_key key);
        UpsertData (table_name self) (_key key) (SerStr (Json.encode (PyDict merged)))] /\
  RefDb.data_column (backend w') (table_name self) (_key key)
    = Some (Json.encode (PyDict merged)) /\
  fst (get_data self key w') = Return (PyDict merged).
Proof.
  intros Hj Hf Ht Hcur Hp merged w'.
  assert (Hrc : json_representable (PyDict cur) = true).
  { destruct Hcur as [[-> _]|[_ Hc0]]; [reflexivity|exact Hc0]. }
  assert (Hrm : json_representable (PyDict merged) = true).
  { apply JsonFacts.dict_update_representable; assumption. }
  (* the read *)
  destruct (get_data_returns self key w) as (curval & w1 & Eg).
  destruct (get_data_reference self key w) as [Hv Hb]. rewrite Eg in Hv, Hb.
  simpl in Hv, Hb. rewrite execute_select_data, Hf, Ht in Hv. simpl in Hv.
  unfold RefDb.data_column in Hv. rewrite Ht in Hv. simpl in Hv.
  assert (Hm : merge_target curval = Some cur).
  { injection Hv as ->. destruct Hcur as [[-> ->]|[-> _]]; [reflexivity|].
    rewrite (decoded_encode self _ Hj Hrc). destruct cur; reflexivity. }
  (* the write *)
  unfold w'. rewrite (update_data_statement self key partial w curval w1 Eg), Hm.
  fold merged. simpl fst. simpl snd.
  rewrite set_data_statement.
  rewrite (_ser_json self _ w1 Hj (JsonFacts.representable_serializable _ Hrm)).
  simpl. rewrite Hb, Hf. rewrite execute_no_fault by reflexivity. simpl.
  rewrite Ht. simpl.
  split; [reflexivity|]. split.
  { intros k. apply JsonFacts.dict_get_update.
    cbn [json_representable] in Hp. apply andb_true_iff in Hp as [Hp _].
    apply JsonFacts.distinct_keys_NoDup, Hp. }
  split; [rewrite <- app_assoc; reflexivity|].
  assert (Hc : RefDb.data_column
                 (RefDb.mkDb
                    (<[table_name self :=
                         RefDb.upsert_data (_key key) (Json.encode (PyDict merged)) tb]>
                       (RefDb.tables (backend w)))
                    []
                    ((RefDb.journal (backend w) ++ [SelectData (table_name self) (_key key)])
                     ++ [UpsertData (table_name self) (_key key)
                           (SerStr (Json.encode (PyDict merged)))]))
                 (table_name self) (_key key)
               = Some (Json.encode (PyDict merged))).
  { unfold RefDb.data_column. simpl. rewrite lookup_insert_eq. simpl.
    unfold RefDb.upsert_data. rewrite lookup_insert_eq. reflexivity. }
  split; [exact Hc|].
  rewrite (proj1 (get_data_reference self key _)). simpl backend.
  rewrite Hc, execute_select_data. simpl. rewrite lookup_insert_eq.
  rewrite (codec_loads_json self _ Hj), (JsonFacts.loads_encode _ Hrm). reflexivity.
Qed.

End Reference.

(** C1: with a payload that [json.dumps] rejects, [set_data] does not
    stop after the failed serialization: [_ser] logs and returns [None],
    and [set_data] still sends the UPSERT, with [None] for [$d].  The
    reference database rejects the statement, which is logged as a
    second error, and keeps its tables. *)
Theorem set_data_sends_upsert_after_failed_serialization :
  let w := with_row (Some (lit "menu")) (Some (lit "{}")) [] in
  let w' := snd (set_data example_store example_key unserializable_data w) in
  Json.dumps unserializable_data = Raise (TypeError "Object is not JSON serializable") /\
  RefDb.journal (backend w') = [UpsertData example_table (lit "42:-1001:7") SerNone] /\
  log w' = [lit "Serializing error! Object is not JSON serializable";
            lit "FSM Storage error: parameter $d is not a text"] /\
  RefDb.tables (backend w') = RefDb.tables (backend w).
Proof. repeat split; vm_compute; reflexivity. Qed.

(** C2 as stated fails: after [set_state(k, None)], [get_state(k)]
    returns the empty string. *)
Lemma get_state_after_set_state_None_is_not_None :
  fst ((set_state example_store example_key StateNone ;;; get_state example_store example_key)
         (provisioned [])) <> Return None.
Proof. vm_compute. discriminate. Qed.

Lemma get_state_null_and_empty_witness :
  fst (get_state example_store example_key (provisioned [])) = Return None /\
  fst ((set_state example_store example_key StateNone ;;; get_state example_store example_key)
         (provisioned [])) = Return (Some (lit EmptyString)).
Proof.
  destruct (get_state_null_and_empty example_store example_key (provisioned []) ∅)
    as [H1 H2].
  - reflexivity.
  - vm_compute. reflexivity.
  - rewrite lookup_empty in H1. split; [exact H1|exact H2].
Defined.

(** C6 as stated fails: the stored text [null] is a row with a
    non-empty [data] column that the executor reads and the codec
    decodes without failure, and [get_data] returns [None]. *)
Lemma get_data_null_fifth_situation :
  ~ get_data_null_in_exactly_four_situations example_store example_key
      (with_row None (Some (lit "null")) []).
Proof.
  unfold get_data_null_in_exactly_four_situations. intros [H _].
  destruct H as [H|[[H|H]|[[e H]|(blob & e & Hc & H)]]].
  - vm_compute. reflexivity.
  - vm_compute in H. discriminate.
  - vm_compute in H. discriminate.
  - vm_compute in H. discriminate.
  - vm_compute in H. discriminate.
  - vm_compute in Hc. injection Hc as <-. vm_compute in H. discriminate.
Qed.

Lemma get_data_null_cases_witness :
  fst (get_data example_store example_key (with_row None (Some (lit "null")) []))
    = Return PyNone.
Proof.
  apply (get_data_null_cases example_store example_key
           (with_row None (Some (lit "null")) [])).
  do 4 right. exists (lit "null"). split; vm_compute; reflexivity.
Defined.

Lemma update_data_returns_merged_when_write_fails_witness :
  let stored := Json.encode (PyDict [(lit "a", PyInt 1)]) in
  let w := with_row None (Some stored) [None; Some (RefDb.Unavailable "backend unavailable")] in
  fst (update_data example_store example_key [(lit "b", PyInt 2)] w)
    = Return (PyDict [(lit "a", PyInt 1); (lit "b", PyInt 2)]) /\
  RefDb.tables (backend (snd (update_data example_store example_key [(lit "b", PyInt 2)] w)))
    = RefDb.tables (backend w) /\
  In (storage_error (RefDb.Unavailable "backend unavailable"))
     (log (snd (update_data example_store example_key [(lit "b", PyInt 2)] w))).
Proof.
  intros stored w.
  apply (update_data_returns_merged_when_write_fails example_store example_key
           [(lit "b", PyInt 2)] w (PyDict [(lit "a", PyInt 1)])
           (snd (get_data example_store example_key w)) [(lit "a", PyInt 1)]
           (RefDb.Unavailable "backend unavailable") []).
  - vm_compute. reflexivity.
  - reflexivity.
  - vm_compute. reflexivity.
Defined.

(** * The codec and [update_data] on examples *)



Lemma update_data_merges_and_persists_witness :
  let w := with_row None (Some (Json.encode (PyDict [(lit "a", PyInt 1)]))) [] in
  let w' := snd (update_data example_store example_key [(lit "b", PyInt 2)] w) in
  fst (update_data example_store example_key [(lit "b", PyInt 2)] w)
    = Return (PyDict [(lit "a", PyInt 1); (lit "b", PyInt 2)]) /\
  fst (get_data example_store example_key w')
    = Return (PyDict [(lit "a", PyInt 1); (lit "b", PyInt 2)]).
Proof.
  intros w w'.
  destruct (update_data_merges_and_persists example_store example_key
              [(lit "b", PyInt 2)] [(lit "a", PyInt 1)] w
              {[ _key example_key :=
                   RefDb.mkRow None (Some (Json.encode (PyDict [(lit "a", PyInt 1)]))) ]})
    as (H1 & _ & _ & _ & H5).
  - reflexivity.
  - reflexivity.
  - vm_compute. reflexivity.
  - right. split; vm_compute; reflexivity.
  - reflexivity.
  - split; [exact H1|exact H5].
Defined.

(** * Further properties: round trips, isolation and failure paths *)

(** ** The codec steps *)

Section Codec.

Context {S : Type} `{!Ydb S} `{!Pickle} `{!Asyncio}.

Implicit Types (self : YDBStorage) (w : world S).


Lemma _dsr_json self (obj : option pystr) w :
  serializing_method self = lit "json" ->
  _dsr self obj w =
    (Return (decoded self obj),
     match obj with
     | Some s =>
         match Json.loads s with
         | Raise e =>
             if str_truthy s then
               mkWorld (backend w)
                 (log w ++ [error_message
                    "Deserializing error! Probably, unsupported serializing method was used. " e])
             else w
         | Return _ => w
         end
     | None => w
     end).
Proof.
  intros Hj. unfold _dsr, decoded.
  rewrite Hj. destruct (decide (lit "json" = lit "pickle")) as [Hp|_]; [discriminate|].
  destruct obj as [s|]; [|reflexivity].
  rewrite (codec_loads_json self s Hj).
  unfold try_except, ret, raise, bind, logger_error.
  destruct (str_truthy s); [|destruct (Json.loads s); reflexivity].
  destruct (Json.loads s) as [v|e] eqn:El; [reflexivity|].
  assert (He : Exception e = true).
  { unfold Json.loads in El.
    destruct (Json.scan_once _ _) as [[v r]|]; [|injection El as <-; reflexivity].
    destruct (Json.skip_ws r); [discriminate|]. injection El as <-. reflexivity. }
  rewrite He. reflexivity.
Qed.

(** X2: under the json mode [_dsr] never raises: it yields the decoded
    value and leaves the log alone, except for a non-empty text that is
    not JSON, for which it logs once and yields [None]. *)
Theorem _dsr_json_never_raises self (obj : option pystr) w :
  serializing_method self = lit "json" ->
  exists v w',
    _dsr self obj w = (Return v, w') /\ backend w' = backend w /\
    match obj with
    | Some s =>
        match Json.loads s with
        | Return x => v = (if str_truthy s then x else PyNone) /\ log w' = log w
        | Raise e =>
            v = PyNone /\
            log w' =
              if str_truthy s then
                log w ++ [error_message
                  "Deserializing error! Probably, unsupported serializing method was used. " e]
              else log w
        end
    | None => v = PyNone /\ log w' = log w
    end.
Proof.
  intros Hj. eexists _, _. split; [apply (_dsr_json self obj w Hj)|].
  unfold decoded. destruct obj as [s|]; [|auto].
  rewrite (codec_loads_json self s Hj).
  destruct (Json.loads s) as [x|e], (str_truthy s); auto.
Qed.

(** What [__init__] returns and leaves behind. *)
Lemma __init___statement (driver_config : option DriverConfig) (pool : option SessionPool)
    (method table : pystr) w :
  __init__ driver_config pool method table w =
    if running_loop then
      (Return (constructed driver_config pool method table),
       logged_failure w (backend w) running_loop_error)
    else
      match retry_operation (CreateTable table)
              (session_pool (constructed driver_config pool method table)) (backend w) with
      | (Return _, b) =>
          (Return (constructed driver_config pool method table), mkWorld b (log w))
      | (Raise e, b) =>
          (Return (constructed driver_config pool method table), logged_failure w b e)
      end.
Proof.
  assert (Hm : (if bool_decide (method ≠ lit "pickle")
                     && bool_decide (method ≠ lit "json")
                  then lit "json" else method)
               = if decide (method = lit "pickle") then lit "pickle" else lit "json").
  { destruct (decide (method = lit "pickle")) as [->|Hp]; [reflexivity|].
    rewrite (bool_decide_eq_true_2 _ Hp). simpl.
    destruct (decide (method = lit "json")) as [->|Hj]; [reflexivity|].
    rewrite (bool_decide_eq_true_2 _ Hj). reflexivity. }
  unfold __init__. rewrite Hm.
  replace (mkYDBStorage
             match driver_config with Some c => Some (ydb_Driver c) | None => None end
             match pool with
             | None => ydb_SessionPool
                         match driver_config with
                         | Some c => Some (ydb_Driver c)
                         | None => None
                         end
             | Some p => p
             end
             table
             (if decide (method = lit "pickle") then lit "pickle" else lit "json"))
    with (constructed driver_config pool method table)
    by (unfold constructed; destruct driver_config, pool; reflexivity).
  unfold _create_table, asyncio_run, ydb_aio_retry_operation, try_except, bind, ret,
    raise, logger_error, BaseException.
  destruct running_loop; [reflexivity|].
  replace (table_name (constructed driver_config pool method table)) with table
    by reflexivity.
  destruct (retry_operation _ _ _) as [[r|e] b]; reflexivity.
Qed.

(** X9: a serializing method that is not ["pickle"] gives a store that
    works under json: the store that [__init__] returns serializes a
    JSON value to a text which it deserializes to the same value. *)
Theorem unknown_method_falls_back_to_json (driver_config : option DriverConfig)
    (pool : option SessionPool) (method table : pystr) (v : pyval) w :
  method <> lit "pickle" ->
  json_representable v = true ->
  exists st w1 s,
    __init__ driver_config pool method table w = (Return st, w1) /\
    _ser st v w1 = (Return (SerStr s), w1) /\
    _dsr st (Some s) w1 = (Return v, w1).
Proof.
  intros Hm Hr.
  assert (Hj : serializing_method (constructed driver_config pool method table) = lit "json").
  { unfold constructed. simpl. destruct (decide (method = lit "pickle")); [congruence|].
    reflexivity. }
  assert (Hi : exists w1, __init__ driver_config pool method table w =
                            (Return (constructed driver_config pool method table), w1)).
  { rewrite __init___statement. destruct running_loop; [eauto|].
    destruct (retry_operation _ _ _) as [[r|e] b]; eauto. }
  destruct Hi as [w1 Hi].
  exists (constructed driver_config pool method table), w1, (Json.encode v).
  split; [exact Hi|]. split.
  - apply _ser_json; [exact Hj|]. apply JsonFacts.representable_serializable, Hr.
  - rewrite (_dsr_json _ _ _ Hj), (decoded_encode _ v Hj Hr), (JsonFacts.loads_encode v Hr).
    reflexivity.
Qed.

End Codec.

(** ** The operations on a working database *)

Section Working.

Context `{!Pickle} `{!Asyncio}.

Implicit Types (self : YDBStorage) (key : StorageKey) (w : world RefDb.db).

Local Arguments Json.encode : simpl never.

Lemma set_state_working self key state w tb :
  RefDb.faults (backend w) = [] ->
  RefDb.tables (backend w) !! table_name self = Some tb ->
  set_state self key state w =
    (Return tt,
     after_statement w (UpsertState (table_name self) (_key key) (stored_state state))
       (<[table_name self := RefDb.upsert_state (_key key) (stored_state state) tb]>
          (RefDb.tables (backend w)))).
Proof.
  intros Hf Ht. rewrite set_state_statement. simpl.
  rewrite execute_no_fault by exact Hf. simpl. rewrite Ht. reflexivity.
Qed.

Lemma get_state_working self key w tb :
  RefDb.faults (backend w) = [] ->
  RefDb.tables (backend w) !! table_name self = Some tb ->
  get_state self key w =
    (Return (tb !! _key key ≫= RefDb.row_state),
     after_statement w (SelectState (table_name self) (_key key)) (RefDb.tables (backend w))).
Proof.
  intros Hf Ht. rewrite get_state_statement. simpl.
  rewrite execute_select_state, Hf, Ht. simpl.
  destruct (tb !! _key key) as [r|]; simpl; [|reflexivity].
  destruct (decide (lit "state" = lit "state")); [reflexivity|congruence].
Qed.

Lemma set_data_working self key (v : pyval) w tb :
  serializing_method self = lit "json" ->
  Json.serializable v = true ->
  RefDb.faults (backend w) = [] ->
  RefDb.tables (backend w) !! table_name self = Some tb ->
  set_data self key v w =
    (Return tt,
     after_statement w (UpsertData (table_name self) (_key key) (SerStr (Json.encode v)))
       (<[table_name self := RefDb.upsert_data (_key key) (Json.encode v) tb]>
          (RefDb.tables (backend w)))).
Proof.
  intros Hj Hs Hf Ht. rewrite set_data_statement, (_ser_json self v w Hj Hs). simpl.
  rewrite execute_no_fault by exact Hf. simpl. rewrite Ht. reflexivity.
Qed.

Lemma get_data_working self key w tb (v : pyval) :
  serializing_method self = lit "json" ->
  json_representable v = true ->
  RefDb.faults (backend w) = [] ->
  RefDb.tables (backend w) !! table_name self = Some tb ->
  tb !! _key key ≫= RefDb.row_data = Some (Json.encode v) ->
  get_data self key w =
    (Return v,
     after_statement w (SelectData (table_name self) (_key key)) (RefDb.tables (backend w))).
Proof.
  intros Hj Hr Hf Ht Hd. rewrite get_data_statement. simpl.
  rewrite execute_select_data, Hf, Ht. simpl.
  destruct (tb !! _key key) as [r|]; simpl in *; [|discriminate].
  destruct (decide (lit "data" = lit "data")) as [_|Hn]; [|congruence].
  rewrite Hd. rewrite (_dsr_json self _ _ Hj).
  rewrite (decoded_encode self v Hj Hr), (JsonFacts.loads_encode v Hr). reflexivity.
Qed.

Lemma get_data_absent self key w tb :
  RefDb.faults (backend w) = [] ->
  RefDb.tables (backend w) !! table_name self = Some tb ->
  tb !! _key key ≫= RefDb.row_data = None ->
  get_data self key w =
    (Return PyNone,
     after_statement w (SelectData (table_name self) (_key key)) (RefDb.tables (backend w))).
Proof.
  intros Hf Ht Hd. rewrite get_data_statement. simpl.
  rewrite execute_select_data, Hf, Ht. simpl.
  destruct (tb !! _key key) as [r|]; simpl in *; [|reflexivity].
  destruct (decide (lit "data" = lit "data")) as [_|Hn]; [|congruence].
  rewrite Hd. unfold _dsr, try_except, ret.
  destruct (decide _); reflexivity.
Qed.

Lemma set_state_get_state self key state w :
  working self w ->
  fst ((set_state self key state ;;; get_state self key) w) = Return (Some (stored_state state)).
Proof.
  intros [Hf [tb Ht]]. unfold bind.
  rewrite (set_state_working self key state w tb Hf Ht).
  erewrite get_state_working; [|reflexivity|apply lookup_insert_eq].
  simpl. unfold RefDb.upsert_state. rewrite lookup_insert_eq. reflexivity.
Qed.

Lemma set_data_get_data self key (v : pyval) w :
  serializing_method self = lit "json" ->
  json_representable v = true ->
  working self w ->
  fst ((set_data self key v ;;; get_data self key) w) = Return v.
Proof.
  intros Hj Hr [Hf [tb Ht]]. unfold bind.
  rewrite (set_data_working self key v w tb Hj
             (JsonFacts.representable_serializable v Hr) Hf Ht).
  erewrite (get_data_working self key _ _ v Hj Hr);
    [reflexivity|reflexivity|apply lookup_insert_eq|].
  unfold RefDb.upsert_data. rewrite lookup_insert_eq. reflexivity.
Qed.

(** A write, whatever its payload and its outcome, leaves a working
    database working. *)
Lemma set_data_keeps_working self key (v : pyval) w :
  working self w -> working self (snd (set_data self key v w)).
Proof.
  intros [Hf [tb Ht]]. unfold working.
  destruct (backend_set_data self key v w) as (s & w1 & _ & ->).
  rewrite execute_no_fault by exact Hf. simpl. rewrite Ht.
  split; [reflexivity|].
  destruct s; simpl; rewrite ?lookup_insert_eq, ?Ht; eauto.
Qed.

Lemma set_state_keeps_working self key state w :
  working self w -> working self (snd (set_state self key state w)).
Proof.
  intros [Hf [tb Ht]]. rewrite (set_state_working self key state w tb Hf Ht).
  split; [reflexivity|]. simpl. rewrite lookup_insert_eq. eauto.
Qed.

Lemma get_state_tables self key w :
  RefDb.tables (backend (snd (get_state self key w))) = RefDb.tables (backend w).
Proof.
  rewrite get_state_statement. simpl. rewrite execute_select_state.
  destruct (RefDb.faults (backend w)) as [|[e|] fs]; simpl; try reflexivity;
    destruct (RefDb.tables (backend w) !! table_name self) as [tb|]; try reflexivity.
Qed.

(** The tables after [update_data]: those before it, or those after the
    UPSERT of some text into the [data] column of the key. *)
Lemma update_data_tables self key (partial : pydict) w :
  RefDb.tables (backend (snd (update_data self key partial w))) = RefDb.tables (backend w) \/
  exists s,
    RefDb.tables (backend (snd (update_data self key partial w))) =
      snd (RefDb.run (UpsertData (table_name self) (_key key) s) (RefDb.tables (backend w))).
Proof.
  destruct (get_data_returns self key w) as (cur & w1 & Eg).
  pose proof (get_data_tables self key w) as Ht. rewrite Eg in Ht. simpl in Ht.
  rewrite (update_data_statement self key partial w cur w1 Eg).
  destruct (merge_target cur) as [d|]; simpl; [|left; exact Ht].
  destruct (backend_set_data self key (PyDict (dict_update d partial)) w1)
    as (s & w2 & _ & ->).
  destruct (execute_tables (UpsertData (table_name self) (_key key) s)
              (session_pool self) (backend w1)) as [-> | ->].
  - left. exact Ht.
  - right. exists s. rewrite Ht. reflexivity.
Qed.

(** An UPSERT under one key leaves the row of any other key as it was. *)
Lemma run_upsert_state_other_key t k s ts t' k' :
  k <> k' ->
  snd (RefDb.run (UpsertState t k s) ts) !! t' ≫= (λ tb, tb !! k')
  = ts !! t' ≫= (λ tb, tb !! k').
Proof.
  intros Hk. simpl. destruct (ts !! t) as [tb|] eqn:Et; simpl; [|reflexivity].
  destruct (decide (t = t')) as [<-|Ht].
  - rewrite lookup_insert_eq, Et. simpl. unfold RefDb.upsert_state.
    rewrite lookup_insert_ne by exact Hk. reflexivity.
  - rewrite lookup_insert_ne by done. reflexivity.
Qed.

Lemma run_upsert_data_other_key t k s ts t' k' :
  k <> k' ->
  snd (RefDb.run (UpsertData t k s) ts) !! t' ≫= (λ tb, tb !! k')
  = ts !! t' ≫= (λ tb, tb !! k').
Proof.
  intros Hk. simpl. destruct (ts !! t) as [tb|] eqn:Et; simpl; [|reflexivity].
  destruct s as [s|b|]; simpl; try reflexivity.
  destruct (decide (t = t')) as [<-|Ht].
  - rewrite lookup_insert_eq, Et. simpl. unfold RefDb.upsert_data.
    rewrite lookup_insert_ne by exact Hk. reflexivity.
  - rewrite lookup_insert_ne by done. reflexivity.
Qed.

(** X3: the state written by [set_state] is the state that [get_state]
    reads back: the text of the state, and the empty string after a
    state that is [None] or empty. *)
Theorem get_state_after_set_state self key state w :
  working self w ->
  fst ((set_state self key state ;;; get_state self key) w) = Return (Some (stored_state state)).
Proof. apply set_state_get_state. Qed.

(** X4: under the json mode a JSON value written by [set_data] is the
    value that [get_data] reads back. *)
Theorem get_data_after_set_data self key (v : pyval) w :
  serializing_method self = lit "json" ->
  json_representable v = true ->
  working self w ->
  fst ((set_data self key v ;;; get_data self key) w) = Return v.
Proof. apply set_data_get_data. Qed.

(** X5: [set_data] replaces, it does not merge: after two writes under
    one key, whatever the first payload was (even one that could not be
    serialized), [get_data] returns the second. *)
Theorem set_data_last_write_wins self key (v1 v2 : pyval) w :
  serializing_method self = lit "json" ->
  json_representable v2 = true ->
  working self w ->
  fst ((set_data self key v1 ;;; set_data self key v2 ;;; get_data self key) w) = Return v2.
Proof.
  intros Hj Hr Hw.
  destruct (set_data_returns self key v1 w) as ([] & w1 & E1).
  pose proof (set_data_keeps_working self key v1 w Hw) as Hw1. rewrite E1 in Hw1.
  unfold bind at 1. rewrite E1.
  apply (set_data_get_data self key v2 w1 Hj Hr Hw1).
Qed.

(** X6: the reads never write: [get_state] and [get_data] leave every
    table as it was, whether they succeed or fail. *)
Theorem reads_leave_the_tables self key w :
  RefDb.tables (backend (snd (get_state self key w))) = RefDb.tables (backend w) /\
  RefDb.tables (backend (snd (get_data self key w))) = RefDb.tables (backend w).
Proof. split; [apply get_state_tables|apply get_data_tables]. Qed.

(** X7: the contexts are isolated: [set_state], [set_data] and
    [update_data] under one (bot, chat, user) triple leave the row of
    every other triple, in every table, as it was. *)
Theorem writes_leave_other_keys self key key' state (v : pyval) (partial : pydict) w
    (t : pystr) :
  key <> key' ->
  let row_of (w0 : world RefDb.db) :=
    RefDb.tables (backend w0) !! t ≫= (λ tb, tb !! _key key') in
  row_of (snd (set_state self key state w)) = row_of w /\
  row_of (snd (set_data self key v w)) = row_of w /\
  row_of (snd (update_data self key partial w)) = row_of w.
Proof.
  intros Hne row_of.
  assert (Hk : _key key <> _key key') by (intros E; apply Hne, _key_inj, E).
  unfold row_of. split; [|split].
  - rewrite backend_set_state.
    destruct (execute_tables (UpsertState (table_name self) (_key key) (stored_state state))
                (session_pool self) (backend w)) as [-> | ->]; [reflexivity|].
    apply run_upsert_state_other_key, Hk.
  - destruct (backend_set_data self key v w) as (s & w1 & _ & ->).
    destruct (execute_tables (UpsertData (table_name self) (_key key) s)
                (session_pool self) (backend w)) as [-> | ->]; [reflexivity|].
    apply run_upsert_data_other_key, Hk.
  - destruct (update_data_tables self key partial w) as [-> | [s ->]]; [reflexivity|].
    apply run_upsert_data_other_key, Hk.
Qed.

(** X8: [update_data] never touches a state: the [state] column of
    every row is after the call what it was before. *)
Theorem update_data_leaves_the_state self key (partial : pydict) w (t k : pystr) :
  RefDb.state_column (backend (snd (update_data self key partial w))) t k
    = RefDb.state_column (backend w) t k.
Proof.
  unfold RefDb.state_column.
  destruct (update_data_tables self key partial w) as [-> | [s ->]]; [reflexivity|].
  apply run_upsert_data_frame.
Qed.

(** X10: every operation calls the executor once, [update_data] once
    for the read and at most once for the write, and always for the
    table of the store and the key derived from the triple. *)
Theorem operations_call_the_executor_once self key state (v : pyval) (partial : pydict) w :
  let j := RefDb.journal (backend w) in
  let t := table_name self in
  let k := _key key in
  RefDb.journal (backend (snd (set_state self key state w)))
    = j ++ [UpsertState t k (stored_state state)] /\
  RefDb.journal (backend (snd (get_state self key w))) = j ++ [SelectState t k] /\
  (exists d, RefDb.journal (backend (snd (set_data self key v w))) = j ++ [UpsertData t k d]) /\
  RefDb.journal (backend (snd (get_data self key w))) = j ++ [SelectData t k] /\
  (RefDb.journal (backend (snd (update_data self key partial w))) = j ++ [SelectData t k] \/
   exists d, RefDb.journal (backend (snd (update_data self key partial w)))
             = j ++ [SelectData t k; UpsertData t k d]).
Proof.
  intros j t k. repeat split.
  - rewrite backend_set_state. apply execute_journal.
  - rewrite get_state_statement. simpl.
    pose proof (execute_journal (SelectState t k) (session_pool self) (backend w)) as Hj.
    fold t k. destruct (RefDb.execute _ _ _) as [[[|r0 r]|e] b]; exact Hj.
  - destruct (backend_set_data self key v w) as (d & w1 & _ & ->).
    exists d. apply execute_journal.
  - rewrite (proj2 (get_data_reference self key w)). reflexivity.
  - destruct (get_data_returns self key w) as (cur & w1 & Eg).
    pose proof (proj2 (get_data_reference self key w)) as Hb. rewrite Eg in Hb. simpl in Hb.
    rewrite (update_data_statement self key partial w cur w1 Eg).
    destruct (merge_target cur) as [d|]; simpl.
    + right. destruct (backend_set_data self key (PyDict (dict_update d partial)) w1)
        as (sd & w2 & _ & ->).
      exists sd. rewrite execute_journal, Hb. simpl. rewrite <- app_assoc. reflexivity.
    + left. rewrite Hb. reflexivity.
Qed.

(** ** The bootstrap *)

Lemma init_tables (driver_config : option DriverConfig) (pool : option SessionPool)
    (method table : pystr) w :
  RefDb.tables (backend (snd (__init__ driver_config pool method table w))) =
    if running_loop then RefDb.tables (backend w)
    else
      match RefDb.faults (backend w), RefDb.tables (backend w) !! table with
      | Some _ :: _, _ | _, Some _ => RefDb.tables (backend w)
      | _, None => <[table := ∅]> (RefDb.tables (backend w))
      end.
Proof.
  rewrite __init___statement. destruct running_loop; [reflexivity|].
  simpl. unfold RefDb.execute.
  destruct (RefDb.faults (backend w)) as [|[e|] fs]; simpl; try reflexivity;
    destruct (RefDb.tables (backend w) !! table); reflexivity.
Qed.

Lemma init_working (driver_config : option DriverConfig) (pool : option SessionPool)
    (method table : pystr) w :
  running_loop = false ->
  RefDb.faults (backend w) = [] ->
  working (constructed driver_config pool method table)
    (snd (__init__ driver_config pool method table w)).
Proof.
  intros Hl Hf. unfold working. split.
  - rewrite __init___statement, Hl. simpl. rewrite execute_no_fault by exact Hf.
    destruct (fst _); reflexivity.
  - rewrite init_tables, Hl, Hf. change (table_name _) with table.
    destruct (RefDb.tables (backend w) !! table) as [tb|] eqn:Et; [eauto|].
    rewrite lookup_insert_eq. eauto.
Qed.

(** X11: constructing a store never loses stored contexts: every table
    that exists before [__init__] exists afterwards with the same rows
    (a restart over a provisioned database only logs the conflict). *)
Theorem init_keeps_existing_tables (driver_config : option DriverConfig)
    (pool : option SessionPool) (method table : pystr) w
    (t : pystr) (tb : gmap pystr RefDb.row) :
  RefDb.tables (backend w) !! t = Some tb ->
  RefDb.tables (backend (snd (__init__ driver_config pool method table w))) !! t = Some tb.
Proof.
  intros Ht. rewrite init_tables. destruct running_loop; [exact Ht|].
  destruct (RefDb.faults (backend w)) as [|[e|] fs];
    destruct (RefDb.tables (backend w) !! table) as [tb'|] eqn:Et; try exact Ht;
    (rewrite lookup_insert_ne; [exact Ht|congruence]).
Qed.

(** X12: when the store is constructed outside a running event loop
    and no fault is pending, the store that [__init__] returns is ready
    for use, whether or not the table existed: a state set through it is
    read back. *)
Theorem init_then_state_round_trip (driver_config : option DriverConfig)
    (pool : option SessionPool) (method table : pystr) key state w :
  running_loop = false ->
  RefDb.faults (backend w) = [] ->
  fst ((let* st := __init__ driver_config pool method table in
        set_state st key state ;;; get_state st key) w)
    = Return (Some (stored_state state)).
Proof.
  intros Hl Hf.
  pose proof (init_working driver_config pool method table w Hl Hf) as Hw.
  unfold bind at 1. rewrite __init___statement, Hl in *.
  destruct (retry_operation _ _ _) as [[r|e] b]; apply set_state_get_state, Hw.
Qed.

(** ** Without the table *)

(** A statement on the rows of a table that does not exist fails and
    changes nothing. *)
Lemma execute_without_table stmt pool (d : RefDb.db) t :
  RefDb.tables d !! t = None ->
  row_statement_table stmt = Some t ->
  (exists e, fst (RefDb.execute stmt pool d) = Raise e) /\
  RefDb.tables (snd (RefDb.execute stmt pool d)) = RefDb.tables d.
Proof.
  intros Ht Es. unfold RefDb.execute.
  destruct (RefDb.faults d) as [|[e|] fs]; simpl; eauto;
    destruct stmt; simpl in Es; try discriminate; injection Es as ->;
    simpl; rewrite Ht; simpl; eauto.
Qed.

(** X13: when the table of the store does not exist (the bootstrap
    failed and nobody provisioned it), the writes are lost without a
    word to the caller: they return, the tables stay as they were, and
    the reads that follow return [None]. *)
Theorem writes_without_table_are_lost self key state (v : pyval) w :
  RefDb.tables (backend w) !! table_name self = None ->
  fst ((set_state self key state ;;; get_state self key) w) = Return None /\
  fst ((set_data self key v ;;; get_data self key) w) = Return PyNone /\
  RefDb.tables (backend (snd (set_state self key state w))) = RefDb.tables (backend w) /\
  RefDb.tables (backend (snd (set_data self key v w))) = RefDb.tables (backend w).
Proof.
  intros Ht.
  assert (Hs : RefDb.tables (backend (snd (set_state self key state w)))
               = RefDb.tables (backend w)).
  { rewrite backend_set_state.
    eapply execute_without_table; [exact Ht|reflexivity]. }
  assert (Hd : RefDb.tables (backend (snd (set_data self key v w)))
               = RefDb.tables (backend w)).
  { destruct (backend_set_data self key v w) as (d & w1 & _ & ->).
    eapply execute_without_table; [exact Ht|reflexivity]. }
  split; [|split; [|split; [exact Hs|exact Hd]]].
  - destruct (set_state_returns self key state w) as ([] & w1 & E1).
    rewrite E1 in Hs. simpl in Hs. unfold bind. rewrite E1.
    rewrite get_state_statement. simpl.
    destruct (execute_without_table (SelectState (table_name self) (_key key))
                (session_pool self) (backend w1) (table_name self)) as [[e He] _];
      [rewrite Hs; exact Ht|reflexivity|].
    destruct (RefDb.execute _ _ _) as [[r|e'] b]; simpl in He; [discriminate|reflexivity].
  - destruct (set_data_returns self key v w) as ([] & w1 & E1).
    rewrite E1 in Hd. simpl in Hd. unfold bind. rewrite E1.
    rewrite get_data_statement. simpl.
    destruct (execute_without_table (SelectData (table_name self) (_key key))
                (session_pool self) (backend w1) (table_name self)) as [[e He] _];
      [rewrite Hd; exact Ht|reflexivity|].
    destruct (RefDb.execute _ _ _) as [[r|e'] b]; simpl in He; [discriminate|reflexivity].
Qed.

(** ** [update_data] step by step *)

Lemma dict_update_nil (partial : pydict) :
  json_representable (PyDict partial) = true -> dict_update [] partial = partial.
Proof.
  intros Hp. cbn [json_representable] in Hp. apply andb_true_iff in Hp as [Hp _].
  apply (JsonFacts.dict_update_distinct partial []), JsonFacts.distinct_keys_NoDup, Hp.
Qed.

(** [update_data] on a key that holds [cur]: the result, and the world
    afterwards, in which the [data] column of the key is the json text
    of the merged mapping. *)
Lemma update_data_stores self key (partial cur : pydict) w :
  serializing_method self = lit "json" ->
  stores self key w cur ->
  json_representable (PyDict partial) = true ->
  fst (update_data self key partial w) = Return (PyDict (dict_update cur partial)) /\
  exists tb',
    RefDb.faults (backend (snd (update_data self key partial w))) = [] /\
    RefDb.tables (backend (snd (update_data self key partial w))) !! table_name self
      = Some tb' /\
    json_representable (PyDict (dict_update cur partial)) = true /\
    tb' !! _key key ≫= RefDb.row_data = Some (Json.encode (PyDict (dict_update cur partial))).
Proof.
  intros Hj (tb & Hf & Ht & Hrc & Hcur) Hp.
  assert (Hrm : json_representable (PyDict (dict_update cur partial)) = true)
    by (apply JsonFacts.dict_update_representable; assumption).
  assert (Eg : exists curval,
             get_data self key w =
               (Return curval,
                after_statement w (SelectData (table_name self) (_key key))
                  (RefDb.tables (backend w))) /\
             merge_target curval = Some cur).
  { destruct Hcur as [Hd|[-> Hd]].
    - exists (PyDict cur). split.
      + apply (get_data_working self key w tb _ Hj Hrc Hf Ht Hd).
      + destruct cur; reflexivity.
    - exists PyNone. split; [|reflexivity].
      apply (get_data_absent self key w tb Hf Ht Hd). }
  destruct Eg as (curval & Eg & Hm).
  rewrite (update_data_statement self key partial w _ _ Eg), Hm.
  rewrite (set_data_working self key _
             (after_statement w (SelectData (table_name self) (_key key))
                (RefDb.tables (backend w)))
             tb Hj (JsonFacts.representable_serializable _ Hrm) eq_refl Ht).
  split; [reflexivity|].
  eexists. split; [reflexivity|]. split; [apply lookup_insert_eq|].
  split; [exact Hrm|]. unfold RefDb.upsert_data. rewrite lookup_insert_eq. reflexivity.
Qed.

(** X14: two calls of [update_data] in a row merge both partial
    mappings into the stored one, the later call winning on a common
    key; the result is what the second call returns and what [get_data]
    then reads. *)
Theorem update_data_twice self key (p1 p2 cur : pydict) w :
  serializing_method self = lit "json" ->
  stores self key w cur ->
  json_representable (PyDict p1) = true ->
  json_representable (PyDict p2) = true ->
  let merged := dict_update (dict_update cur p1) p2 in
  fst ((update_data self key p1 ;;; update_data self key p2) w) = Return (PyDict merged) /\
  fst ((update_data self key p1 ;;; update_data self key p2 ;;; get_data self key) w)
    = Return (PyDict merged) /\
  forall k, dict_get merged k =
            match dict_get p2 k with
            | Some v => Some v
            | None => match dict_get p1 k with
                      | Some v => Some v
                      | None => dict_get cur k
                      end
            end.
Proof.
  intros Hj Hs Hp1 Hp2 merged.
  destruct (update_data_stores self key p1 cur w Hj Hs Hp1)
    as [E1 (tb1 & Hf1 & Ht1 & Hr1 & Hd1)].
  destruct (update_data self key p1 w) as [r1 w1] eqn:Eu1.
  simpl in E1, Hf1, Ht1, Hd1. subst r1.
  assert (Hs1 : stores self key w1 (dict_update cur p1)).
  { exists tb1. auto. }
  destruct (update_data_stores self key p2 _ w1 Hj Hs1 Hp2)
    as [E2 (tb2 & Hf2 & Ht2 & Hr2 & Hd2)].
  destruct (update_data self key p2 w1) as [r2 w2] eqn:Eu2.
  simpl in E2, Hf2, Ht2, Hd2. subst r2.
  unfold bind. rewrite Eu1, Eu2. split; [reflexivity|]. split.
  - rewrite (get_data_working self key w2 tb2 _ Hj Hr2 Hf2 Ht2 Hd2). reflexivity.
  - intros k. unfold merged.
    cbn [json_representable] in Hp1, Hp2.
    apply andb_true_iff in Hp1 as [Hp1 _]. apply andb_true_iff in Hp2 as [Hp2 _].
    rewrite !JsonFacts.dict_get_update by (apply JsonFacts.distinct_keys_NoDup; assumption).
    reflexivity.
Qed.

(** X15: a failed read makes [update_data] forget the stored data:
    when the executor fails on the read and works again for the write,
    [get_data] has returned [None], so the partial mapping alone is
    written over whatever the [data] column held. *)
Theorem update_data_after_failed_read_overwrites self key (partial : pydict) w
    (tb : gmap pystr RefDb.row) (e : exn) :
  serializing_method self = lit "json" ->
  RefDb.faults (backend w) = [Some e] ->
  RefDb.tables (backend w) !! table_name self = Some tb ->
  json_representable (PyDict partial) = true ->
  fst (update_data self key partial w) = Return (PyDict partial) /\
  RefDb.data_column (backend (snd (update_data self key partial w)))
    (table_name self) (_key key) = Some (Json.encode (PyDict partial)).
Proof.
  intros Hj Hf Ht Hp.
  assert (Eg : get_data self key w =
                 (Return PyNone,
                  logged_failure w
                    (RefDb.mkDb (RefDb.tables (backend w)) []
                       (RefDb.journal (backend w)
                        ++ [SelectData (table_name self) (_key key)])) e)).
  { rewrite get_data_statement. simpl. rewrite (execute_fault _ _ _ e [] Hf). reflexivity. }
  rewrite (update_data_statement self key partial w _ _ Eg).
  cbn [merge_target py_truthy negb]. rewrite (dict_update_nil partial Hp).
  rewrite (set_data_working self key (PyDict partial)
             (logged_failure w
                (RefDb.mkDb (RefDb.tables (backend w)) []
                   (RefDb.journal (backend w) ++ [SelectData (table_name self) (_key key)])) e)
             tb Hj (JsonFacts.representable_serializable _ Hp) eq_refl Ht).
  split; [reflexivity|].
  unfold RefDb.data_column. simpl. rewrite lookup_insert_eq. simpl.
  unfold RefDb.upsert_data. rewrite lookup_insert_eq. reflexivity.
Qed.

(** X16: on a key without data [update_data] is [set_data]: it returns
    the partial mapping and leaves the tables that [set_data] of the
    partial mapping leaves. *)
Theorem update_data_without_data_is_set_data self key (partial : pydict) w
    (tb : gmap pystr RefDb.row) :
  serializing_method self = lit "json" ->
  RefDb.faults (backend w) = [] ->
  RefDb.tables (backend w) !! table_name self = Some tb ->
  tb !! _key key ≫= RefDb.row_data = None ->
  json_representable (PyDict partial) = true ->
  fst (update_data self key partial w) = Return (PyDict partial) /\
  RefDb.tables (backend (snd (update_data self key partial w)))
    = RefDb.tables (backend (snd (set_data self key (PyDict partial) w))).
Proof.
  intros Hj Hf Ht Hd Hp.
  rewrite (update_data_statement self key partial w _ _
             (get_data_absent self key w tb Hf Ht Hd)).
  cbn [merge_target py_truthy negb]. rewrite (dict_update_nil partial Hp).
  rewrite (set_data_working self key (PyDict partial)
             (after_statement w (SelectData (table_name self) (_key key))
                (RefDb.tables (backend w)))
             tb Hj (JsonFacts.representable_serializable _ Hp) eq_refl Ht).
  rewrite (set_data_working self key (PyDict partial) w tb Hj
             (JsonFacts.representable_serializable _ Hp) Hf Ht).
  split; reflexivity.
Qed.

(** X17: the first write under a key creates the row with the other
    column NULL: after [set_data] alone [get_state] returns [None] (not
    the empty string), and after [set_state] alone [get_data] returns
    [None]. *)
Theorem first_write_leaves_other_column_null self key (state : state_arg) (v : pyval) w
    (tb : gmap pystr RefDb.row) :
  serializing_method self = lit "json" ->
  Json.serializable v = true ->
  RefDb.faults (backend w) = [] ->
  RefDb.tables (backend w) !! table_name self = Some tb ->
  tb !! _key key = None ->
  fst ((set_data self key v ;;; get_state self key) w) = Return None /\
  fst ((set_state self key state ;;; get_data self key) w) = Return PyNone.
Proof.
  intros Hj Hs Hf Ht Hk. unfold bind. split.
  - rewrite (set_data_working self key v w tb Hj Hs Hf Ht).
    erewrite get_state_working; [|reflexivity|apply lookup_insert_eq].
    simpl. unfold RefDb.upsert_data. rewrite lookup_insert_eq, Hk. reflexivity.
  - rewrite (set_state_working self key state w tb Hf Ht).
    erewrite get_data_absent; [reflexivity|reflexivity|apply lookup_insert_eq|].
    unfold RefDb.upsert_state. rewrite lookup_insert_eq, Hk. reflexivity.
Qed.

(** X18: no false alarm: on a working database the operations that
    succeed write nothing to the log: [set_state], [get_state],
    [set_data] of a JSON value, and the [get_data] that reads it back. *)
Theorem successful_operations_log_nothing self key (state : state_arg) (v : pyval) w :
  serializing_method self = lit "json" ->
  json_representable v = true ->
  working self w ->
  log (snd (set_state self key state w)) = log w /\
  log (snd (get_state self key w)) = log w /\
  log (snd (set_data self key v w)) = log w /\
  log (snd ((set_data self key v ;;; get_data self key) w)) = log w.
Proof.
  intros Hj Hr [Hf [tb Ht]].
  pose proof (JsonFacts.representable_serializable v Hr) as Hs.
  rewrite (set_state_working self key state w tb Hf Ht).
  rewrite (get_state_working self key w tb Hf Ht).
  unfold bind. rewrite (set_data_working self key v w tb Hj Hs Hf Ht).
  repeat split.
  erewrite (get_data_working self key _ _ v Hj Hr);
    [reflexivity|reflexivity|apply lookup_insert_eq|].
  unfold RefDb.upsert_data. rewrite lookup_insert_eq. reflexivity.
Qed.

End Working.

(** ** The further properties on examples *)

Lemma example_working : working example_store (provisioned []).
Proof. split; [reflexivity|]. exists ∅. vm_compute. reflexivity. Qed.

Lemma _dsr_json_never_raises_witness :
  exists v w',
    _dsr example_store (Some (lit "{oops")) (provisioned []) = (Return v, w') /\
    v = PyNone /\
    log w' = [lit "Deserializing error! Probably, unsupported serializing method was used. Expecting value"].
Proof.
  destruct (_dsr_json_never_raises (S := RefDb.db) example_store (Some (lit "{oops"))
              (provisioned []) eq_refl) as (v & w' & E & _ & Hv & Hl).
  exists v, w'. split; [exact E|]. split; [exact Hv|exact Hl].
Defined.

Lemma get_state_after_set_state_witness :
  fst ((set_state example_store example_key (StateObject (Some (lit "Form:name"))) ;;;
        get_state example_store example_key) (provisioned []))
    = Return (Some (lit "Form:name")).
Proof.
  apply (get_state_after_set_state example_store example_key
           (StateObject (Some (lit "Form:name"))) (provisioned [])).
  exact example_working.
Defined.

Lemma get_data_after_set_data_witness :
  fst ((set_data example_store example_key example_payload ;;;
        get_data example_store example_key) (provisioned []))
    = Return example_payload.
Proof.
  apply (get_data_after_set_data example_store example_key example_payload (provisioned []));
    [reflexivity|reflexivity|exact example_working].
Defined.

Lemma set_data_last_write_wins_witness :
  fst ((set_data example_store example_key unserializable_data ;;;
        set_data example_store example_key (PyDict [(lit "b", PyInt 2)]) ;;;
        get_data example_store example_key) (provisioned []))
    = Return (PyDict [(lit "b", PyInt 2)]).
Proof.
  apply (set_data_last_write_wins example_store example_key unserializable_data
           (PyDict [(lit "b", PyInt 2)]) (provisioned []));
    [reflexivity|reflexivity|exact example_working].
Defined.

Lemma writes_leave_other_keys_witness :
  let other := mkStorageKey 42 (-1001) 8 in
  let w := with_row (Some (lit "menu")) (Some (lit "{}")) [] in
  let row_of (w0 : world RefDb.db) :=
    RefDb.tables (backend w0) !! example_table ≫= (λ tb, tb !! _key example_key) in
  row_of (snd (set_state example_store other StateNone w)) = row_of w /\
  row_of (snd (set_data example_store other PyNone w)) = row_of w /\
  row_of (snd (update_data example_store other [(lit "b", PyInt 2)] w)) = row_of w.
Proof.
  intros other w row_of.
  apply (writes_leave_other_keys example_store other example_key StateNone PyNone
           [(lit "b", PyInt 2)] w example_table).
  discriminate.
Defined.

Lemma unknown_method_falls_back_to_json_witness :
  exists st w1 s,
    __init__ None None (lit "yaml") example_table (provisioned []) = (Return st, w1) /\
    _ser st example_payload w1 = (Return (SerStr s), w1) /\
    _dsr st (Some s) w1 = (Return example_payload, w1).
Proof.
  apply (unknown_method_falls_back_to_json (S := RefDb.db) None None (lit "yaml")
           example_table example_payload (provisioned [])).
  - discriminate.
  - reflexivity.
Defined.

Lemma init_keeps_existing_tables_witness :
  let w := with_row (Some (lit "menu")) (Some (lit "{}")) [] in
  RefDb.tables (backend (snd (__init__ None None (lit "json") example_table w)))
    !! example_table
  = Some {[ _key example_key := RefDb.mkRow (Some (lit "menu")) (Some (lit "{}")) ]}.
Proof.
  intros w.
  apply (init_keeps_existing_tables None None (lit "json") example_table w example_table).
  apply lookup_singleton_eq.
Defined.

Lemma init_then_state_round_trip_witness :
  fst ((let* st := __init__ None None (lit "json") example_table in
        set_state st example_key (StateStr (lit "menu")) ;;; get_state st example_key)
         (mkWorld (RefDb.mkDb ∅ [] []) []))
    = Return (Some (lit "menu")).
Proof.
  apply (init_then_state_round_trip None None (lit "json") example_table example_key
           (StateStr (lit "menu")) (mkWorld (RefDb.mkDb ∅ [] []) [])).
  - reflexivity.
  - reflexivity.
Defined.

Lemma writes_without_table_are_lost_witness :
  let w := mkWorld (RefDb.mkDb ∅ [] []) [] in
  fst ((set_state example_store example_key (StateStr (lit "menu")) ;;;
        get_state example_store example_key) w) = Return None /\
  fst ((set_data example_store example_key example_payload ;;;
        get_data example_store example_key) w) = Return PyNone /\
  RefDb.tables (backend (snd (set_state example_store example_key (StateStr (lit "menu")) w)))
    = RefDb.tables (backend w) /\
  RefDb.tables (backend (snd (set_data example_store example_key example_payload w)))
    = RefDb.tables (backend w).
Proof.
  intros w.
  apply (writes_without_table_are_lost example_store example_key (StateStr (lit "menu"))
           example_payload w).
  apply lookup_empty.
Defined.

Lemma update_data_twice_witness :
  let w := with_row None (Some (Json.encode (PyDict [(lit "a", PyInt 1)]))) [] in
  fst ((update_data example_store example_key [(lit "b", PyInt 2)] ;;;
        update_data example_store example_key [(lit "a", PyInt 3)] ;;;
        get_data example_store example_key) w)
    = Return (PyDict [(lit "a", PyInt 3); (lit "b", PyInt 2)]).
Proof.
  intros w.
  destruct (update_data_twice example_store example_key [(lit "b", PyInt 2)]
              [(lit "a", PyInt 3)] [(lit "a", PyInt 1)] w) as (_ & H2 & _).
  - reflexivity.
  - eexists. split; [reflexivity|]. split; [apply lookup_singleton_eq|].
    split; [reflexivity|]. left. rewrite lookup_singleton_eq. reflexivity.
  - reflexivity.
  - reflexivity.
  - exact H2.
Defined.

Lemma update_data_after_failed_read_overwrites_witness :
  let w := with_row None (Some (Json.encode (PyDict [(lit "a", PyInt 1)])))
             [Some (RefDb.Unavailable "backend unavailable")] in
  fst (update_data example_store example_key [(lit "b", PyInt 2)] w)
    = Return (PyDict [(lit "b", PyInt 2)]) /\
  RefDb.data_column (backend (snd (update_data example_store example_key
                                     [(lit "b", PyInt 2)] w)))
    example_table (_key example_key)
    = Some (Json.encode (PyDict [(lit "b", PyInt 2)])).
Proof.
  intros w.
  apply (update_data_after_failed_read_overwrites example_store example_key
           [(lit "b", PyInt 2)] w
           {[ _key example_key :=
                RefDb.mkRow None (Some (Json.encode (PyDict [(lit "a", PyInt 1)]))) ]}
           (RefDb.Unavailable "backend unavailable")).
  - reflexivity.
  - reflexivity.
  - apply lookup_singleton_eq.
  - reflexivity.
Defined.

Lemma update_data_without_data_is_set_data_witness :
  let w := with_row (Some (lit "menu")) None [] in
  fst (update_data example_store example_key [(lit "b", PyInt 2)] w)
    = Return (PyDict [(lit "b", PyInt 2)]) /\
  RefDb.tables (backend (snd (update_data example_store example_key [(lit "b", PyInt 2)] w)))
    = RefDb.tables (backend (snd (set_data example_store example_key
                                    (PyDict [(lit "b", PyInt 2)]) w))).
Proof.
  intros w.
  apply (update_data_without_data_is_set_data example_store example_key
           [(lit "b", PyInt 2)] w
           {[ _key example_key := RefDb.mkRow (Some (lit "menu")) None ]}).
  - reflexivity.
  - reflexivity.
  - apply lookup_singleton_eq.
  - rewrite lookup_singleton_eq. reflexivity.
  - reflexivity.
Defined.

Lemma first_write_leaves_other_column_null_witness :
  fst ((set_data example_store example_key example_payload ;;;
        get_state example_store example_key) (provisioned [])) = Return None /\
  fst ((set_state example_store example_key (StateStr (lit "menu")) ;;;
        get_data example_store example_key) (provisioned [])) = Return PyNone.
Proof.
  apply (first_write_leaves_other_column_null example_store example_key
           (StateStr (lit "menu")) example_payload (provisioned []) ∅).
  - reflexivity.
  - reflexivity.
  - reflexivity.
  - apply lookup_singleton_eq.
  - apply lookup_empty.
Defined.

Lemma successful_operations_log_nothing_witness :
  log (snd ((set_data example_store example_key example_payload ;;;
             get_data example_store example_key) (provisioned []))) = [].
Proof.
  apply (successful_operations_log_nothing example_store example_key StateNone
           example_payload (provisioned []));
    [reflexivity|reflexivity|exact example_working].
Defined.

(** * The model on small inputs *)

(** The texts of [json.dumps]; [34] is the double quote. *)
Example encode_list :
  Json.dumps (PyList [PyInt 1; PyInt (-20); PyBool true; PyBool false; PyNone; PyList []])
    = Return (lit "[1, -20, true, false, null, []]").
Proof. reflexivity. Qed.

Example encode_dict :
  Json.dumps (PyDict [(lit "a", PyInt 1); (lit "b", PyDict [])])
    = Return (lit "{" ++ [34] ++ lit "a" ++ [34] ++ lit ": 1, "
              ++ [34] ++ lit "b" ++ [34] ++ lit ": {}}").
Proof. reflexivity. Qed.

Example encode_escapes :
  Json.encode (PyStr [34; 92; 10; 127; 233; 128512])
    = [34] ++ lit "\" ++ [34] ++ lit "\\\n\u007f\u00e9\ud83d\ude00" ++ [34].
Proof. reflexivity. Qed.

(** [json.loads]: whitespace is skipped, a later duplicate key wins, a
    literal with a fraction or an exponent is a float, and a leading
    zero, a trailing comma or an empty text are errors. *)
Example loads_spaced :
  Json.loads (lit " [1 , 2.5e3,{ }, -0 ] ")
    = Return (PyList [PyInt 1; PyFloat (FFinite false 5497558138880000 (-41)); PyDict [];
                      PyInt 0]).
Proof. vm_compute. reflexivity. Qed.

(** Floats.  [9.99] is the double [5623870034678907 * 2^-49] and is
    written with its three digits; [0.1 + 0.2] needs seventeen; the
    exponent notation starts at [1e+16] and at [1e-05]; the smallest
    double is [5e-324]. *)
Example encode_floats :
  Json.encode (PyList [PyFloat (FFinite false 5623870034678907 (-49));
                       PyFloat (FFinite false 5404319552844596 (-54));
                       PyFloat (FFinite false 5000000000000000 1);
                       PyFloat (FFinite false 5902958103587057 (-69));
                       PyFloat (FFinite false 1 (-1074));
                       PyFloat (FFinite true 0 (-1074));
                       PyFloat (FFinite false 5497558138880000 (-41))])
    = lit "[9.99, 0.30000000000000004, 1e+16, 1e-05, 5e-324, -0.0, 2500.0]".
Proof. vm_compute. reflexivity. Qed.

(** A double half way between two decimals of the shortest length takes
    the one with the even last digit: [1000000000000000.25] and
    [1000000000000000.75]. *)
Example encode_floats_half_way :
  Json.encode (PyList [PyFloat (FFinite false 8000000000000002 (-3));
                       PyFloat (FFinite false 8000000000000006 (-3))])
    = lit "[1000000000000000.2, 1000000000000000.8]".
Proof. vm_compute. reflexivity. Qed.

(** A literal is rounded to the nearest double: [0.1] and a longer
    decimal of the same double, a literal below the smallest double
    (zero, which is falsy), and one above the largest (an infinity). *)
Example loads_floats :
  Json.loads (lit "[0.1, 0.1000000000000000055511151231257827, 1e-400, 1E400, -0.0]")
    = Return (PyList [PyFloat (FFinite false 7205759403792794 (-56));
                      PyFloat (FFinite false 7205759403792794 (-56));
                      PyFloat (FFinite false 0 (-1074));
                      PyFloat (FInf false);
                      PyFloat (FFinite true 0 (-1074))]) /\
  py_truthy (PyFloat (FFinite false 0 (-1074))) = false /\
  py_truthy (PyFloat (FFinite false 1 (-1074))) = true.
Proof. vm_compute. repeat split; reflexivity. Qed.

Example loads_duplicate_key :
  Json.loads (lit "{" ++ Json.encode_str (lit "k") ++ lit ":1," ++ Json.encode_str (lit "k")
              ++ lit ":2}")
    = Return (PyDict [(lit "k", PyInt 2)]).
Proof. reflexivity. Qed.

Example loads_errors :
  Json.loads (lit "01") = Raise (JSONDecodeError "Extra data") /\
  Json.loads (lit "[1,]") = Raise (JSONDecodeError "Expecting value") /\
  Json.loads [] = Raise (JSONDecodeError "Expecting value") /\
  Json.loads (lit "{'a': 1}") = Raise (JSONDecodeError "Expecting value").
Proof. repeat split; reflexivity. Qed.

(** Why [json_representable] asks for scalar values: a high surrogate
    followed by a low surrogate, two code points of a [str], come back
    as one character. *)
Example surrogate_pair_is_joined :
  Json.loads (Json.encode (PyStr [55357; 56832])) = Return (PyStr [128512]).
Proof. reflexivity. Qed.

(** The constructor on the three outcomes of the bootstrap: the table
    is created; it exists already; the backend cannot be reached. *)
Example init_creates_table :
  let '(r, w) := __init__ None None (lit "json") example_table
                   (mkWorld (RefDb.mkDb ∅ [] []) []) in
  r = Return example_store /\ log w = [] /\
  RefDb.tables (backend w) !! example_table = Some ∅.
Proof. vm_compute. repeat split; reflexivity. Qed.

Example init_table_exists :
  let '(r, w) := __init__ None None (lit "yaml") example_table (provisioned []) in
  r = Return example_store /\
  log w = [lit "FSM Storage error: Table name conflict: path exist"].
Proof. vm_compute. split; reflexivity. Qed.

Example init_backend_unreachable :
  let '(r, w) := __init__ None None (lit "pickle") example_table
                   (provisioned [Some RefDb.SessionPoolEmpty]) in
  r = Return (mkYDBStorage None (ydb_SessionPool None) example_table (lit "pickle")) /\
  log w = [lit "FSM Storage error: "].
Proof. vm_compute. split; reflexivity. Qed.

(** Constructed inside a running event loop (in a coroutine, say), the
    store is returned but its table is not created: [asyncio.run]
    raises before the bootstrap starts, and the writes that follow are
    lost until the table exists. *)
Example init_inside_running_loop :
  let inside : Asyncio := {| running_loop := true |} in
  let '(r, w) := __init__ (asyncio := inside) None None (lit "json") example_table
                   (mkWorld (RefDb.mkDb ∅ [] []) []) in
  r = Return example_store /\
  log w = [lit "FSM Storage error: asyncio.run() cannot be called from a running event loop"] /\
  RefDb.tables (backend w) = ∅ /\
  RefDb.journal (backend w) = [] /\
  fst ((set_state example_store example_key (StateStr (lit "menu")) ;;;
        get_state example_store example_key) w) = Return None.
Proof. vm_compute. repeat split; reflexivity. Qed.

(** State and data of one key. *)
Example set_state_then_get_state :
  fst ((set_state example_store example_key (StateStr (lit "order:address")) ;;;
        get_state example_store example_key) (provisioned []))
    = Return (Some (lit "order:address")).
Proof. vm_compute. reflexivity. Qed.

Example set_data_overwrites :
  fst ((set_data example_store example_key (PyDict [(lit "a", PyInt 1)]) ;;;
        set_data example_store example_key (PyDict [(lit "b", PyInt 2)]) ;;;
        get_data example_store example_key) (provisioned []))
    = Return (PyDict [(lit "b", PyInt 2)]).
Proof. vm_compute. reflexivity. Qed.

Example never_written_key :
  fst (get_state example_store example_key (provisioned [])) = Return None /\
  fst (get_data example_store example_key (provisioned [])) = Return PyNone.
Proof. split; vm_compute; reflexivity. Qed.

(** [update_data] on a row whose data is a JSON array: the value read
    back has no [update] method. *)
Example update_data_on_stored_list :
  fst (update_data example_store example_key [(lit "b", PyInt 2)]
         (with_row None (Some (lit "[1]")) []))
    = Raise (AttributeError "object has no attribute 'update'").
Proof. vm_compute. reflexivity. Qed.
